(** * gitpod-runner-analyzer: metrics derivation, cost estimation and report

    A shallow embedding of [src/main.ts] (class [GitpodResourceAnalyzer]):
    [calculateUptime], [parseSystemDetails], [getRegion], [estimateCost],
    [analyzeRunner] and the aggregating parts of [generateMarkdownReport],
    together with the fragment of ECMAScript these functions rest on
    (binary64 numbers, [Number.prototype.toFixed], [Number] applied to a
    string, [JSON.parse], truthiness and property keys). *)

From Stdlib Require Import ZArith List String Ascii Bool Lia Permutation SpecFloat.
Import ListNotations.
Local Open Scope Z_scope.

(** ** ECMAScript numbers: IEEE 754 binary64 *)

Module Num.

Definition prec : Z := 53.
Definition emax : Z := 1024.

(** A Number value.  [S754_finite s m e] is [(-1)^s * m * 2^e]. *)
Definition number : Type := spec_float.

Definition zero : number := S754_zero false.
Definition nan : number := S754_nan.

Definition add : number -> number -> number := SFadd prec emax.
Definition sub : number -> number -> number := SFsub prec emax.
Definition mul : number -> number -> number := SFmul prec emax.
Definition div : number -> number -> number := SFdiv prec emax.

(** The Number nearest to an integer (ties to even). *)
Definition of_Z (z : Z) : number := binary_normalize prec emax z 0 false.

(** The Number nearest to [n / d] for [0 <= n] and [0 < d], with sign
    [neg]: the quotient is computed with at least [prec] bits and the
    remainder is kept as a rounding location. *)
Definition of_ratio (neg : bool) (n d : Z) : number :=
  if n =? 0 then S754_zero neg
  else
    let '(q, e, l) := SFdiv_core_binary prec emax n 0 d 0 in
    binary_round_aux prec emax neg q e l.

(** The Number nearest to [digits * 10^exp10]: the value of a decimal
    literal. *)
Definition of_decimal (neg : bool) (digits exp10 : Z) : number :=
  if digits =? 0 then S754_zero neg
  else if 0 <=? exp10 then of_ratio neg (digits * 10 ^ exp10) 1
  else of_ratio neg digits (10 ^ (- exp10)).

Definition isNaN (x : number) : bool :=
  match x with S754_nan => true | _ => false end.

Definition isFinite (x : number) : bool :=
  match x with S754_zero _ | S754_finite _ _ _ => true | _ => false end.

(** ToBoolean on a Number: [+0], [-0] and [NaN] are falsy. *)
Definition truthy (x : number) : bool :=
  match x with S754_zero _ | S754_nan => false | _ => true end.

(** [x > y], [x >= y] (false as soon as one side is NaN). *)
Definition gt (x y : number) : bool := SFltb y x.
Definition ge (x y : number) : bool := SFleb y x.

(** The integer part of [m * 2^e] for [0 < m]. *)
Definition trunc_mag (m : positive) (e : Z) : Z :=
  if 0 <=? e then Zpos m * 2 ^ e else Zpos m / 2 ^ (- e).

(** [round_scaled m e k]: the integer [n] for which [n / k] is nearest
    to [m * 2^e]; of two such integers the larger one
    (Number.prototype.toFixed, step 10.a). *)
Definition round_scaled (m : positive) (e : Z) (k : Z) : Z :=
  if 0 <=? e then Zpos m * 2 ^ e * k
  else (2 * Zpos m * k + 2 ^ (- e)) / (2 * 2 ^ (- e)).

(** [Math.floor]: the largest integer not above [x].  A Number with a
    negative exponent is below 2^53 in magnitude, so the integer is a
    Number. *)
Definition floor (x : number) : number :=
  match x with
  | S754_finite s m e =>
      if 0 <=? e then x
      else
        let q := Zpos m / 2 ^ (- e) in
        let exact := Zpos m mod 2 ^ (- e) =? 0 in
        if s then of_Z (if exact then - q else - q - 1) else of_Z q
  | _ => x
  end.

End Num.

(** ** ECMAScript strings and the Number <-> String conversions

    Strings are byte strings; a non-ASCII character is its UTF-8
    encoding. *)

Module Str.

Local Open Scope string_scope.
Local Open Scope Z_scope.

Definition code (c : ascii) : Z := Z.of_N (N_of_ascii c).
Definition chr (z : Z) : ascii := ascii_of_N (Z.to_N z).

Definition is_digit (c : ascii) : bool := (48 <=? code c) && (code c <=? 57).

(** ToBoolean on a String: only the empty string is falsy. *)
Definition truthy (s : string) : bool :=
  match s with EmptyString => false | String _ _ => true end.

(** *** Printing integers *)

Fixpoint digits_fuel (fuel : nat) (n : Z) (acc : string) : string :=
  let acc' := String (chr (48 + n mod 10)) acc in
  match fuel with
  | O => acc'
  | S f => if n <? 10 then acc' else digits_fuel f (n / 10) acc'
  end.

(** The decimal digits of [n >= 0], most significant first. *)
Definition decimal_digits (n : Z) : string :=
  digits_fuel (Z.to_nat (Z.log2 n)) n "".

Definition Zlength (s : string) : Z := Z.of_nat (String.length s).

Fixpoint repeat0 (n : nat) : string :=
  match n with O => "" | S k => String "0" (repeat0 k) end.

(** *** Number::toString (ECMA-262, 6.1.6.1.20), radix 10 *)

(** [x = num / den] for a finite positive [x = m * 2^e]. *)
Definition numerator (m : positive) (e : Z) : Z :=
  if 0 <=? e then Zpos m * 2 ^ e else Zpos m.
Definition denominator (e : Z) : Z :=
  if 0 <=? e then 1 else 2 ^ (- e).

(** The least [j >= from] with [num * 10^j >= den]. *)
Fixpoint scale_up (fuel : nat) (num den j : Z) : Z :=
  match fuel with
  | O => j
  | S f => if den <=? num * 10 ^ j then j else scale_up f num den (j + 1)
  end.

(** [n0] with [10^(n0-1) <= num/den < 10^n0]. *)
Definition decimal_exponent (num den : Z) : Z :=
  if den <=? num then Zlength (decimal_digits (num / den))
  else 1 - scale_up 400 num den 1.

(** [num/den * 10^p] rounded to the nearest integer (ties to even), and
    the other neighbour of the exact value. *)
Definition scaled_neighbours (num den p : Z) : Z * Z :=
  let a := if 0 <=? p then num * 10 ^ p else num in
  let b := if 0 <=? p then den else den * 10 ^ (- p) in
  let q := a / b in
  let r := a mod b in
  if (2 * r <? b) || ((2 * r =? b) && Z.even q) then (q, q + 1) else (q + 1, q).

Definition same_number (x y : Num.number) : bool :=
  match x, y with
  | S754_finite s1 m1 e1, S754_finite s2 m2 e2 =>
      Bool.eqb s1 s2 && Pos.eqb m1 m2 && Z.eqb e1 e2
  | _, _ => false
  end.

(** The shortest digit string [c] (as an integer, with its exponent)
    for which [c * 10^ex] rounds to [x]; [k] runs over the lengths
    [k0, k0 + 1, ...]. *)
Fixpoint shortest_from (fuel : nat) (x : Num.number) (num den n0 k : Z) : Z * Z :=
  let '(c1, c2) := scaled_neighbours num den (k - n0) in
  match fuel with
  | O => (c1, n0 - k)
  | S f =>
      if same_number (Num.of_decimal false c1 (n0 - k)) x then (c1, n0 - k)
      else if same_number (Num.of_decimal false c2 (n0 - k)) x then (c2, n0 - k)
      else shortest_from f x num den n0 (k + 1)
  end.

Fixpoint strip_zeros (fuel : nat) (c ex : Z) : Z * Z :=
  match fuel with
  | O => (c, ex)
  | S f => if (c mod 10 =? 0) && (0 <? c) then strip_zeros f (c / 10) (ex + 1) else (c, ex)
  end.

Definition format_decimal (c ex : Z) : string :=
  let ds := decimal_digits c in
  let k := Zlength ds in
  let n := ex + k in
  if (k <=? n) && (n <=? 21) then ds ++ repeat0 (Z.to_nat (n - k))
  else if (0 <? n) && (n <=? 21) then
    substring 0 (Z.to_nat n) ds ++ "." ++ substring (Z.to_nat n) (Z.to_nat (k - n)) ds
  else if (-6 <? n) && (n <=? 0) then "0." ++ repeat0 (Z.to_nat (- n)) ++ ds
  else
    let e := n - 1 in
    let tail := (if 0 <=? e then "e+" else "e-") ++ decimal_digits (Z.abs e) in
    if k =? 1 then ds ++ tail
    else substring 0 1 ds ++ "." ++ substring 1 (Z.to_nat (k - 1)) ds ++ tail.

Definition Number_toString (x : Num.number) : string :=
  match x with
  | S754_nan => "NaN"
  | S754_zero _ => "0"
  | S754_infinity s => (if s then "-" else "") ++ "Infinity"
  | S754_finite s m e =>
      let num := numerator m e in
      let den := denominator e in
      let n0 := decimal_exponent num den in
      let '(c, ex) := shortest_from 16 (S754_finite false m e) num den n0 1 in
      let '(c', ex') := strip_zeros 17 c ex in
      (if s then "-" else "") ++ format_decimal c' ex'
  end.

(** *** Number.prototype.toFixed (ECMA-262, 21.1.3.3) *)

Definition toFixed (x : Num.number) (fractionDigits : nat) : string :=
  match x with
  | S754_nan | S754_infinity _ => Number_toString x
  | S754_zero _ =>
      match fractionDigits with
      | O => "0"
      | _ => "0." ++ repeat0 fractionDigits
      end
  | S754_finite s m e =>
      if 10 ^ 21 <=? Num.trunc_mag m e then Number_toString x
      else
        let f := Z.of_nat fractionDigits in
        let n := Num.round_scaled m e (10 ^ f) in
        let ds := decimal_digits n in
        let body :=
          match fractionDigits with
          | O => ds
          | _ =>
              let padded := repeat0 (Z.to_nat (f + 1 - Zlength ds)) ++ ds in
              let k := Zlength padded in
              substring 0 (Z.to_nat (k - f)) padded ++ "."
                ++ substring (Z.to_nat (k - f)) fractionDigits padded
          end in
        (if s then "-" else "") ++ body
  end.

(** *** Scanning digits *)

(** Reads a maximal run of digits of the given radix, accumulating its
    value onto [acc] and its length onto [cnt]. *)
Definition digit_value (radix : Z) (c : ascii) : option Z :=
  let n := code c in
  let v :=
    if (48 <=? n) && (n <=? 57) then n - 48
    else if (97 <=? n) && (n <=? 102) then n - 87
    else if (65 <=? n) && (n <=? 70) then n - 55
    else 16 in
  if v <? radix then Some v else None.

Fixpoint scan_radix (radix : Z) (s : string) (acc cnt : Z) : Z * Z * string :=
  match s with
  | String c r =>
      match digit_value radix c with
      | Some v => scan_radix radix r (radix * acc + v) (cnt + 1)
      | None => (acc, cnt, s)
      end
  | EmptyString => (acc, cnt, s)
  end.

Definition scan_digits := scan_radix 10.

(** An optional sign. *)
Definition scan_sign (s : string) : bool * string :=
  match s with
  | String c r =>
      if code c =? 43 then (false, r)          (* + *)
      else if code c =? 45 then (true, r)      (* - *)
      else (false, s)
  | EmptyString => (false, s)
  end.

(** *** StringToNumber (ECMA-262, 7.1.4.1.1) *)

(** Removes one leading StrWhiteSpaceChar (WhiteSpace or
    LineTerminator), if there is one. *)
Definition skip_ws1 (s : string) : option string :=
  match s with
  | String c r =>
      let n := code c in
      if ((9 <=? n) && (n <=? 13)) || (n =? 32) then Some r
      else
        match r with
        | String c2 r2 =>
            let n2 := code c2 in
            if (n =? 194) && (n2 =? 160) then Some r2            (* U+00A0 *)
            else
              match r2 with
              | String c3 r3 =>
                  let n3 := code c3 in
                  if (n =? 239) && (n2 =? 187) && (n3 =? 191) then Some r3  (* U+FEFF *)
                  else if (n =? 225) && (n2 =? 154) && (n3 =? 128) then Some r3  (* U+1680 *)
                  else if (n =? 226) && (n2 =? 128)
                          && (((128 <=? n3) && (n3 <=? 138))       (* U+2000 - U+200A *)
                              || (n3 =? 168) || (n3 =? 169)        (* U+2028, U+2029 *)
                              || (n3 =? 175)) then Some r3        (* U+202F *)
                  else if (n =? 226) && (n2 =? 129) && (n3 =? 159) then Some r3  (* U+205F *)
                  else if (n =? 227) && (n2 =? 128) && (n3 =? 128) then Some r3  (* U+3000 *)
                  else None
              | EmptyString => None
              end
        | EmptyString => None
        end
  | EmptyString => None
  end.

Fixpoint skip_ws_fuel (fuel : nat) (s : string) : string :=
  match fuel with
  | O => s
  | S f => match skip_ws1 s with Some r => skip_ws_fuel f r | None => s end
  end.

Definition skip_ws (s : string) : string := skip_ws_fuel (String.length s) s.

Definition all_ws (s : string) : bool :=
  match skip_ws s with EmptyString => true | _ => false end.

Fixpoint trim_end (s : string) : string :=
  match s with
  | EmptyString => EmptyString
  | String c r => if all_ws s then EmptyString else String c (trim_end r)
  end.

Definition trim (s : string) : string := trim_end (skip_ws s).

Definition is_e (c : ascii) : bool := (code c =? 101) || (code c =? 69).

(** StrDecimalLiteral: an optional sign, then [Infinity] or digits with
    an optional fraction and exponent. *)
Definition StrDecimalLiteral (s : string) : Num.number :=
  let '(neg, s1) := scan_sign s in
  if String.eqb s1 "Infinity" then S754_infinity neg
  else
    let '(i, ni, r1) := scan_digits s1 0 0 in
    let '(m, nf, r2) :=
      match r1 with
      | String c r => if code c =? 46 then scan_digits r i 0 else (i, 0, r1)
      | EmptyString => (i, 0, r1)
      end in
    if ni + nf =? 0 then Num.nan
    else
      match r2 with
      | EmptyString => Num.of_decimal neg m (- nf)
      | String c r3 =>
          if is_e c then
            let '(eneg, r4) := scan_sign r3 in
            let '(ex, ne, r5) := scan_digits r4 0 0 in
            match r5 with
            | EmptyString =>
                if ne =? 0 then Num.nan
                else Num.of_decimal neg m ((if eneg then - ex else ex) - nf)
            | _ => Num.nan
            end
          else Num.nan
      end.

(** NonDecimalIntegerLiteral: [0x], [0o] or [0b] and digits, unsigned. *)
Definition radix_of_prefix (c0 c : ascii) : option Z :=
  let n := code c in
  if negb (code c0 =? 48) then None
  else if (n =? 120) || (n =? 88) then Some 16
  else if (n =? 111) || (n =? 79) then Some 8
  else if (n =? 98) || (n =? 66) then Some 2
  else None.

Definition NonDecimalIntegerLiteral (s : string) : option Num.number :=
  match s with
  | String c0 (String c r) =>
      match radix_of_prefix c0 c with
      | Some rx =>
          match scan_radix rx r 0 0 with
          | (v, cnt, EmptyString) => Some (if cnt =? 0 then Num.nan else Num.of_Z v)
          | _ => Some Num.nan
          end
      | None => None
      end
  | _ => None
  end.

(** [Number(s)] for a String [s]. *)
Definition StringToNumber (s : string) : Num.number :=
  match trim s with
  | EmptyString => Num.zero
  | t =>
      match NonDecimalIntegerLiteral t with
      | Some x => x
      | None => StrDecimalLiteral t
      end
  end.

End Str.

(** ** Completions: a value, or a thrown exception *)

(** The exceptions that ECMA-262 has the analyzer's own code raise on
    parsed JSON.  (An engine's RangeError for an exhausted call stack is
    not among them.) *)
Inductive JsError : Type :=
| SyntaxError
| TypeError.

Inductive completion (A : Type) : Type :=
| Normal (a : A)
| Throw (e : JsError).

Arguments Normal {A} a.
Arguments Throw {A} e.

Definition bind {A B : Type} (c : completion A) (k : A -> completion B) : completion B :=
  match c with
  | Normal a => k a
  | Throw e => Throw e
  end.

Notation "'let*' x ':=' c 'in' k" := (bind c (fun x => k))
  (at level 10, x name, c at level 100, k at level 200).

(** [mapM f l]: the results of [f] on the elements of [l] from left to
    right, or the first exception. *)
Fixpoint mapM {A B : Type} (f : A -> completion B) (l : list A) : completion (list B) :=
  match l with
  | [] => Normal []
  | a :: r =>
      let* b := f a in
      let* bs := mapM f r in
      Normal (b :: bs)
  end.

(** ** Values produced by [JSON.parse], and [JSON.parse] itself *)

Module Json.

Local Open Scope string_scope.
Local Open Scope Z_scope.

(** An object is the list of its own properties in creation order; the
    keys of one object are pairwise distinct. *)
#[warnings="-register-all"] Inductive JsValue : Type :=
| JNull
| JBool (b : bool)
| JNum (x : Num.number)
| JStr (s : string)
| JArr (items : list JsValue)
| JObj (fields : list (string * JsValue)).

(** [[Get]] restricted to own properties; [None] is [undefined]. *)
Fixpoint own_property (fields : list (string * JsValue)) (key : string) : option JsValue :=
  match fields with
  | [] => None
  | (k, v) :: r => if String.eqb k key then Some v else own_property r key
  end.

(** CreateDataProperty: a repeated key keeps its place and takes the
    new value. *)
Fixpoint set_property (fields : list (string * JsValue)) (key : string) (v : JsValue)
  : list (string * JsValue) :=
  match fields with
  | [] => [(key, v)]
  | (k, w) :: r =>
      if String.eqb k key then (k, v) :: r else (k, w) :: set_property r key v
  end.

(** ToBoolean. *)
Definition truthy (v : JsValue) : bool :=
  match v with
  | JNull => false
  | JBool b => b
  | JNum x => Num.truthy x
  | JStr s => Str.truthy s
  | JArr _ | JObj _ => true
  end.

(** ToString.  An array joins the strings of its items with commas,
    [null] items counting as empty.  A plain object answers
    ["[object Object]"] through the inherited [toString]; when it has
    an own property [toString] (never callable in parsed JSON),
    OrdinaryToPrimitive finds no method that yields a primitive and
    throws a TypeError.  This is the conversion of ECMA-262, in which
    recursion has no bound: an engine that runs out of call stack on
    deeply nested arrays throws a RangeError instead, and that is outside
    this model. *)
Fixpoint ToString (v : JsValue) : completion string :=
  match v with
  | JNull => Normal "null"
  | JBool b => Normal (if b then "true" else "false")
  | JNum x => Normal (Str.Number_toString x)
  | JStr s => Normal s
  | JArr items =>
      (fix join (l : list JsValue) : completion string :=
         match l with
         | [] => Normal ""
         | x :: r =>
             let* a := match x with JNull => Normal "" | _ => ToString x end in
             match r with
             | [] => Normal a
             | _ => let* b := join r in Normal (a ++ "," ++ b)
             end
         end) items
  | JObj fields =>
      match own_property fields "toString" with
      | Some _ => Throw TypeError
      | None => Normal "[object Object]"
      end
  end.

(** ToPropertyKey (there are no Symbols among parsed values). *)
Definition ToPropertyKey (v : JsValue) : completion string := ToString v.

Inductive result (A : Type) : Type :=
| Ok (a : A) (rest : string)
| Bad
| OutOfFuel.

Arguments Ok {A} a rest.
Arguments Bad {A}.
Arguments OutOfFuel {A}.

Definition is_ws (c : ascii) : bool :=
  let n := Str.code c in (n =? 32) || (n =? 9) || (n =? 10) || (n =? 13).

Fixpoint ws (s : string) : string :=
  match s with
  | String c r => if is_ws c then ws r else s
  | EmptyString => s
  end.

(** *** String literals *)

Definition hex_val (c : ascii) : option Z := Str.digit_value 16 c.

Definition hex4 (a b c d : ascii) : option Z :=
  match hex_val a, hex_val b, hex_val c, hex_val d with
  | Some x, Some y, Some z, Some w => Some (((x * 16 + y) * 16 + z) * 16 + w)
  | _, _, _, _ => None
  end.

(** The UTF-8 encoding of a code point (a lone surrogate is encoded
    like any other code point below 0x10000). *)
Definition utf8 (cp : Z) : string :=
  if cp <? 128 then String (Str.chr cp) ""
  else if cp <? 2048 then
    String (Str.chr (192 + cp / 64)) (String (Str.chr (128 + cp mod 64)) "")
  else if cp <? 65536 then
    String (Str.chr (224 + cp / 4096))
      (String (Str.chr (128 + (cp / 64) mod 64))
         (String (Str.chr (128 + cp mod 64)) ""))
  else
    String (Str.chr (240 + cp / 262144))
      (String (Str.chr (128 + (cp / 4096) mod 64))
         (String (Str.chr (128 + (cp / 64) mod 64))
            (String (Str.chr (128 + cp mod 64)) ""))).

Definition is_high (cu : Z) : bool := (55296 <=? cu) && (cu <=? 56319).
Definition is_low (cu : Z) : bool := (56320 <=? cu) && (cu <=? 57343).

(** A string is a sequence of code units, and a high surrogate followed
    by a low surrogate is one code point, however the two were written:
    when the encoding of a high surrogate (237, 160..175, 128..191) comes
    to stand before that of a low surrogate (237, 176..191, 128..191),
    the six bytes are the four bytes of the code point. *)
Definition joined (s : string) : string :=
  match s with
  | String c0 (String c1 (String c2 (String c3 (String c4 (String c5 r))))) =>
      if (Str.code c0 =? 237) && (160 <=? Str.code c1) && (Str.code c1 <=? 175)
         && (128 <=? Str.code c2) && (Str.code c2 <=? 191)
         && (Str.code c3 =? 237) && (176 <=? Str.code c4) && (Str.code c4 <=? 191)
         && (128 <=? Str.code c5) && (Str.code c5 <=? 191)
      then
        let hi := 53248 + (Str.code c1 - 128) * 64 + (Str.code c2 - 128) in
        let lo := 53248 + (Str.code c4 - 128) * 64 + (Str.code c5 - 128) in
        utf8 (65536 + (hi - 55296) * 1024 + (lo - 56320)) ++ r
      else s
  | _ => s
  end.

(** The characters [t] put before the characters read after them. *)
Definition prepend (t : string) (o : option (string * string)) : option (string * string) :=
  match o with
  | Some (body, rest) => Some (joined (t ++ body), rest)
  | None => None
  end.

(** The character a two-character escape stands for. *)
Definition simple_escape (e : ascii) : option ascii :=
  let n := Str.code e in
  if (n =? 34) || (n =? 92) || (n =? 47) then Some e      (* quote, backslash, slash *)
  else if n =? 98 then Some (Str.chr 8)                    (* b *)
  else if n =? 102 then Some (Str.chr 12)                  (* f *)
  else if n =? 110 then Some (Str.chr 10)                  (* n *)
  else if n =? 114 then Some (Str.chr 13)                  (* r *)
  else if n =? 116 then Some (Str.chr 9)                   (* t *)
  else None.

(** A low surrogate escape that follows a high surrogate [cu]: the code
    point of the pair. *)
Definition surrogate_pair (cu : Z) (e u a b c d : ascii) : option Z :=
  if (Str.code e =? 92) && (Str.code u =? 117) && is_high cu then
    match hex4 a b c d with
    | Some cu' =>
        if is_low cu' then Some (65536 + (cu - 55296) * 1024 + (cu' - 56320)) else None
    | None => None
    end
  else None.

(** The characters of a string literal after its opening quote, up to
    the closing quote, with escapes decoded; and the text that follows. *)
Fixpoint string_body (s : string) : option (string * string) :=
  match s with
  | EmptyString => None
  | String c r =>
      if Str.code c =? 34 then Some ("", r)
      else if Str.code c =? 92 then
        match r with
        | EmptyString => None
        | String e r0 =>
            if Str.code e =? 117 then
              match r0 with
              | String a (String b (String c1 (String d r1))) =>
                  match hex4 a b c1 d with
                  | Some cu =>
                      match r1 with
                      | String e' (String u' (String a' (String b' (String c' (String d' r2))))) =>
                          match surrogate_pair cu e' u' a' b' c' d' with
                          | Some cp => prepend (utf8 cp) (string_body r2)
                          | None => prepend (utf8 cu) (string_body r1)
                          end
                      | _ => prepend (utf8 cu) (string_body r1)
                      end
                  | None => None
                  end
              | _ => None
              end
            else
              match simple_escape e with
              | Some x => prepend (String x "") (string_body r0)
              | None => None
              end
        end
      else if Str.code c <? 32 then None
      else prepend (String c "") (string_body r)
  end.

(** *** Number literals: [-? int frac? exp?] *)

Definition starts_with (n : Z) (s : string) : bool :=
  match s with
  | String c _ => Str.code c =? n
  | EmptyString => false
  end.

Definition tail (s : string) : string :=
  match s with
  | String _ r => r
  | EmptyString => s
  end.

Definition number_literal (s : string) : option (Num.number * string) :=
  let neg := starts_with 45 s in
  let s1 := if neg then tail s else s in
  let '(i, ni, r1) := Str.scan_digits s1 0 0 in
  let leading_zero := starts_with 48 s1 && (1 <? ni) in
  if (ni =? 0) || leading_zero then None
  else
    let frac :=
      if starts_with 46 r1 then
        let '(m, nf, r2) := Str.scan_digits (tail r1) i 0 in
        if nf =? 0 then None else Some (m, nf, r2)
      else Some (i, 0, r1) in
    match frac with
    | None => None
    | Some (m, nf, r2) =>
        if starts_with 101 r2 || starts_with 69 r2 then
          let '(eneg, r4) := Str.scan_sign (tail r2) in
          let '(ex, ne, r5) := Str.scan_digits r4 0 0 in
          if ne =? 0 then None
          else Some (Num.of_decimal neg m ((if eneg then - ex else ex) - nf), r5)
        else Some (Num.of_decimal neg m (- nf), r2)
    end.

Fixpoint drop (n : nat) (s : string) : string :=
  match n, s with
  | S k, String _ r => drop k r
  | _, _ => s
  end.

Definition keyword (kw : string) (v : JsValue) (s : string) : result JsValue :=
  if String.prefix kw s then Ok v (drop (String.length kw) s) else Bad.

(** *** Values *)

(** [value] reads one JSON value (after optional white space);
    [elements] reads the items of an array when an item is due;
    [members] reads the members of an object when a member is due. *)
Fixpoint value (fuel : nat) (s : string) : result JsValue :=
  match fuel with
  | O => OutOfFuel
  | S f =>
      match ws s with
      | EmptyString => Bad
      | String c r =>
          let n := Str.code c in
          if n =? 123 then                                   (* { *)
            if starts_with 125 (ws r) then Ok (JObj []) (tail (ws r))
            else members f (ws r) []
          else if n =? 91 then                               (* [ *)
            if starts_with 93 (ws r) then Ok (JArr []) (tail (ws r))
            else elements f (ws r) []
          else if n =? 34 then                               (* quote *)
            match string_body r with
            | Some (t, r') => Ok (JStr t) r'
            | None => Bad
            end
          else if n =? 116 then keyword "true" (JBool true) (String c r)
          else if n =? 102 then keyword "false" (JBool false) (String c r)
          else if n =? 110 then keyword "null" JNull (String c r)
          else
            match number_literal (String c r) with
            | Some (x, r') => Ok (JNum x) r'
            | None => Bad
            end
      end
  end
with elements (fuel : nat) (s : string) (acc : list JsValue) : result JsValue :=
  match fuel with
  | O => OutOfFuel
  | S f =>
      match value f s with
      | Ok v r =>
          if starts_with 44 (ws r) then elements f (tail (ws r)) (v :: acc)      (* , *)
          else if starts_with 93 (ws r) then Ok (JArr (rev (v :: acc))) (tail (ws r))
          else Bad
      | Bad => Bad
      | OutOfFuel => OutOfFuel
      end
  end
with members (fuel : nat) (s : string) (acc : list (string * JsValue)) : result JsValue :=
  match fuel with
  | O => OutOfFuel
  | S f =>
      if starts_with 34 (ws s) then
        match string_body (tail (ws s)) with
        | Some (k, r1) =>
            if starts_with 58 (ws r1) then                                       (* : *)
              match value f (tail (ws r1)) with
              | Ok v r3 =>
                  if starts_with 44 (ws r3)
                  then members f (tail (ws r3)) (set_property acc k v)
                  else if starts_with 125 (ws r3)
                  then Ok (JObj (set_property acc k v)) (tail (ws r3))
                  else Bad
              | Bad => Bad
              | OutOfFuel => OutOfFuel
              end
            else Bad
        | None => Bad
        end
      else Bad
  end.

(** [JSON.parse(text)]: the value, or a SyntaxError. *)
Definition parse_fuel (text : string) : nat := 2 * String.length text + 1.

(** [value] never runs out of this fuel (lemma [value_fuel_enough]
    below), so every other outcome than [Ok] is a rejection. *)

Definition parse (text : string) : completion JsValue :=
  match value (parse_fuel text) text with
  | Ok v rest =>
      match ws rest with
      | EmptyString => Normal v
      | _ => Throw SyntaxError
      end
  | _ => Throw SyntaxError
  end.

End Json.

(** ** The analyzer: data model *)

Local Open Scope string_scope.
Local Open Scope Z_scope.

(** Every field the analyzer guards with [?.], [!x] or [x || default] is
    optional here: [None] is a field the API response leaves out. *)

Module Timestamp.
Record t : Type := { seconds : option string; nanos : Z }.
End Timestamp.

Module Configuration.
Record t : Type := { region : option string }.
End Configuration.

Module RunnerSpec.
Record t : Type := { configuration : option Configuration.t }.
End RunnerSpec.

Module RunnerStatus.
Record t : Type := {
  system_details : option string;
  phase : option string;
  region : option string
}.
End RunnerStatus.

Module Runner.
Record t : Type := {
  runner_id : option string;
  name : option string;
  kind : option string;
  created_at : option Timestamp.t;
  spec : option RunnerSpec.t;
  status : option RunnerStatus.t
}.
End Runner.

Module EnvironmentStatus.
Record t : Type := { phase : option string }.
End EnvironmentStatus.

Module Environment.
Record t : Type := {
  environment_id : option string;
  context_url : option string;
  runner_id : option string;
  status : option EnvironmentStatus.t
}.
End Environment.

(** [RunnerMetrics]. *)
Record RunnerMetrics : Type := {
  runnerId : string;
  name : string;
  kind : string;
  region : string;
  uptime : Num.number;
  phase : string;
  systemDetails : Json.JsValue;
  environments : list Environment.t;
  estimatedCost : option Num.number
}.

(** ** The analyzer: metrics derivation *)

(** [a || b] on an optional string: [a] when it is present and not
    empty. *)
Definition or_string (a : option string) (b : string) : string :=
  match a with
  | Some s => if Str.truthy s then s else b
  | None => b
  end.

Definition or_else (a b : option string) : option string :=
  match a with
  | Some s => if Str.truthy s then a else b
  | None => b
  end.

(** [a === b] on two optional strings. *)
Definition strict_eq (a b : option string) : bool :=
  match a, b with
  | Some x, Some y => String.eqb x y
  | None, None => true
  | _, _ => false
  end.

(** TimeClip: the time value of [new Date(t)] in milliseconds since the
    epoch, or [None] for an invalid date (whose [getTime()] is NaN). *)
Definition max_time : Z := 8640000000000000.

Definition TimeClip (t : Num.number) : option Z :=
  match t with
  | S754_nan | S754_infinity _ => None
  | S754_zero _ => Some 0
  | S754_finite s m e =>
      let n := Num.trunc_mag m e in
      let beyond :=
        if 0 <=? e then max_time <? Zpos m * 2 ^ e
        else max_time * 2 ^ (- e) <? Zpos m in
      if beyond then None else Some (if s then - n else n)
  end.

Definition msPerHour : Z := 1000 * 60 * 60.

(** [date.getTime()]: the time value, NaN for an invalid date. *)
Definition getTime (date : option Z) : Num.number :=
  match date with
  | Some t => Num.of_Z t
  | None => Num.nan
  end.

(** [calculateUptime(createdAt)], with the time value [now] of the
    [new Date()] it reads. *)
Definition calculateUptime (now : Z) (createdAt : option Timestamp.t) : Num.number :=
  match createdAt with
  | None => Num.zero
  | Some ts =>
      match Timestamp.seconds ts with
      | None => Num.zero
      | Some secs =>
          if negb (Str.truthy secs) then Num.zero
          else
            let created := TimeClip (Num.mul (Str.StringToNumber secs) (Num.of_Z 1000)) in
            Num.floor
              (Num.div (Num.sub (Num.of_Z now) (getTime created)) (Num.of_Z msPerHour))
      end
  end.

(** [parseSystemDetails(details)]. *)
Definition parseSystemDetails (details : option string) : Json.JsValue :=
  match details with
  | None => Json.JObj []
  | Some d =>
      if negb (Str.truthy d) then Json.JObj []
      else
        match Json.parse d with
        | Normal v => v
        | Throw _ => Json.JObj [("raw", Json.JStr d)]
        end
  end.

Definition status_region (runner : Runner.t) : option string :=
  match Runner.status runner with
  | Some st => RunnerStatus.region st
  | None => None
  end.

Definition spec_region (runner : Runner.t) : option string :=
  match Runner.spec runner with
  | Some sp =>
      match RunnerSpec.configuration sp with
      | Some c => Configuration.region c
      | None => None
      end
  | None => None
  end.

(** [getRegion(runner)]:
    [runner.status?.region || runner.spec?.configuration?.region || 'unknown']. *)
Definition getRegion (runner : Runner.t) : string :=
  or_string (or_else (status_region runner) (spec_region runner)) "unknown".

(** ** The analyzer: cost estimation *)

(** The table [hourlyRates]. *)
Definition hourlyRates : list (string * Num.number) :=
  [ ("t3.medium", Num.of_decimal false 416 (-4));
    ("t3.large", Num.of_decimal false 832 (-4));
    ("t3.xlarge", Num.of_decimal false 1664 (-4));
    ("default", Num.of_decimal false 416 (-4)) ].

Definition hourlyRates_default : Num.number := Num.of_decimal false 416 (-4).

(** The properties [hourlyRates] inherits from [Object.prototype]: each
    is a function, and [__proto__] answers the prototype object. *)
Definition Object_prototype_names : list string :=
  [ "constructor"; "hasOwnProperty"; "isPrototypeOf"; "propertyIsEnumerable";
    "toLocaleString"; "toString"; "valueOf"; "__proto__";
    "__defineGetter__"; "__defineSetter__"; "__lookupGetter__"; "__lookupSetter__" ].

(** What [hourlyRates[key]] can be besides [undefined]. *)
Inductive Member : Type :=
| Rate (r : Num.number)
| Inherited.

Fixpoint assoc (key : string) (table : list (string * Num.number)) : option Num.number :=
  match table with
  | [] => None
  | (k, r) :: rest => if String.eqb k key then Some r else assoc key rest
  end.

Definition hourlyRates_get (key : string) : option Member :=
  match assoc key hourlyRates with
  | Some r => Some (Rate r)
  | None =>
      if existsb (String.eqb key) Object_prototype_names then Some Inherited else None
  end.

(** ToBoolean and ToNumber of such a member: an object is truthy and (as
    a function or a plain object without numeric value) converts to NaN. *)
Definition Member_truthy (m : Member) : bool :=
  match m with Rate r => Num.truthy r | Inherited => true end.

Definition Member_ToNumber (m : Member) : Num.number :=
  match m with Rate r => r | Inherited => Num.nan end.

(** [metrics.systemDetails?.instanceType]: no value but an object has
    such a property, own or inherited. *)
Definition instanceType_of (systemDetails : Json.JsValue) : option Json.JsValue :=
  match systemDetails with
  | Json.JObj fields => Json.own_property fields "instanceType"
  | _ => None
  end.

(** [const instanceType = metrics.systemDetails?.instanceType || 'default']. *)
Definition instanceType (metrics : RunnerMetrics) : Json.JsValue :=
  match instanceType_of (systemDetails metrics) with
  | Some v => if Json.truthy v then v else Json.JStr "default"
  | None => Json.JStr "default"
  end.

(** [const hourlyRate = hourlyRates[instanceType] || hourlyRates.default],
    for the property key of [instanceType]. *)
Definition hourlyRate (key : string) : Member :=
  match hourlyRates_get key with
  | Some m => if Member_truthy m then m else Rate hourlyRates_default
  | None => Rate hourlyRates_default
  end.

(** [x || 0] on a Number. *)
Definition or_zero (x : Num.number) : Num.number :=
  if Num.truthy x then x else Num.zero.

Definition perEnvironmentRate : Num.number := Num.of_decimal false 1 (-1).

(** The metered path of [estimateCost], from [let cost] to the [return]. *)
Definition meteredCost (uptimeHours : Num.number) (environmentCount : nat) (rate : Member)
  : Num.number :=
  let cost := Num.mul uptimeHours (Member_ToNumber rate) in
  let environmentCost :=
    Num.mul (Num.mul (Num.of_Z (Z.of_nat environmentCount)) perEnvironmentRate)
      uptimeHours in
  or_zero (Str.StringToNumber (Str.toFixed (Num.add cost environmentCost) 2)).

(** [estimateCost(metrics)].  Converting [instanceType] to a property key
    is the one step that can throw. *)
Definition estimateCost (metrics : RunnerMetrics) : completion Num.number :=
  if String.eqb (kind metrics) "RUNNER_KIND_LOCAL" then Normal Num.zero
  else
    let* key := Json.ToPropertyKey (instanceType metrics) in
    Normal
      (meteredCost (uptime metrics) (List.length (environments metrics)) (hourlyRate key)).

(** [metrics.estimatedCost = cost]. *)
Definition set_estimatedCost (metrics : RunnerMetrics) (cost : Num.number) : RunnerMetrics :=
  {| runnerId := runnerId metrics;
     name := name metrics;
     kind := kind metrics;
     region := region metrics;
     uptime := uptime metrics;
     phase := phase metrics;
     systemDetails := systemDetails metrics;
     environments := environments metrics;
     estimatedCost := Some cost |}.

(** [environments.filter(env => env.runner_id === runner.runner_id)]. *)
Definition runnerEnvironments (runner : Runner.t) (envs : list Environment.t)
  : list Environment.t :=
  filter (fun env => strict_eq (Environment.runner_id env) (Runner.runner_id runner)) envs.

(** [analyzeRunner(runner, environments)], at clock reading [now]. *)
Definition analyzeRunner (now : Z) (runner : Runner.t) (envs : list Environment.t)
  : completion RunnerMetrics :=
  let hours := calculateUptime now (Runner.created_at runner) in
  let details :=
    parseSystemDetails
      match Runner.status runner with
      | Some st => RunnerStatus.system_details st
      | None => None
      end in
  let metrics :=
    {| runnerId := or_string (Runner.runner_id runner) "unknown";
       name := or_string (Runner.name runner) "Unnamed Runner";
       kind := or_string (Runner.kind runner) "unknown";
       region := getRegion runner;
       uptime := or_zero hours;
       phase :=
         or_string
           match Runner.status runner with
           | Some st => RunnerStatus.phase st
           | None => None
           end "unknown";
       systemDetails := details;
       environments := runnerEnvironments runner envs;
       estimatedCost := None |} in
  let* cost := estimateCost metrics in
  Normal (set_estimatedCost metrics cost).

(** [runners.map(r => this.analyzeRunner(r, environments))] under
    [Promise.all]: the records in the order of the runners, or the first
    exception.  [clock i] is the time value the call for runner number
    [i] reads. *)
Fixpoint analyzeRunners (clock : nat -> Z) (i : nat) (runners : list Runner.t)
    (envs : list Environment.t) : completion (list RunnerMetrics) :=
  match runners with
  | [] => Normal []
  | r :: rest =>
      let* m := analyzeRunner (clock i) r envs in
      let* ms := analyzeRunners clock (S i) rest envs in
      Normal (m :: ms)
  end.

(** ** The analyzer: report *)

Definition nl : string := String "010" "".

Definition cost_or_zero (m : RunnerMetrics) : Num.number :=
  match estimatedCost m with
  | Some c => or_zero c
  | None => Num.zero
  end.

Definition is_kind (k : string) (m : RunnerMetrics) : bool := String.eqb (kind m) k.

Definition sum_costs (metrics : list RunnerMetrics) : Num.number :=
  fold_left (fun sum m => Num.add sum (cost_or_zero m)) metrics Num.zero.

(** The constants computed at the head of [generateMarkdownReport]. *)
Definition totalCost (metrics : list RunnerMetrics) : Num.number := sum_costs metrics.

Definition remoteCount (metrics : list RunnerMetrics) : nat :=
  List.length (filter (is_kind "RUNNER_KIND_REMOTE") metrics).

Definition localCount (metrics : list RunnerMetrics) : nat :=
  List.length (filter (is_kind "RUNNER_KIND_LOCAL") metrics).

Definition totalEnvironments (metrics : list RunnerMetrics) : nat :=
  fold_left (fun sum m => (sum + List.length (environments m))%nat) metrics O.

Definition show_nat (n : nat) : string := Str.decimal_digits (Z.of_nat n).

(** The Summary section of the report. *)
Definition summarySection (metrics : list RunnerMetrics) : string :=
  ("## Summary" ++ nl
   ++ "- Total Runners: " ++ show_nat (List.length metrics) ++ nl
   ++ "  - Remote Runners: " ++ show_nat (remoteCount metrics) ++ nl
   ++ "  - Local Runners: " ++ show_nat (localCount metrics) ++ nl
   ++ "- Total Active Environments: " ++ show_nat (totalEnvironments metrics) ++ nl
   ++ "- Total Estimated Cost: $" ++ Str.toFixed (totalCost metrics) 2 ++ nl)%string.

(** The Cost Analysis section. *)
Definition costAnalysisSection (metrics : list RunnerMetrics) : string :=
  ("## Cost Analysis" ++ nl
   ++ "- Remote Runner Costs: $"
   ++ Str.toFixed (sum_costs (filter (is_kind "RUNNER_KIND_REMOTE") metrics)) 2 ++ nl
   ++ "- Environment Costs: $"
   ++ Str.toFixed
        (Num.mul (Num.of_Z (Z.of_nat (totalEnvironments metrics))) perEnvironmentRate) 2
   ++ "/hour" ++ nl)%string.

(** The four recommendation rules. *)
Definition is_inactive (m : RunnerMetrics) : bool :=
  String.eqb (phase m) "RUNNER_PHASE_INACTIVE".

Definition is_highUptime (m : RunnerMetrics) : bool := Num.gt (uptime m) (Num.of_Z 168).

Definition is_empty (m : RunnerMetrics) : bool :=
  Nat.eqb (List.length (environments m)) 0 && Num.gt (uptime m) (Num.of_Z 24).

Definition is_highCost (m : RunnerMetrics) : bool :=
  Num.gt (cost_or_zero m) (Num.of_Z 100).

Definition inactiveRunners := filter is_inactive.
Definition highUptimeRunners := filter is_highUptime.
Definition emptyRunners := filter is_empty.
Definition highCostRunners := filter is_highCost.

(** The four bullets, for a count [n] of matching records. *)
Definition inactiveBullet (n : nat) : string :=
  ("- ðŸ”´ Clean up " ++ show_nat n ++ " inactive runners" ++ nl)%string.

Definition highUptimeBullet (n : nat) : string :=
  ("- ðŸŸ¡ Review " ++ show_nat n ++ " runners with high uptime (>1 week)" ++ nl)%string.

Definition emptyBullet (n : nat) : string :=
  ("- ðŸŸ¡ Consider removing " ++ show_nat n ++ " runners with no environments (>24h uptime)" ++ nl)%string.

Definition highCostBullet (n : nat) : string :=
  ("- ðŸ”´ Investigate " ++ show_nat n ++ " high-cost runners (>$100)" ++ nl)%string.

(** [if (matched.length > 0) { markdown += bullet }]. *)
Definition when_any (matched : list RunnerMetrics) (bullet : nat -> string) : string :=
  if (0 <? List.length matched)%nat then bullet (List.length matched) else "".

(** The Recommendations section. *)
Definition recommendationsSection (metrics : list RunnerMetrics) : string :=
  (nl ++ "## Recommendations" ++ nl
   ++ when_any (inactiveRunners metrics) inactiveBullet
   ++ when_any (highUptimeRunners metrics) highUptimeBullet
   ++ when_any (emptyRunners metrics) emptyBullet
   ++ when_any (highCostRunners metrics) highCostBullet)%string.

(** ** Example records *)

Definition dq : string := String "034" "".

(** The text [{"instanceType":"<name>"}]. *)
Definition details_of (instance : string) : string :=
  ("{" ++ dq ++ "instanceType" ++ dq ++ ":" ++ dq ++ instance ++ dq ++ "}")%string.

Definition stamp (secs : string) : option Timestamp.t :=
  Some {| Timestamp.seconds := Some secs; Timestamp.nanos := 0 |}.

Definition environment_on (id runner : string) : Environment.t :=
  {| Environment.environment_id := Some id;
     Environment.context_url := None;
     Environment.runner_id := Some runner;
     Environment.status := Some {| EnvironmentStatus.phase := Some "ENVIRONMENT_PHASE_RUNNING" |} |}.

(** A runner with a live region and a configured region. *)
Definition runner_two_regions : Runner.t :=
  {| Runner.runner_id := Some "r-1";
     Runner.name := Some "builder";
     Runner.kind := Some "RUNNER_KIND_REMOTE";
     Runner.created_at := stamp "0";
     Runner.spec :=
       Some {| RunnerSpec.configuration := Some {| Configuration.region := Some "eu-west" |} |};
     Runner.status :=
       Some {| RunnerStatus.system_details := Some (details_of "t3.large");
               RunnerStatus.phase := Some "RUNNER_PHASE_ACTIVE";
               RunnerStatus.region := Some "us-east" |} |}.

Definition runner_local : Runner.t :=
  {| Runner.runner_id := Some "r-2";
     Runner.name := Some "laptop";
     Runner.kind := Some "RUNNER_KIND_LOCAL";
     Runner.created_at := stamp "18000";
     Runner.spec := None;
     Runner.status := None |}.

Definition metrics_of (k : string) (hours : Z) (details : Json.JsValue)
    (envs : list Environment.t) : RunnerMetrics :=
  {| runnerId := "r";
     name := "runner";
     kind := k;
     region := "unknown";
     uptime := Num.of_Z hours;
     phase := "RUNNER_PHASE_ACTIVE";
     systemDetails := details;
     environments := envs;
     estimatedCost := None |}.

Definition set_kind (k : string) (m : RunnerMetrics) : RunnerMetrics :=
  {| runnerId := runnerId m;
     name := name m;
     kind := k;
     region := region m;
     uptime := uptime m;
     phase := phase m;
     systemDetails := systemDetails m;
     environments := environments m;
     estimatedCost := estimatedCost m |}.

(** The fallback structure [{raw: details}]. *)
Definition wrapped_raw (details : string) : Json.JsValue :=
  Json.JObj [("raw", Json.JStr details)].

(** A field is absent when it is left out or holds the empty string. *)
Definition absent (field : option string) : Prop :=
  field = None \/ field = Some "".

(** ** Definitions used in the statements *)

(** The time value [new Date(Number(secs) * 1000).getTime()]. *)
Definition created_time (secs : string) : option Z :=
  TimeClip (Num.mul (Str.StringToNumber secs) (Num.of_Z 1000)).

(** The clock reading 2024-10-27T03:33:20Z and a runner created five
    hours after it. *)
Definition now_2024 : Z := 1730000000000.

Definition runner_future : Runner.t :=
  {| Runner.runner_id := Some "r-3";
     Runner.name := Some "skewed";
     Runner.kind := Some "RUNNER_KIND_REMOTE";
     Runner.created_at := stamp "1730018000";
     Runner.spec := None;
     Runner.status := None |}.

(** [matches env runner]: the filter test of [analyzeRunner]. *)
Definition matches (env : Environment.t) (runner : Runner.t) : bool :=
  strict_eq (Environment.runner_id env) (Runner.runner_id runner).

Definition matches_some (runners : list Runner.t) (env : Environment.t) : bool :=
  existsb (matches env) runners.

Definition example_environments : list Environment.t :=
  [ environment_on "e-1" "r-1"; environment_on "e-2" "r-9";
    environment_on "e-3" "r-1" ].

Definition ten_hours_after_epoch : nat -> Z := fun _ => 36000000.

(** The number of records of a list that satisfy a rule. *)
Fixpoint count_matching (rule : RunnerMetrics -> bool) (metrics : list RunnerMetrics) : nat :=
  match metrics with
  | [] => 0
  | m :: rest => ((if rule m then 1 else 0) + count_matching rule rest)%nat
  end.


(** The record of the claim: inactive, up for 200 hours, no environment,
    cost 150. *)
Definition idle_costly : RunnerMetrics :=
  {| runnerId := "r-7";
     name := "forgotten";
     kind := "RUNNER_KIND_REMOTE";
     region := "us-east";
     uptime := Num.of_Z 200;
     phase := "RUNNER_PHASE_INACTIVE";
     systemDetails := Json.JObj [];
     environments := [];
     estimatedCost := Some (Num.of_Z 150) |}.

(** System details whose instance type is an object with an own
    [toString] property. *)
Definition details_toString : Json.JsValue :=
  Json.JObj [("instanceType", Json.JObj [("toString", Json.JNull)])].

(** The largest uptime, in hours, between two time values
    (2 * 8.64e15 ms / 3.6e6 ms). *)
Definition max_uptime : Z := 4800000000.

Definition sign_of (z : Z) : bool := z <? 0.

(** A value that is a zero, or finite with sign [s] and magnitude below
    [2^K]. *)
Definition within (s : bool) (K : Z) (x : Num.number) : Prop :=
  match x with
  | S754_zero _ => True
  | S754_finite s' m e => s' = s /\ Zpos (digits2_pos m) + e <= K
  | _ => False
  end.

Fixpoint all_chars (p : ascii -> bool) (s : string) : bool :=
  match s with
  | EmptyString => true
  | String c r => p c && all_chars p r
  end.

(** The value of a digit string read from the left onto [acc]. *)
Fixpoint dval (s : string) (acc : Z) : Z :=
  match s with
  | EmptyString => acc
  | String c r => dval r (10 * acc + (Str.code c - 48))
  end.

(** The characters [-], [.], [/] and the digits. *)
Definition is_plain (c : ascii) : bool := (45 <=? Str.code c) && (Str.code c <=? 57).

(** What a run of digits may be followed by. *)
Definition stops (rest : string) : Prop :=
  match rest with
  | EmptyString => True
  | String c _ => Str.digit_value 10 c = None
  end.

(** The canonical binary64 form of an integer [0 < V < 2^53] with sign [s]. *)
Definition canon (s : bool) (V : Z) : Num.number :=
  S754_finite s (Z.to_pos (V * 2 ^ (53 - Zdigits2 V))) (Zdigits2 V - 53).

(** [(m, l)] locates the quotient [A / B]: [m] is its integer part and
    [l] tells where its fractional part lies with respect to one half. *)
Definition locates (m : Z) (l : location) (A B : Z) : Prop :=
  m = A / B
  /\ match l with
     | loc_Exact => A mod B = 0
     | loc_Inexact c => A mod B <> 0 /\ (2 * (A mod B) ?= B) = c
     end.

(** The end of the year 9999, as a time value. *)
Definition max_clock : Z := 253402300799999.

(** ** [JSON.stringify(value, null, 2)] (ECMA-262, 25.5.2) *)

Module Stringify.

Definition hex_digit (n : Z) : ascii :=
  if n <? 10 then Str.chr (48 + n) else Str.chr (87 + n).

(** UnicodeEscape: a backslash, [u] and four lowercase hexadecimal
    digits. *)
Definition UnicodeEscape (cu : Z) : string :=
  String "\" (String "u"
    (String (hex_digit (cu / 4096))
       (String (hex_digit ((cu / 256) mod 16))
          (String (hex_digit ((cu / 16) mod 16))
             (String (hex_digit (cu mod 16)) ""))))).

(** The two-character escape of a character, for the characters that
    have one. *)
Definition short_escape (n : Z) : option ascii :=
  if n =? 8 then Some "b"%char
  else if n =? 9 then Some "t"%char
  else if n =? 10 then Some "n"%char
  else if n =? 12 then Some "f"%char
  else if n =? 13 then Some "r"%char
  else if n =? 34 then Some (Str.chr 34)
  else if n =? 92 then Some "\"%char
  else None.

(** The three bytes [237, b, c] with [160 <= b] encode the surrogate
    code unit [0xD000 + (b - 128) * 64 + (c - 128)], which stands alone
    (a pair is one code point and has a four-byte encoding). *)
Definition lone_surrogate (b c : ascii) : option Z :=
  if (160 <=? Str.code b) && (Str.code b <=? 191)
     && (128 <=? Str.code c) && (Str.code c <=? 191)
  then Some (53248 + (Str.code b - 128) * 64 + (Str.code c - 128))
  else None.

(** The characters of QuoteJSONString between the quotes. *)
Fixpoint quoted (s : string) : string :=
  match s with
  | EmptyString => ""
  | String c r =>
      let n := Str.code c in
      match short_escape n with
      | Some e => String "\" (String e (quoted r))
      | None =>
          if n <? 32 then UnicodeEscape n ++ quoted r
          else if n =? 237 then
            match r with
            | String b (String c' r') =>
                match lone_surrogate b c' with
                | Some cu => UnicodeEscape cu ++ quoted r'
                | None => String c (quoted r)
                end
            | _ => String c (quoted r)
            end
          else String c (quoted r)
      end
  end.

Definition QuoteJSONString (s : string) : string := dq ++ quoted s ++ dq.

(** An array index: the canonical decimal form of an integer from 0 to
    2^32 - 2. *)
Definition array_index (key : string) : option Z :=
  match key with
  | EmptyString => None
  | String c r =>
      if all_chars Str.is_digit key
         && (Nat.leb (String.length key) 10)
         && (negb (Str.code c =? 48) || negb (Str.truthy r))
      then
        let '(n, _, _) := Str.scan_digits key 0 0 in
        if n <=? 4294967294 then Some n else None
      else None
  end.

(** The properties of an object in the order of OrdinaryOwnPropertyKeys:
    those whose key is an array index, by ascending index, then the
    others in creation order. *)
Fixpoint insert_index {A : Type} (i : Z) (p : string * A) (l : list (Z * (string * A)))
  : list (Z * (string * A)) :=
  match l with
  | [] => [(i, p)]
  | (j, q) :: r => if i <? j then (i, p) :: l else (j, q) :: insert_index i p r
  end.

Fixpoint index_properties {A : Type} (fields : list (string * A)) : list (Z * (string * A)) :=
  match fields with
  | [] => []
  | p :: r =>
      match array_index (fst p) with
      | Some i => insert_index i p (index_properties r)
      | None => index_properties r
      end
  end.

Definition named (key : string) : bool :=
  match array_index key with Some _ => false | None => true end.

Definition EnumerableOwnProperties {A : Type} (fields : list (string * A)) : list (string * A) :=
  map snd (index_properties fields) ++ filter (fun p => named (fst p)) fields.

(** The gap of [JSON.stringify(value, null, 2)]. *)
Definition gap : string := "  ".

Definition separator (indent : string) : string := "," ++ nl ++ indent.

(** SerializeJSONProperty on a value [JSON.parse] can produce, at
    indentation [indent]: no value is [undefined], callable or cyclic,
    and none has a callable [toJSON].  As in ECMA-262 the recursion has
    no bound: an engine that runs out of call stack on deeply nested
    values throws a RangeError instead, and that is outside this model. *)
Fixpoint SerializeJSONProperty (indent : string) (v : Json.JsValue) : string :=
  match v with
  | Json.JNull => "null"
  | Json.JBool b => if b then "true" else "false"
  | Json.JNum x => if Num.isFinite x then Str.Number_toString x else "null"
  | Json.JStr s => QuoteJSONString s
  | Json.JArr items =>
      let stepback := indent in
      let indent := stepback ++ gap in
      match map (SerializeJSONProperty indent) items with
      | [] => "[]"
      | partial =>
          "[" ++ nl ++ indent ++ String.concat (separator indent) partial
            ++ nl ++ stepback ++ "]"
      end
  | Json.JObj fields =>
      let stepback := indent in
      let indent := stepback ++ gap in
      let members :=
        map (fun p => (fst p, SerializeJSONProperty indent (snd p))) fields in
      match
        map (fun p => QuoteJSONString (fst p) ++ ": " ++ snd p)
          (EnumerableOwnProperties members)
      with
      | [] => "{}"
      | partial =>
          "{" ++ nl ++ indent ++ String.concat (separator indent) partial
            ++ nl ++ stepback ++ "}"
      end
  end.

Definition JSON_stringify (v : Json.JsValue) : string := SerializeJSONProperty "" v.

End Stringify.

(** ** The analyzer: the rest of the report *)

(** [m.estimatedCost?.toFixed(2) || '0.00']. *)
Definition costCell (m : RunnerMetrics) : string :=
  match estimatedCost m with
  | Some c => let s := Str.toFixed c 2 in if Str.truthy s then s else "0.00"
  | None => "0.00"
  end.

(** A row of the table Runner Details. *)
Definition runnerRow (m : RunnerMetrics) : string :=
  "| " ++ name m ++ " | " ++ kind m ++ " | " ++ region m ++ " | " ++ phase m
    ++ " | " ++ show_nat (List.length (environments m))
    ++ " | " ++ Str.Number_toString (uptime m)
    ++ " | " ++ costCell m ++ " |".

Definition runnerDetailsSection (metrics : list RunnerMetrics) : string :=
  "## Runner Details" ++ nl
    ++ nl
    ++ "| Name | Type | Region | Phase | Environments | Uptime (hrs) | Est. Cost ($) |" ++ nl
    ++ "|------|------|--------|-------|--------------|--------------|---------------|" ++ nl
    ++ String.concat nl (map runnerRow metrics) ++ nl.

(** [env.status?.phase]. *)
Definition environment_phase (env : Environment.t) : option string :=
  match Environment.status env with
  | Some st => EnvironmentStatus.phase st
  | None => None
  end.

(** A row of a runner's table of environments. *)
Definition environmentRow (env : Environment.t) : string :=
  "| " ++ or_string (Environment.environment_id env) "N/A"
    ++ " | " ++ or_string (Environment.context_url env) "N/A"
    ++ " | " ++ or_string (environment_phase env) "N/A" ++ " |".

(** [m.environments.length > 0]. *)
Definition has_environments (m : RunnerMetrics) : bool :=
  (0 <? List.length (environments m))%nat.

(** What the Environment Distribution loop appends for one record. *)
Definition environmentsBlock (m : RunnerMetrics) : string :=
  nl ++ "### " ++ name m ++ " (" ++ runnerId m ++ ")" ++ nl
    ++ "Total Environments: " ++ show_nat (List.length (environments m)) ++ nl
    ++ nl
    ++ "| Environment ID | Context URL | Status |" ++ nl
    ++ "|---------------|-------------|---------|" ++ nl
    ++ String.concat nl (map environmentRow (environments m)) ++ nl.

Definition environmentDistributionSection (metrics : list RunnerMetrics) : string :=
  "## Environment Distribution" ++ nl
    ++ String.concat "" (map environmentsBlock (filter has_environments metrics)).

(** What the System Details loop appends for one record. *)
Definition systemDetailsBlock (m : RunnerMetrics) : string :=
  nl ++ "### " ++ name m ++ " (" ++ runnerId m ++ ")" ++ nl
    ++ "- **Type:** " ++ kind m ++ nl
    ++ "- **Region:** " ++ region m ++ nl
    ++ "- **Phase:** " ++ phase m ++ nl
    ++ "- **Active Environments:** " ++ show_nat (List.length (environments m)) ++ nl
    ++ "- **Uptime:** " ++ Str.Number_toString (uptime m) ++ " hours" ++ nl
    ++ "- **System Details:**" ++ nl
    ++ "```json" ++ nl
    ++ Stringify.JSON_stringify (systemDetails m) ++ nl
    ++ "```" ++ nl.

Definition systemDetailsSection (metrics : list RunnerMetrics) : string :=
  nl ++ "## System Details" ++ nl
    ++ String.concat "" (map systemDetailsBlock metrics).

(** [generateMarkdownReport(metrics)]; [timestamp] is what date-fns'
    [format(new Date(), 'yyyy-MM-dd HH:mm:ss')] answers. *)
Definition generateMarkdownReport (timestamp : string) (metrics : list RunnerMetrics)
  : string :=
  "# Gitpod Resource Usage Report" ++ nl
    ++ "Generated: " ++ timestamp ++ nl
    ++ nl
    ++ summarySection metrics
    ++ nl
    ++ costAnalysisSection metrics
    ++ nl
    ++ runnerDetailsSection metrics
    ++ nl
    ++ environmentDistributionSection metrics
    ++ systemDetailsSection metrics
    ++ recommendationsSection metrics.

(** ** The analyzer: requests, console and file system *)

(** What a [catch] clause can receive: an exception of the analyzer's own
    code, or an error raised by axios or by [fs]. *)
Inductive Exception : Type :=
| JsException (e : JsError)
| HostError (message : string).

(** A request [this.client.post(path, body)] of the axios instance the
    constructor creates. *)
Record Request : Type := {
  baseURL : string;
  path : string;
  Authorization : string;
  Content_Type : string;
  organization_id : string;
  page_size : Z
}.

(** What a run does to the world around it, in order. *)
Inductive Event : Type :=
| ConsoleLog (text : string)
| ConsoleError (text : string) (error : option Exception)
| Post (request : Request)
| WriteFileSync (file : string) (data : string)
| ProcessExit (code : Z).

(** An answer of the API: [dump] is [JSON.stringify(response.data, null, 2)]
    and [items] the array [response.data.runners] (or [.environments]),
    [None] when the answer has no such property or a falsy one. *)
Record Response (A : Type) : Type := {
  dump : string;
  items : option (list A)
}.

Arguments dump {A} r.
Arguments items {A} r.

Inductive Reply (A : Type) : Type :=
| Answered (response : Response A)
| Rejected (message : string).

Arguments Answered {A} response.
Arguments Rejected {A} message.

(** The world of one run: the clock ([clock i] is its reading number
    [i]), date-fns' [format(date, 'yyyy-MM-dd HH:mm:ss')] as a function of
    the time value, the two replies of the API, and [fs.writeFileSync]
    ([Some message] when it throws). *)
Record World : Type := {
  clock : nat -> Z;
  format : Z -> string;
  ListRunners : Reply Runner.t;
  ListEnvironments : Reply Environment.t;
  writeFileSync : string -> string -> option string
}.

(** A computation with effects: its events, and its value or the
    exception it ends with. *)
Inductive Outcome (A : Type) : Type :=
| Returned (a : A)
| Raised (e : Exception).

Arguments Returned {A} a.
Arguments Raised {A} e.

Definition Run (A : Type) : Type := list Event * Outcome A.

Definition ret {A : Type} (a : A) : Run A := ([], Returned a).

Definition raise {A : Type} (e : Exception) : Run A := ([], Raised e).

Definition emit (ev : Event) : Run unit := ([ev], Returned tt).

Definition then_ {A B : Type} (r : Run A) (k : A -> Run B) : Run B :=
  match r with
  | (t, Returned a) => let '(t', o) := k a in ((t ++ t')%list, o)
  | (t, Raised e) => (t, Raised e)
  end.

Notation "'let!' x ':=' r 'in' k" := (then_ r (fun x => k))
  (at level 10, x name, r at level 100, k at level 200).
Notation "r ';;' k" := (then_ r (fun _ => k))
  (at level 61, right associativity).

(** [try { body } catch (error) { console.error(text, error); throw error; }]. *)
Definition logged {A : Type} (text : string) (body : Run A) : Run A :=
  match body with
  | (t, Raised e) => ((t ++ [ConsoleError text (Some e)])%list, Raised e)
  | _ => body
  end.

Definition of_completion {A : Type} (c : completion A) : Run A :=
  match c with
  | Normal a => ret a
  | Throw e => raise (JsException e)
  end.

(** [x || []]. *)
Definition or_empty {A : Type} (l : option (list A)) : list A :=
  match l with
  | Some l => l
  | None => []
  end.

(** The analyzer object: the fields the constructor sets. *)
Record GitpodResourceAnalyzer : Type := {
  pat : string;
  organizationId : string;
  baseUrl : string
}.

(** [new GitpodResourceAnalyzer(pat, organizationId)], with the default
    [baseUrl]. *)
Definition new_analyzer (pat organizationId : string) : GitpodResourceAnalyzer :=
  {| pat := pat;
     organizationId := organizationId;
     baseUrl := "https://app.gitpod.io/api" |}.

(** The two services the analyzer calls. *)
Definition runners_path : string := "/gitpod.v1.RunnerService/ListRunners".

Definition environments_path : string := "/gitpod.v1.EnvironmentService/ListEnvironments".

(** The request both listings send, up to its path. *)
Definition list_request (a : GitpodResourceAnalyzer) (path : string) : Request :=
  {| baseURL := baseUrl a;
     path := path;
     Authorization := "Bearer " ++ pat a;
     Content_Type := "application/json";
     organization_id := organizationId a;
     page_size := 100 |}.

(** [await this.client.post(...)]: the request goes out, and the reply
    is awaited; a rejection is thrown. *)
Definition post {A : Type} (request : Request) (reply : Reply A) : Run (Response A) :=
  emit (Post request) ;;
  match reply with
  | Answered response => ret response
  | Rejected message => raise (HostError message)
  end.

(** [listRunners()]. *)
Definition listRunners (a : GitpodResourceAnalyzer) (w : World) : Run (list Runner.t) :=
  logged "Error fetching runners:"
    (emit (ConsoleLog "Calling ListRunners API...") ;;
     let! response := post (list_request a runners_path) (ListRunners w) in
     emit (ConsoleLog ("ListRunners Response: " ++ dump response)) ;;
     ret (or_empty (items response))).

(** [listEnvironments()]. *)
Definition listEnvironments (a : GitpodResourceAnalyzer) (w : World)
  : Run (list Environment.t) :=
  logged "Error fetching environments:"
    (emit (ConsoleLog "Calling ListEnvironments API...") ;;
     let! response := post (list_request a environments_path) (ListEnvironments w) in
     emit (ConsoleLog ("ListEnvironments Response: " ++ dump response)) ;;
     ret (or_empty (items response))).

(** [fs.writeFileSync(file, data)]. *)
Definition write (w : World) (file data : string) : Run unit :=
  emit (WriteFileSync file data) ;;
  match writeFileSync w file data with
  | Some message => raise (HostError message)
  | None => ret tt
  end.

(** The method [generateResourceReport(outputPath)].  The calls of
    [analyzeRunner] read the clock first, one reading each, and
    [generateMarkdownReport] takes the next reading. *)
Definition generateResourceReport_at (a : GitpodResourceAnalyzer) (w : World)
    (outputPath : string) : Run unit :=
  logged "Error generating report:"
    (emit (ConsoleLog ("Analyzing resources for organization: " ++ organizationId a)) ;;
     emit (ConsoleLog "Fetching runners...") ;;
     let! runners := listRunners a w in
     emit (ConsoleLog "Fetching environments...") ;;
     let! environments := listEnvironments a w in
     emit (ConsoleLog "Analyzing resources...") ;;
     let! metrics := of_completion (analyzeRunners (clock w) 0 runners environments) in
     emit (ConsoleLog "Generating report...") ;;
     let report :=
       generateMarkdownReport (format w (clock w (List.length runners))) metrics in
     write w outputPath report ;;
     emit (ConsoleLog ("Report generated successfully at: " ++ outputPath))).

Definition default_outputPath : string := "./gitpod-resource-report.md".

(** The exported [generateResourceReport(pat, organizationId)]. *)
Definition generateResourceReport (pat organizationId : string) (w : World) : Run unit :=
  generateResourceReport_at (new_analyzer pat organizationId) w default_outputPath.

(** The environment variables the script reads; [None] is an unset
    variable. *)
Record ProcessEnv : Type := {
  GITPOD_PAT : option string;
  GITPOD_ORG_ID : option string
}.

(** An environment variable that passes the test [if (!x)]: set, and
    not empty. *)
Definition provided (x : option string) : option string :=
  match x with
  | Some s => if Str.truthy s then Some s else None
  | None => None
  end.

(** The script run directly ([require.main === module]): its events, the
    last of which is [ProcessExit 1] when it calls [process.exit(1)]. *)
Definition main (env : ProcessEnv) (w : World) : list Event :=
  match provided (GITPOD_PAT env) with
  | None => [ConsoleError "Please set GITPOD_PAT environment variable" None; ProcessExit 1]
  | Some pat =>
      match provided (GITPOD_ORG_ID env) with
      | None =>
          [ConsoleError "Please set GITPOD_ORG_ID environment variable" None; ProcessExit 1]
      | Some organizationId =>
          match generateResourceReport pat organizationId w with
          | (t, Returned _) => (t ++ [ConsoleLog "Report generation completed"])%list
          | (t, Raised e) => (t ++ [ConsoleError "Error:" (Some e); ProcessExit 1])%list
          end
      end
  end.

(** ** Definitions used in the statements about the report and the run *)

(** The files a run writes, the requests it sends and the exit codes it
    asks for, in order. *)
Definition writes (t : list Event) : list (string * string) :=
  flat_map (fun ev => match ev with WriteFileSync f d => [(f, d)] | _ => [] end) t.

Definition posts (t : list Event) : list Request :=
  flat_map (fun ev => match ev with Post r => [r] | _ => [] end) t.

Definition exits (t : list Event) : list Z :=
  flat_map (fun ev => match ev with ProcessExit c => [c] | _ => [] end) t.

Definition errors (t : list Event) : list (string * option Exception) :=
  flat_map (fun ev => match ev with ConsoleError s e => [(s, e)] | _ => [] end) t.

(** What the run has to go by: both listings answered and every runner
    analyzed. *)
Definition derived_metrics (w : World) : option (list RunnerMetrics) :=
  match ListRunners w, ListEnvironments w with
  | Answered rr, Answered re =>
      match analyzeRunners (clock w) 0 (or_empty (items rr)) (or_empty (items re)) with
      | Normal ms => Some ms
      | Throw _ => None
      end
  | _, _ => None
  end.

Definition listed_runners (w : World) : list Runner.t :=
  match ListRunners w with
  | Answered rr => or_empty (items rr)
  | Rejected _ => []
  end.

Definition listed_environments (w : World) : list Environment.t :=
  match ListEnvironments w with
  | Answered re => or_empty (items re)
  | Rejected _ => []
  end.

(** A runner whose system details hold an instance type with an own
    [toString] property, and a world that answers both listings. *)
Definition runner_broken : Runner.t :=
  {| Runner.runner_id := Some "r-4";
     Runner.name := Some "broken";
     Runner.kind := Some "RUNNER_KIND_REMOTE";
     Runner.created_at := stamp "0";
     Runner.spec := None;
     Runner.status :=
       Some {| RunnerStatus.system_details :=
                 Some ("{" ++ dq ++ "instanceType" ++ dq ++ ":{" ++ dq ++ "toString" ++ dq
                        ++ ":null}}");
               RunnerStatus.phase := None;
               RunnerStatus.region := None |} |}.

Definition world_of (runners : list Runner.t) (environments : list Environment.t) : World :=
  {| clock := fun _ => 36000000;
     format := fun _ => "1970-01-01 10:00:00";
     ListRunners := Answered {| dump := "{}"; items := Some runners |};
     ListEnvironments := Answered {| dump := "{}"; items := Some environments |};
     writeFileSync := fun _ _ => None |}.

(** A string with no surrogate code point: no byte 237 is followed by a
    byte from 160 on (as in every UTF-8 text). *)
Fixpoint surrogate_free (s : string) : bool :=
  match s with
  | EmptyString => true
  | String c r =>
      negb ((Str.code c =? 237)
            && match r with
               | String b _ => 160 <=? Str.code b
               | EmptyString => false
               end)
      && surrogate_free r
  end.

(** Two Numbers that are the same value (SameValue). *)
Definition identical (x y : Num.number) : bool :=
  match x, y with
  | S754_zero s1, S754_zero s2 => Bool.eqb s1 s2
  | S754_infinity s1, S754_infinity s2 => Bool.eqb s1 s2
  | S754_nan, S754_nan => true
  | S754_finite _ _ _, S754_finite _ _ _ => Str.same_number x y
  | _, _ => false
  end.

(** A Number whose printed form, read as a JSON number, is that Number
    again. *)
Definition reads_back (x : Num.number) : bool :=
  Num.isFinite x
  && match Json.number_literal (Str.Number_toString x) with
     | Some (y, EmptyString) => identical y x
     | _ => false
     end.

Fixpoint distinct (keys : list string) : bool :=
  match keys with
  | [] => true
  | k :: r => negb (existsb (String.eqb k) r) && distinct r
  end.

(** A value as [JSON.parse] produces them (the keys of an object are
    pairwise distinct) whose strings hold no surrogate code point and
    whose Numbers read back. *)
Fixpoint printable (v : Json.JsValue) : bool :=
  match v with
  | Json.JNull | Json.JBool _ => true
  | Json.JNum x => reads_back x
  | Json.JStr s => surrogate_free s
  | Json.JArr items => forallb printable items
  | Json.JObj fields =>
      distinct (map fst fields)
      && forallb (fun p => surrogate_free (fst p) && printable (snd p)) fields
  end.

(** The value with the properties of every object in the order in which
    they are enumerated. *)
Fixpoint enumerated (v : Json.JsValue) : Json.JsValue :=
  match v with
  | Json.JArr items => Json.JArr (map enumerated items)
  | Json.JObj fields =>
      Json.JObj
        (Stringify.EnumerableOwnProperties
           (map (fun p => (fst p, enumerated (snd p))) fields))
  | _ => v
  end.

(** What can follow a value in printed JSON: nothing, a comma or a line
    feed. *)
Definition delimited (rest : string) : Prop :=
  match rest with
  | EmptyString => True
  | String c _ => Str.code c = 44 \/ Str.code c = 10
  end.

(** [value] reads [v] off the front of [s] and leaves [rest], given
    enough fuel. *)
Definition reads (s : string) (v : Json.JsValue) (rest : string) : Prop :=
  exists F, forall f, (F <= f)%nat -> Json.value f s = Json.Ok v rest.

Definition opens_value (s : string) : Prop :=
  exists c t, s = String c t /\ Json.is_ws c = false /\ Str.code c <> 93.

(** The text of one member of an object. *)
Definition member_text (indent : string) (p : string * Json.JsValue) : string :=
  Stringify.QuoteJSONString (fst p) ++ ": " ++ Stringify.SerializeJSONProperty indent (snd p).

Definition enumerated_member (p : string * Json.JsValue) : string * Json.JsValue :=
  (fst p, enumerated (snd p)).


(** ** Definitions used in the statements about the numbers of the report *)

(** The largest number of seconds whose thousandfold is a time value. *)
Definition max_seconds : Z := 8640000000000.

(** An integer in decimal, with a minus sign when it is negative. *)
Definition signed_decimal (z : Z) : string :=
  (if z <? 0 then "-" else "") ++ Str.decimal_digits (Z.abs z).

(** [n] tenths, written with two decimals. *)
Definition tenths (n : Z) : string :=
  Str.decimal_digits (n / 10) ++ "." ++ Str.decimal_digits (n mod 10) ++ "0".

(** * Supporting lemmas *)

(** ** Binary64 arithmetic: signs and magnitudes *)

Lemma digits2_size (p : positive) : digits2_pos p = Pos.size p.
Proof.
  induction p as [p IH | p IH |]; simpl; try rewrite IH; reflexivity.
Qed.

Lemma Zdigits2_nonneg (m : Z) : 0 <= Zdigits2 m.
Proof. destruct m; simpl; lia. Qed.

Lemma Zpos_lt_pow_digits (p : positive) : Zpos p < 2 ^ Zpos (digits2_pos p).
Proof.
  rewrite digits2_size.
  pose proof (Pos.size_gt p) as H.
  apply Pos2Z.pos_lt_pos in H. rewrite Pos2Z.inj_pow in H. exact H.
Qed.

Lemma pow_digits_le_double (p : positive) : 2 ^ Zpos (digits2_pos p) <= 2 * Zpos p.
Proof.
  rewrite digits2_size.
  pose proof (Pos.size_le p) as H.
  apply Pos2Z.pos_le_pos in H. rewrite Pos2Z.inj_pow in H. exact H.
Qed.

(** [m] has at most [k] binary digits exactly when [m < 2^k]. *)
Lemma Zdigits2_le_iff (m k : Z) : 0 <= m -> 0 <= k -> (Zdigits2 m <= k <-> m < 2 ^ k).
Proof.
  intros Hm Hk. destruct m as [| p | p]; [| | lia].
  - simpl. split; [intros _; apply Z.pow_pos_nonneg; lia | lia].
  - simpl. pose proof (Zpos_lt_pow_digits p) as Hlt.
    pose proof (pow_digits_le_double p) as Hle.
    split; intros H.
    + eapply Z.lt_le_trans; [exact Hlt |]. apply Z.pow_le_mono_r; lia.
    + destruct (Z_le_gt_dec (Zpos (digits2_pos p)) k) as [Hd | Hd]; [exact Hd |].
      exfalso.
      assert (Hp : 2 ^ (k + 1) <= 2 ^ Zpos (digits2_pos p))
        by (apply Z.pow_le_mono_r; lia).
      rewrite Z.pow_add_r in Hp by lia. change (2 ^ 1) with 2 in Hp. lia.
Qed.

Lemma Zdigits2_lt_pow (m : Z) : 0 <= m -> m < 2 ^ Zdigits2 m.
Proof.
  intros Hm. apply Zdigits2_le_iff; [exact Hm | apply Zdigits2_nonneg | lia].
Qed.

Lemma Zdigits2_mono (a b : Z) : 0 <= a <= b -> Zdigits2 a <= Zdigits2 b.
Proof.
  intros H. apply Zdigits2_le_iff; [lia | apply Zdigits2_nonneg |].
  pose proof (Zdigits2_lt_pow b). lia.
Qed.

Lemma Zdigits2_succ (m : Z) : 0 <= m -> Zdigits2 (m + 1) <= Zdigits2 m + 1.
Proof.
  intros Hm. pose proof (Zdigits2_nonneg m) as Hd.
  apply Zdigits2_le_iff; [lia | lia |].
  pose proof (Zdigits2_lt_pow m Hm) as Hlt.
  rewrite Z.pow_add_r by lia. change (2 ^ 1) with 2. lia.
Qed.

Lemma Zdigits2_mul (a b : Z) :
  0 <= a -> 0 <= b -> Zdigits2 (a * b) <= Zdigits2 a + Zdigits2 b.
Proof.
  intros Ha Hb. pose proof (Zdigits2_nonneg a). pose proof (Zdigits2_nonneg b).
  apply Zdigits2_le_iff; [nia | lia |].
  rewrite Z.pow_add_r by lia.
  pose proof (Zdigits2_lt_pow a Ha). pose proof (Zdigits2_lt_pow b Hb). nia.
Qed.

Lemma Zdigits2_div_pow2 (m n : Z) :
  0 <= m -> 0 <= n -> Zdigits2 (m / 2 ^ n) <= Z.max 0 (Zdigits2 m - n).
Proof.
  intros Hm Hn.
  pose proof (Zdigits2_nonneg m) as Hd.
  pose proof (Zdigits2_lt_pow m Hm) as Hlt.
  assert (Hpn : 0 < 2 ^ n) by (apply Z.pow_pos_nonneg; lia).
  assert (Hq : 0 <= m / 2 ^ n) by (apply Z.div_pos; lia).
  apply Zdigits2_le_iff; [exact Hq | lia |].
  apply Z.div_lt_upper_bound; [exact Hpn |].
  rewrite <- Z.pow_add_r by lia.
  eapply Z.lt_le_trans; [exact Hlt |]. apply Z.pow_le_mono_r; lia.
Qed.

(** *** Shifting right *)

Lemma iter_pos_nat {A : Type} (f : A -> A) (p : positive) (x : A) :
  iter_pos f p x = Nat.iter (Pos.to_nat p) f x.
Proof.
  revert x. induction p as [p IH | p IH |]; intros x; cbn [iter_pos].
  - rewrite !IH. rewrite Pos2Nat.inj_xI.
    rewrite <- Nat.iter_add. rewrite <- Nat.iter_succ_r. f_equal. lia.
  - rewrite !IH. rewrite Pos2Nat.inj_xO. rewrite <- Nat.iter_add. f_equal. lia.
  - reflexivity.
Qed.

Lemma shr_1_m (mrs : shr_record) :
  0 <= shr_m mrs -> shr_m (shr_1 mrs) = shr_m mrs / 2.
Proof.
  destruct mrs as [m r s]. simpl. intros Hm.
  rewrite <- Z.div2_div.
  destruct m as [| [p | p |] | p]; simpl; try reflexivity; lia.
Qed.

Lemma shr_m_iter (n : nat) (mrs : shr_record) :
  0 <= shr_m mrs ->
  shr_m (Nat.iter n shr_1 mrs) = shr_m mrs / 2 ^ Z.of_nat n.
Proof.
  intros Hm. induction n as [| n IH].
  - simpl. rewrite Z.div_1_r. reflexivity.
  - rewrite Nat2Z.inj_succ, Z.pow_succ_r by lia. simpl Nat.iter.
    rewrite shr_1_m.
    + rewrite IH. rewrite Z.div_div by (try apply Z.pow_pos_nonneg; lia).
      f_equal. lia.
    + rewrite IH. apply Z.div_pos; [exact Hm | apply Z.pow_pos_nonneg; lia].
Qed.

(** [shr mrs e n] divides the mantissa by [2^n] and adds [n] to the
    exponent, for [n > 0], and does nothing otherwise. *)
Lemma shr_spec (mrs mrs' : shr_record) (e e' n : Z) :
  0 <= shr_m mrs ->
  shr mrs e n = (mrs', e') ->
  shr_m mrs' = shr_m mrs / 2 ^ Z.max 0 n /\ e' = e + Z.max 0 n.
Proof.
  intros Hm H. unfold shr in H. destruct n as [| p | p].
  - inversion H; subst. simpl. rewrite Z.div_1_r. lia.
  - inversion H; subst. rewrite iter_pos_nat, shr_m_iter by exact Hm.
    rewrite positive_nat_Z. rewrite Z.max_r by lia. split; reflexivity.
  - inversion H; subst. simpl. rewrite Z.div_1_r. lia.
Qed.

Lemma shr_m_of_loc (m : Z) (l : location) : shr_m (shr_record_of_loc m l) = m.
Proof. destruct l as [| []]; reflexivity. Qed.

Lemma round_nearest_even_bounds (m : Z) (l : location) :
  m <= round_nearest_even m l <= m + 1.
Proof.
  unfold round_nearest_even. destruct l as [| []]; try lia.
  destruct (Z.even m); lia.
Qed.

Lemma fexp_eq (x : Z) : fexp Num.prec Num.emax x = Z.max (x - 53) (-1074).
Proof. reflexivity. Qed.

Lemma within_weaken (s : bool) (K K' : Z) (x : Num.number) :
  K <= K' -> within s K x -> within s K' x.
Proof.
  intros HK. destruct x; simpl; auto. intros [Hs Hb]. split; [exact Hs | lia].
Qed.

(** Rounding a mantissa below [2^(K - e)] at exponent [e] neither
    overflows nor changes the sign, and stays below [2^(K + 1)]. *)
Lemma binary_round_aux_within (s : bool) (m e : Z) (l : location) (K : Z) :
  0 <= m -> e <= 971 -> Zdigits2 m + e <= K -> -1074 <= K <= 1023 ->
  within s (K + 1) (binary_round_aux Num.prec Num.emax s m e l).
Proof.
  intros Hm He Hd HK. unfold binary_round_aux.
  destruct (shr_fexp Num.prec Num.emax m e l) as [mrs1 e1] eqn:E1.
  unfold shr_fexp in E1. apply shr_spec in E1; [| rewrite shr_m_of_loc; exact Hm].
  rewrite shr_m_of_loc, fexp_eq in E1. destruct E1 as [Hm1 He1].
  set (k1 := Z.max 0 (Z.max (Zdigits2 m + e - 53) (-1074) - e)) in *.
  set (m1 := round_nearest_even (shr_m mrs1) (loc_of_shr_record mrs1)).
  assert (Hk1 : 0 <= k1) by (unfold k1; lia).
  assert (Hq1 : 0 <= shr_m mrs1)
    by (rewrite Hm1; apply Z.div_pos; [exact Hm | apply Z.pow_pos_nonneg; lia]).
  pose proof (round_nearest_even_bounds (shr_m mrs1) (loc_of_shr_record mrs1)) as Hr.
  fold m1 in Hr.
  pose proof (Zdigits2_div_pow2 m k1 Hm Hk1) as Hdq. rewrite <- Hm1 in Hdq.
  assert (Hd1 : Zdigits2 m1 <= Zdigits2 (shr_m mrs1) + 1).
  { eapply Z.le_trans; [apply (Zdigits2_mono m1 (shr_m mrs1 + 1)); lia |].
    apply Zdigits2_succ. exact Hq1. }
  pose proof (Zdigits2_nonneg m) as Hdm.
  assert (Hmag1 : Zdigits2 m1 + e1 <= K + 1) by (unfold k1 in *; lia).
  assert (He1' : e1 <= 971) by (unfold k1 in *; lia).
  destruct (shr_fexp Num.prec Num.emax m1 e1 loc_Exact) as [mrs2 e2] eqn:E2.
  unfold shr_fexp in E2. apply shr_spec in E2; [| rewrite shr_m_of_loc; lia].
  rewrite shr_m_of_loc, fexp_eq in E2. destruct E2 as [Hm2 He2].
  set (k2 := Z.max 0 (Z.max (Zdigits2 m1 + e1 - 53) (-1074) - e1)) in *.
  assert (Hk2 : 0 <= k2) by (unfold k2; lia).
  assert (Hm1nn : 0 <= m1) by lia.
  pose proof (Zdigits2_div_pow2 m1 k2 Hm1nn Hk2) as Hdq2. rewrite <- Hm2 in Hdq2.
  assert (Hq2 : 0 <= shr_m mrs2)
    by (rewrite Hm2; apply Z.div_pos; [exact Hm1nn | apply Z.pow_pos_nonneg; lia]).
  destruct (shr_m mrs2) as [| p | p] eqn:Ep; [exact I | | lia].
  assert (Hle : (e2 <=? Num.emax - Num.prec) = true).
  { apply Z.leb_le. change (Num.emax - Num.prec) with 971. unfold k2 in *. lia. }
  rewrite Hle. cbn [within]. split; [reflexivity |].
  cbn [Zdigits2] in Hdq2. unfold k2 in *. lia.
Qed.

(** *** Aligning mantissas *)

Lemma digits2_iter_xO (m d : positive) :
  digits2_pos (Pos.iter xO m d) = (digits2_pos m + d)%positive.
Proof.
  induction d as [| d IH] using Pos.peano_ind.
  - simpl. lia.
  - rewrite Pos.iter_succ. simpl. rewrite IH. lia.
Qed.

Lemma Zpos_iter_xO (m d : positive) :
  Zpos (Pos.iter xO m d) = Zpos m * 2 ^ Zpos d.
Proof.
  induction d as [| d IH] using Pos.peano_ind.
  - simpl. lia.
  - rewrite Pos.iter_succ, Pos2Z.inj_succ, Z.pow_succ_r by lia.
    rewrite Pos2Z.inj_xO, IH. lia.
Qed.

(** [shl_align m e e'] keeps the value and the magnitude, and lowers the
    exponent to [e'] when [e' <= e]. *)
Lemma shl_align_spec (m : positive) (e e' : Z) :
  let '(mz, ez) := shl_align m e e' in
  Zpos (digits2_pos mz) + ez = Zpos (digits2_pos m) + e
  /\ ez = Z.min e e'
  /\ Zpos mz = Zpos m * 2 ^ (e - ez).
Proof.
  unfold shl_align. destruct (e' - e) as [| d | d] eqn:Hd.
  - rewrite Z.sub_diag, Z.mul_1_r. lia.
  - rewrite Z.sub_diag, Z.mul_1_r. lia.
  - rewrite digits2_iter_xO, Zpos_iter_xO.
    replace (e - e') with (Zpos d) by lia. lia.
Qed.

Lemma binary_round_within (s : bool) (m : positive) (e K : Z) :
  e <= 971 -> Zpos (digits2_pos m) + e <= K -> -1074 <= K <= 1023 ->
  within s (K + 1) (binary_round Num.prec Num.emax s m e).
Proof.
  intros He Hd HK. unfold binary_round.
  pose proof (shl_align_spec m e
                (fexp Num.prec Num.emax (Zpos (digits2_pos m) + e))) as Ha.
  destruct (shl_align m e (fexp Num.prec Num.emax (Zpos (digits2_pos m) + e)))
    as [mz ez].
  destruct Ha as [Hdz [Hez _]].
  apply binary_round_aux_within; cbn [Zdigits2]; lia.
Qed.

(** *** Integers *)

Lemma of_Z_within (z K : Z) :
  Z.abs z < 2 ^ K -> 0 <= K <= 1023 ->
  within (sign_of z) (K + 1) (Num.of_Z z).
Proof.
  intros Hz HK. unfold Num.of_Z, binary_normalize.
  destruct z as [| p | p]; [exact I | |];
    apply binary_round_within; try lia;
    apply (Zdigits2_le_iff (Zpos p) K) in Hz; cbn [Zdigits2] in Hz; lia.
Qed.

(** *** Products *)

Lemma mul_within (sx sy : bool) (Kx Ky : Z) (x y : Num.number) :
  within sx Kx x -> within sy Ky y ->
  -1074 <= Kx + Ky <= 972 ->
  within (xorb sx sy) (Kx + Ky + 1) (Num.mul x y).
Proof.
  intros Hx Hy HK.
  destruct x as [sx' | sx' | | sx' mx ex]; try contradiction;
    destruct y as [sy' | sy' | | sy' my ey]; try contradiction; try exact I.
  destruct Hx as [-> Hx]. destruct Hy as [-> Hy].
  unfold Num.mul, SFmul.
  pose proof (Zdigits2_mul (Zpos mx) (Zpos my)) as Hm.
  change (Zpos mx * Zpos my) with (Zpos (mx * my)) in Hm. cbn [Zdigits2] in Hm.
  assert (Hdx : 0 < Zpos (digits2_pos mx)) by lia.
  assert (Hdy : 0 < Zpos (digits2_pos my)) by lia.
  apply binary_round_aux_within; cbn [Zdigits2]; lia.
Qed.

(** *** Sums of two values of the same sign *)

Lemma add_within (s : bool) (Kx Ky : Z) (x y : Num.number) :
  within s Kx x -> within s Ky y ->
  -1074 <= Z.max Kx Ky <= 972 ->
  within s (Z.max Kx Ky + 2) (Num.add x y).
Proof.
  intros Hx Hy HK.
  destruct x as [sx' | sx' | | sx' mx ex]; try contradiction;
    destruct y as [sy' | sy' | | sy' my ey]; try contradiction.
  - unfold Num.add, SFadd. destruct sx', sy'; exact I.
  - apply (within_weaken s Ky); [lia | exact Hy].
  - apply (within_weaken s Kx); [lia | exact Hx].
  - destruct Hx as [-> Hx]. destruct Hy as [-> Hy].
    unfold Num.add, SFadd.
    pose proof (shl_align_spec mx ex (Z.min ex ey)) as Hax.
    pose proof (shl_align_spec my ey (Z.min ex ey)) as Hay.
    destruct (shl_align mx ex (Z.min ex ey)) as [ax ezx].
    destruct (shl_align my ey (Z.min ex ey)) as [ay ezy].
    cbn [fst].
    destruct Hax as [Hdx [Hex _]]. destruct Hay as [Hdy [Hey _]].
    assert (Hsum : cond_Zopp s (Zpos ax) + cond_Zopp s (Zpos ay)
                   = cond_Zopp s (Zpos (ax + ay))).
    { destruct s; simpl; reflexivity. }
    rewrite Hsum.
    assert (Hdig : Zpos (digits2_pos (ax + ay)) + Z.min ex ey <= Z.max Kx Ky + 1).
    { pose proof (Zdigits2_lt_pow (Zpos ax)) as Hlx.
      pose proof (Zdigits2_lt_pow (Zpos ay)) as Hly.
      cbn [Zdigits2] in Hlx, Hly.
      set (D := Z.max (Zpos (digits2_pos ax)) (Zpos (digits2_pos ay))).
      assert (HD : Zpos (ax + ay) < 2 ^ (D + 1)).
      { rewrite Z.pow_add_r by (unfold D; lia). change (2 ^ 1) with 2.
        assert (Zpos ax < 2 ^ D).
        { eapply Z.lt_le_trans; [apply Hlx; lia |].
          apply Z.pow_le_mono_r; unfold D; lia. }
        assert (Zpos ay < 2 ^ D).
        { eapply Z.lt_le_trans; [apply Hly; lia |].
          apply Z.pow_le_mono_r; unfold D; lia. }
        rewrite Pos2Z.inj_add. lia. }
      apply (Zdigits2_le_iff (Zpos (ax + ay)) (D + 1)) in HD; [| lia | unfold D; lia].
      cbn [Zdigits2] in HD. unfold D in HD. lia. }
    assert (Hez : Z.min ex ey <= 971).
    { assert (0 < Zpos (digits2_pos mx)) by lia. lia. }
    destruct s; cbn [cond_Zopp Z.opp binary_normalize].
    + replace (Z.max Kx Ky + 2) with ((Z.max Kx Ky + 1) + 1) by lia.
      apply binary_round_within; lia.
    + replace (Z.max Kx Ky + 2) with ((Z.max Kx Ky + 1) + 1) by lia.
      apply binary_round_within; lia.
Qed.

(** *** Quotients of integers *)

Lemma of_ratio_within (s : bool) (n d K : Z) :
  0 < n -> 0 < d -> Zdigits2 n <= K -> 0 <= K <= 1023 ->
  within s (K + 1) (Num.of_ratio s n d).
Proof.
  intros Hn Hd Hdn HK. unfold Num.of_ratio.
  destruct (Z.eqb_spec n 0) as [-> | _]; [lia |].
  unfold SFdiv_core_binary.
  rewrite !Z.add_0_r, !Z.sub_0_r, Z.sub_0_l, fexp_eq.
  set (e' := Z.min (Z.max (Zdigits2 n - Zdigits2 d - 53) (-1074)) 0).
  set (m' := match - e' with
             | 0 => n
             | Z.pos _ => Z.shiftl n (- e')
             | Z.neg _ => 0
             end).
  assert (He' : e' <= 0) by (unfold e'; lia).
  assert (Hm' : m' = n * 2 ^ (- e')).
  { unfold m'. destruct (- e') as [| p | p] eqn:Hp.
    - simpl. lia.
    - rewrite Z.shiftl_mul_pow2 by lia. reflexivity.
    - lia. }
  pose proof (Z_div_mod m' d ltac:(lia)) as Hdm.
  destruct (Z.div_eucl m' d) as [q r]. destruct Hdm as [Hq Hr].
  assert (Hp2 : 0 < 2 ^ (- e')) by (apply Z.pow_pos_nonneg; lia).
  assert (Hm'pos : 0 <= m') by (rewrite Hm'; nia).
  assert (Hq0 : 0 <= q) by nia.
  assert (Hqm : q <= m') by nia.
  apply binary_round_aux_within; try lia.
  assert (Hdq : Zdigits2 q <= Zdigits2 n - e').
  { pose proof (Zdigits2_nonneg n).
    apply Zdigits2_le_iff; [exact Hq0 | lia |].
    pose proof (Zdigits2_lt_pow n ltac:(lia)) as Hlt.
    replace (Zdigits2 n - e') with (Zdigits2 n + - e') by lia.
    rewrite Z.pow_add_r by lia. nia. }
  lia.
Qed.

(** ** Decimal strings: printing and reading back *)

Lemma append_assoc (a b c : string) : (a ++ b) ++ c = a ++ (b ++ c).
Proof. induction a as [| x a IH]; simpl; [reflexivity | rewrite IH; reflexivity]. Qed.

Lemma append_nil_r (a : string) : a ++ "" = a.
Proof. induction a as [| x a IH]; simpl; [reflexivity | rewrite IH; reflexivity]. Qed.

Lemma Zlength_app (a b : string) : Str.Zlength (a ++ b) = Str.Zlength a + Str.Zlength b.
Proof.
  unfold Str.Zlength. induction a as [| x a IH]; simpl String.length; [lia |].
  rewrite !Nat2Z.inj_succ. lia.
Qed.

Lemma Zlength_nonneg (a : string) : 0 <= Str.Zlength a.
Proof. unfold Str.Zlength. lia. Qed.

Lemma all_chars_app (p : ascii -> bool) (a b : string) :
  all_chars p (a ++ b) = all_chars p a && all_chars p b.
Proof.
  induction a as [| x a IH]; simpl; [reflexivity |].
  rewrite IH, andb_assoc. reflexivity.
Qed.

Lemma all_chars_weaken (p q : ascii -> bool) (s : string) :
  (forall c, p c = true -> q c = true) -> all_chars p s = true -> all_chars q s = true.
Proof.
  intros Hpq. induction s as [| c r IH]; simpl; [reflexivity |].
  intros H. apply andb_true_iff in H. destruct H as [Hc Hr].
  rewrite (Hpq c Hc), (IH Hr). reflexivity.
Qed.

Lemma dval_app (a b : string) (acc : Z) : dval (a ++ b) acc = dval b (dval a acc).
Proof. revert acc. induction a as [| x a IH]; intros acc; simpl; [reflexivity | apply IH]. Qed.

Lemma code_range (c : ascii) : 0 <= Str.code c < 256.
Proof.
  unfold Str.code. pose proof (N_ascii_bounded c) as H. lia.
Qed.

Lemma code_chr (z : Z) : 0 <= z < 256 -> Str.code (Str.chr z) = z.
Proof.
  intros Hz. unfold Str.code, Str.chr.
  rewrite N_ascii_embedding by lia. lia.
Qed.

Lemma is_digit_code (c : ascii) : Str.is_digit c = true <-> 48 <= Str.code c <= 57.
Proof. unfold Str.is_digit. rewrite andb_true_iff, !Z.leb_le. reflexivity. Qed.

Lemma digit_plain (c : ascii) : Str.is_digit c = true -> is_plain c = true.
Proof.
  rewrite is_digit_code. unfold is_plain. rewrite andb_true_iff, !Z.leb_le. lia.
Qed.

Lemma digit_value_digit (c : ascii) :
  Str.is_digit c = true -> Str.digit_value 10 c = Some (Str.code c - 48).
Proof.
  intros H. apply is_digit_code in H. unfold Str.digit_value.
  replace ((48 <=? Str.code c) && (Str.code c <=? 57)) with true
    by (symmetry; apply andb_true_iff; rewrite !Z.leb_le; lia).
  replace (Str.code c - 48 <? 10) with true by (symmetry; apply Z.ltb_lt; lia).
  reflexivity.
Qed.

Lemma scan_digits_app (a rest : string) (acc cnt : Z) :
  all_chars Str.is_digit a = true -> stops rest ->
  Str.scan_digits (a ++ rest) acc cnt = (dval a acc, cnt + Str.Zlength a, rest).
Proof.
  unfold Str.scan_digits. revert acc cnt.
  induction a as [| c a IH]; intros acc cnt Ha Hr.
  - simpl. unfold Str.Zlength. simpl. rewrite Z.add_0_r.
    destruct rest as [| c r]; [reflexivity |]. simpl in Hr |- *. rewrite Hr. reflexivity.
  - simpl in Ha. apply andb_true_iff in Ha. destruct Ha as [Hc Ha].
    cbn [append Str.scan_radix]. rewrite (digit_value_digit c Hc).
    rewrite (IH _ _ Ha Hr). cbn [dval].
    unfold Str.Zlength. cbn [String.length]. rewrite Nat2Z.inj_succ.
    f_equal. f_equal. lia.
Qed.

(** *** [decimal_digits] *)

Lemma digits_fuel_spec (fuel : nat) :
  forall n acc, 0 <= n < 10 ^ (Z.of_nat fuel + 1) ->
  exists D,
    Str.digits_fuel fuel n acc = D ++ acc
    /\ all_chars Str.is_digit D = true
    /\ D <> ""
    /\ forall a, dval D a = a * 10 ^ Str.Zlength D + n.
Proof.
  assert (Hone : forall n acc, 0 <= n < 10 ->
            exists D,
              String (Str.chr (48 + n mod 10)) acc = D ++ acc
              /\ all_chars Str.is_digit D = true
              /\ D <> ""
              /\ forall a, dval D a = a * 10 ^ Str.Zlength D + n).
  { intros n acc Hn. exists (String (Str.chr (48 + n mod 10)) "").
    rewrite Z.mod_small by lia.
    split; [reflexivity |]. split.
    - cbn [all_chars]. rewrite andb_true_r. apply is_digit_code.
      rewrite code_chr by lia. lia.
    - split; [discriminate |]. intros a. cbn [dval]. rewrite code_chr by lia.
      unfold Str.Zlength. cbn [String.length]. change (Z.of_nat 1) with 1.
      change (10 ^ 1) with 10. lia. }
  induction fuel as [| f IH]; intros n acc Hn.
  - simpl Str.digits_fuel. apply Hone. simpl in Hn. lia.
  - cbn [Str.digits_fuel]. destruct (Z.ltb_spec n 10) as [Hlt | Hge].
    + apply Hone. lia.
    + assert (Hq : 0 <= n / 10 < 10 ^ (Z.of_nat f + 1)).
      { split; [apply Z.div_pos; lia |].
        apply Z.div_lt_upper_bound; [lia |].
        rewrite Nat2Z.inj_succ in Hn.
        replace (Z.succ (Z.of_nat f) + 1) with (Z.succ (Z.of_nat f + 1)) in Hn by lia.
        rewrite Z.pow_succ_r in Hn by lia. lia. }
      destruct (IH (n / 10) (String (Str.chr (48 + n mod 10)) acc) Hq)
        as [D [HD [Hall [Hne Hval]]]].
      pose proof (Z.mod_pos_bound n 10 ltac:(lia)) as Hmod.
      exists (D ++ String (Str.chr (48 + n mod 10)) "").
      split; [rewrite HD, append_assoc; reflexivity |].
      split.
      { rewrite all_chars_app, Hall. cbn [all_chars andb]. rewrite andb_true_r.
        apply is_digit_code. rewrite code_chr by lia. lia. }
      split; [destruct D; [congruence | discriminate] |].
      intros a. rewrite dval_app, Hval. cbn [dval]. rewrite code_chr by lia.
      rewrite Zlength_app.
      replace (Str.Zlength (String (Str.chr (48 + n mod 10)) "")) with 1 by reflexivity.
      rewrite Z.pow_add_r by (try apply Zlength_nonneg; lia).
      change (10 ^ 1) with 10.
      pose proof (Z.div_mod n 10 ltac:(lia)) as Hdm. lia.
Qed.

Lemma decimal_digits_spec (n : Z) :
  0 <= n ->
  all_chars Str.is_digit (Str.decimal_digits n) = true
  /\ Str.decimal_digits n <> ""
  /\ dval (Str.decimal_digits n) 0 = n.
Proof.
  intros Hn. unfold Str.decimal_digits.
  assert (Hf : 0 <= n < 10 ^ (Z.of_nat (Z.to_nat (Z.log2 n)) + 1)).
  { split; [exact Hn |].
    pose proof (Z.log2_nonneg n) as Hl. rewrite Z2Nat.id by exact Hl.
    destruct (Z.eq_dec n 0) as [-> | Hnz].
    - apply Z.pow_pos_nonneg; lia.
    - pose proof (Z.log2_spec n ltac:(lia)) as [_ Hhi].
      eapply Z.lt_le_trans; [exact Hhi |].
      replace (Z.succ (Z.log2 n)) with (Z.log2 n + 1) by lia.
      apply Z.pow_le_mono_l. lia. }
  destruct (digits_fuel_spec _ n "" Hf) as [D [HD [Hall [Hne Hval]]]].
  rewrite HD, append_nil_r.
  split; [exact Hall |]. split; [exact Hne |].
  rewrite Hval. lia.
Qed.

Lemma repeat0_digits (k : nat) : all_chars Str.is_digit (Str.repeat0 k) = true.
Proof. induction k as [| k IH]; simpl; [reflexivity | exact IH]. Qed.

Lemma repeat0_dval (k : nat) : dval (Str.repeat0 k) 0 = 0.
Proof. induction k as [| k IH]; simpl; [reflexivity | exact IH]. Qed.

Lemma repeat0_length (k : nat) : String.length (Str.repeat0 k) = k.
Proof. induction k as [| k IH]; simpl; [reflexivity | rewrite IH; reflexivity]. Qed.

(** *** Splitting a string in two *)

Lemma substring_split (j : nat) :
  forall s, (j <= String.length s)%nat ->
  substring 0 j s ++ substring j (String.length s - j) s = s
  /\ String.length (substring 0 j s) = j.
Proof.
  induction j as [| j IH]; intros s Hj.
  - rewrite Nat.sub_0_r. destruct s as [| c r]; simpl; [split; reflexivity |].
    split; [| reflexivity]. f_equal.
    clear. induction r as [| x r IH]; simpl; [reflexivity | rewrite IH; reflexivity].
  - destruct s as [| c r]; simpl in Hj; [lia |].
    destruct (IH r ltac:(lia)) as [H1 H2]. simpl.
    rewrite H1, H2. split; reflexivity.
Qed.

(** *** White space and plain characters *)

Lemma is_plain_code (c : ascii) : is_plain c = true <-> 45 <= Str.code c <= 57.
Proof. unfold is_plain. rewrite andb_true_iff, !Z.leb_le. reflexivity. Qed.

Lemma skip_ws1_plain (c : ascii) (r : string) :
  is_plain c = true -> Str.skip_ws1 (String c r) = None.
Proof.
  intros H. apply is_plain_code in H. unfold Str.skip_ws1.
  destruct (Z.leb_spec 9 (Str.code c)); [| lia].
  destruct (Z.leb_spec (Str.code c) 13); [lia |].
  destruct (Z.eqb_spec (Str.code c) 32); [lia |].
  destruct (Z.eqb_spec (Str.code c) 194); [lia |].
  destruct (Z.eqb_spec (Str.code c) 239); [lia |].
  destruct (Z.eqb_spec (Str.code c) 225); [lia |].
  destruct (Z.eqb_spec (Str.code c) 226); [lia |].
  destruct (Z.eqb_spec (Str.code c) 227); [lia |].
  cbn [andb orb].
  destruct r as [| c2 [| c3 r3]]; reflexivity.
Qed.

Lemma skip_ws_plain (s : string) : all_chars is_plain s = true -> Str.skip_ws s = s.
Proof.
  unfold Str.skip_ws. destruct s as [| c r]; [reflexivity |].
  cbn [all_chars String.length Str.skip_ws_fuel]. intros H.
  apply andb_true_iff in H. destruct H as [Hc _].
  rewrite (skip_ws1_plain c r Hc). reflexivity.
Qed.

Lemma trim_end_plain (s : string) : all_chars is_plain s = true -> Str.trim_end s = s.
Proof.
  induction s as [| c r IH]; [reflexivity |].
  intros H. cbn [Str.trim_end]. unfold Str.all_ws. rewrite (skip_ws_plain _ H).
  cbn [all_chars] in H. apply andb_true_iff in H. destruct H as [_ Hr].
  rewrite (IH Hr). reflexivity.
Qed.

Lemma trim_plain (s : string) : all_chars is_plain s = true -> Str.trim s = s.
Proof.
  intros H. unfold Str.trim. rewrite (skip_ws_plain s H). apply trim_end_plain. exact H.
Qed.

Lemma NonDecimal_plain (s : string) :
  all_chars is_plain s = true -> Str.NonDecimalIntegerLiteral s = None.
Proof.
  destruct s as [| c0 [| c r]]; try reflexivity.
  cbn [all_chars]. intros H.
  apply andb_true_iff in H. destruct H as [_ H].
  apply andb_true_iff in H. destruct H as [Hc _].
  apply is_plain_code in Hc.
  unfold Str.NonDecimalIntegerLiteral, Str.radix_of_prefix.
  destruct (negb (Str.code c0 =? 48)); [reflexivity |].
  destruct (Z.eqb_spec (Str.code c) 120); [lia |].
  destruct (Z.eqb_spec (Str.code c) 88); [lia |].
  destruct (Z.eqb_spec (Str.code c) 111); [lia |].
  destruct (Z.eqb_spec (Str.code c) 79); [lia |].
  destruct (Z.eqb_spec (Str.code c) 98); [lia |].
  destruct (Z.eqb_spec (Str.code c) 66); [lia |].
  reflexivity.
Qed.

Lemma scan_sign_digit (c : ascii) (r : string) :
  Str.is_digit c = true -> Str.scan_sign (String c r) = (false, String c r).
Proof.
  intros H. apply is_digit_code in H. unfold Str.scan_sign.
  destruct (Z.eqb_spec (Str.code c) 43); [lia |].
  destruct (Z.eqb_spec (Str.code c) 45); [lia |].
  reflexivity.
Qed.

Lemma not_Infinity (c : ascii) (r : string) :
  Str.is_digit c = true -> String.eqb (String c r) "Infinity" = false.
Proof.
  intros H. apply is_digit_code in H. cbn [String.eqb].
  destruct (Ascii.eqb_spec c "I") as [-> | _]; [| reflexivity].
  vm_compute in H. destruct H as [_ H]. exfalso. apply H. reflexivity.
Qed.

(** Reading [digits.digits] with an optional minus sign. *)
Lemma StrDecimalLiteral_fixed (neg : bool) (a b : string) :
  a <> "" -> b <> "" ->
  all_chars Str.is_digit a = true -> all_chars Str.is_digit b = true ->
  Str.StrDecimalLiteral ((if neg then "-" else "") ++ a ++ "." ++ b)
  = Num.of_decimal neg (dval (a ++ b) 0) (- Str.Zlength b).
Proof.
  intros Hane Hbne Ha Hb.
  destruct a as [| c a']; [congruence |].
  assert (Hc : Str.is_digit c = true).
  { cbn [all_chars] in Ha. apply andb_true_iff in Ha. apply Ha. }
  unfold Str.StrDecimalLiteral.
  assert (Hsign : Str.scan_sign ((if neg then "-" else "") ++ String c a' ++ "." ++ b)
                  = (neg, String c a' ++ "." ++ b)).
  { destruct neg; [reflexivity |]. apply scan_sign_digit. exact Hc. }
  rewrite Hsign.
  change (String c a' ++ "." ++ b) with (String c (a' ++ "." ++ b)) at 1.
  rewrite (not_Infinity c _ Hc).
  rewrite (scan_digits_app (String c a') ("." ++ b) 0 0 Ha)
    by (cbn; reflexivity).
  cbn [append]. change (Str.code "." =? 46) with true. cbv iota.
  pose proof (scan_digits_app b "" (dval (String c a') 0) 0 Hb I) as Hsb.
  rewrite append_nil_r in Hsb. rewrite Hsb.
  assert (Hla : 0 < Str.Zlength (String c a')).
  { unfold Str.Zlength. cbn [String.length]. lia. }
  pose proof (Zlength_nonneg b) as Hlb.
  destruct (Z.eqb_spec (0 + Str.Zlength (String c a') + (0 + Str.Zlength b)) 0); [lia |].
  change (String c (a' ++ b)) with (String c a' ++ b).
  rewrite dval_app, Z.add_0_l. reflexivity.
Qed.

Lemma StringToNumber_plain (s : string) :
  s <> "" -> all_chars is_plain s = true ->
  Str.StringToNumber s = Str.StrDecimalLiteral s.
Proof.
  intros Hne Hplain. unfold Str.StringToNumber. rewrite (trim_plain _ Hplain).
  destruct s as [| c r]; [congruence |].
  rewrite (NonDecimal_plain _ Hplain). reflexivity.
Qed.

Lemma StringToNumber_fixed (neg : bool) (a b : string) :
  a <> "" -> b <> "" ->
  all_chars Str.is_digit a = true -> all_chars Str.is_digit b = true ->
  Str.StringToNumber ((if neg then "-" else "") ++ a ++ "." ++ b)
  = Num.of_decimal neg (dval (a ++ b) 0) (- Str.Zlength b).
Proof.
  intros Hane Hbne Ha Hb.
  rewrite StringToNumber_plain.
  - apply StrDecimalLiteral_fixed; assumption.
  - destruct neg; [discriminate |]. destruct a; [congruence | discriminate].
  - rewrite !all_chars_app.
    rewrite (all_chars_weaken _ _ a digit_plain Ha).
    rewrite (all_chars_weaken _ _ b digit_plain Hb).
    destruct neg; reflexivity.
Qed.

Lemma length_app (a b : string) :
  String.length (a ++ b) = (String.length a + String.length b)%nat.
Proof. induction a as [| x a IH]; simpl; [reflexivity | rewrite IH; reflexivity]. Qed.

(** *** [toFixed(2)] read back *)

Lemma round_scaled_nonneg (m : positive) (e k : Z) : 0 <= k -> 0 <= Num.round_scaled m e k.
Proof.
  intros Hk. unfold Num.round_scaled.
  destruct (0 <=? e) eqn:He.
  - apply Z.leb_le in He.
    assert (0 < 2 ^ e) by (apply Z.pow_pos_nonneg; lia). nia.
  - apply Z.leb_gt in He.
    assert (0 < 2 ^ (- e)) by (apply Z.pow_pos_nonneg; lia).
    apply Z.div_pos; nia.
Qed.

(** Below 10^21, [Number(x.toFixed(2))] is the Number nearest to
    [n / 100], where [n] is the integer nearest to [100 * |x|]. *)
Lemma toFixed_read_back (s : bool) (m : positive) (e : Z) :
  Num.trunc_mag m e < 10 ^ 21 ->
  Str.StringToNumber (Str.toFixed (S754_finite s m e) 2)
  = Num.of_decimal s (Num.round_scaled m e 100) (-2).
Proof.
  intros Hsmall. unfold Str.toFixed.
  destruct (Z.leb_spec (10 ^ 21) (Num.trunc_mag m e)) as [Hbig | _]; [lia |].
  change (Z.of_nat 2) with 2. change (10 ^ 2) with 100. change (2 + 1) with 3.
  set (n := Num.round_scaled m e 100).
  assert (Hn : 0 <= n) by (apply round_scaled_nonneg; lia).
  destruct (decimal_digits_spec n Hn) as [Hdig [Hne Hval]].
  set (ds := Str.decimal_digits n) in *.
  set (padded := Str.repeat0 (Z.to_nat (3 - Str.Zlength ds)) ++ ds).
  assert (Hpd : all_chars Str.is_digit padded = true).
  { unfold padded. rewrite all_chars_app, repeat0_digits, Hdig. reflexivity. }
  assert (Hpv : dval padded 0 = n).
  { unfold padded. rewrite dval_app, repeat0_dval. exact Hval. }
  assert (Hpl : (3 <= String.length padded)%nat).
  { unfold padded. rewrite length_app, repeat0_length.
    unfold Str.Zlength. lia. }
  set (j := Z.to_nat (Str.Zlength padded - 2)).
  assert (Hj : (j = String.length padded - 2)%nat).
  { unfold j, Str.Zlength. lia. }
  destruct (substring_split j padded ltac:(lia)) as [Hsplit Hlen].
  replace (String.length padded - j)%nat with 2%nat in Hsplit by lia.
  set (a := substring 0 j padded) in *.
  set (b := substring j 2 padded) in *.
  assert (Hlb : String.length b = 2%nat).
  { assert (H : String.length (a ++ b) = String.length padded) by (rewrite Hsplit; reflexivity).
    rewrite length_app in H. lia. }
  assert (Hab : all_chars Str.is_digit a = true /\ all_chars Str.is_digit b = true).
  { rewrite <- Hsplit, all_chars_app in Hpd. apply andb_true_iff in Hpd. exact Hpd. }
  destruct Hab as [Ha Hb].
  rewrite (StringToNumber_fixed s a b).
  - rewrite Hsplit, Hpv. unfold Str.Zlength. rewrite Hlb. reflexivity.
  - intros Hz. rewrite Hz in Hlen. simpl in Hlen. lia.
  - intros Hz. rewrite Hz in Hlb. simpl in Hlb. lia.
  - exact Ha.
  - exact Hb.
Qed.

(** ** The cost is finite and takes the sign of the uptime *)

Lemma trunc_mag_small (m : positive) (e : Z) :
  Zpos (digits2_pos m) + e <= 69 -> Num.trunc_mag m e < 10 ^ 21.
Proof.
  intros H. unfold Num.trunc_mag.
  pose proof (Zpos_lt_pow_digits m) as Hlt.
  assert (H69 : 2 ^ 69 < 10 ^ 21) by reflexivity.
  destruct (Z.leb_spec 0 e) as [He | He].
  - assert (Hp : Zpos m * 2 ^ e < 2 ^ (Zpos (digits2_pos m) + e)).
    { rewrite Z.pow_add_r by lia.
      assert (0 < 2 ^ e) by (apply Z.pow_pos_nonneg; lia). nia. }
    assert (2 ^ (Zpos (digits2_pos m) + e) <= 2 ^ 69) by (apply Z.pow_le_mono_r; lia).
    lia.
  - assert (Hpe : 0 < 2 ^ (- e)) by (apply Z.pow_pos_nonneg; lia).
    apply Z.div_lt_upper_bound; [exact Hpe |].
    assert (Hle : 2 ^ Zpos (digits2_pos m) <= 2 ^ (- e + 69))
      by (apply Z.pow_le_mono_r; lia).
    rewrite Z.pow_add_r in Hle by lia. lia.
Qed.

Lemma round_scaled_digits (m : positive) (e K : Z) :
  Zpos (digits2_pos m) + e <= K -> 0 <= K ->
  Zdigits2 (Num.round_scaled m e 100) <= K + 8.
Proof.
  intros H HK.
  pose proof (round_scaled_nonneg m e 100 ltac:(lia)) as Hnn.
  apply Zdigits2_le_iff; [exact Hnn | lia |].
  pose proof (Zpos_lt_pow_digits m) as Hlt.
  unfold Num.round_scaled. destruct (Z.leb_spec 0 e) as [He | He].
  - assert (Hpe : 0 < 2 ^ e) by (apply Z.pow_pos_nonneg; lia).
    assert (Hle : 2 ^ (Zpos (digits2_pos m) + e) <= 2 ^ K)
      by (apply Z.pow_le_mono_r; lia).
    rewrite Z.pow_add_r in Hle by lia.
    rewrite Z.pow_add_r by lia. change (2 ^ 8) with 256. nia.
  - assert (Hpe : 0 < 2 ^ (- e)) by (apply Z.pow_pos_nonneg; lia).
    apply Z.div_lt_upper_bound; [lia |].
    assert (Hle : 2 ^ Zpos (digits2_pos m) <= 2 ^ (- e + K))
      by (apply Z.pow_le_mono_r; lia).
    rewrite Z.pow_add_r in Hle by lia.
    rewrite Z.pow_add_r by lia. change (2 ^ 8) with 256.
    assert (Hk1 : 1 <= 2 ^ K) by (apply (Z.pow_le_mono_r 2 0 K); lia).
    nia.
Qed.

(** [Number(x.toFixed(2))] of a within value is within. *)
Lemma read_back_within (s : bool) (K : Z) (x : Num.number) :
  within s K x -> 0 <= K <= 69 ->
  within s (K + 9) (Str.StringToNumber (Str.toFixed x 2)).
Proof.
  intros Hx HK. destruct x as [sx | sx | | sx m e]; try contradiction.
  - vm_compute. exact I.
  - destruct Hx as [-> Hx].
    rewrite toFixed_read_back by (apply trunc_mag_small; lia).
    pose proof (round_scaled_nonneg m e 100 ltac:(lia)) as Hnn.
    pose proof (round_scaled_digits m e K Hx ltac:(lia)) as Hd.
    unfold Num.of_decimal.
    destruct (Z.eqb_spec (Num.round_scaled m e 100) 0) as [_ | Hnz]; [exact I |].
    change (0 <=? -2) with false. cbv iota. change (10 ^ (- -2)) with 100.
    replace (K + 9) with ((K + 8) + 1) by lia.
    apply of_ratio_within; lia.
Qed.

(** What a within value is after [|| 0]. *)
Lemma or_zero_within (s : bool) (K : Z) (x : Num.number) :
  within s K x ->
  Num.isNaN (or_zero x) = false
  /\ Num.isFinite (or_zero x) = true
  /\ (s = false -> Num.ge (or_zero x) Num.zero = true)
  /\ (s = true -> Num.ge Num.zero (or_zero x) = true).
Proof.
  destruct x as [sx | sx | | sx m e]; try contradiction.
  - intros _. repeat split; reflexivity.
  - intros [-> _]. cbn. repeat split; try reflexivity; intros ->; reflexivity.
Qed.

Lemma rate_within (key : string) :
  hourlyRate key = Inherited
  \/ exists r, hourlyRate key = Rate r /\ within false (-2) r.
Proof.
  unfold hourlyRate, hourlyRates_get, hourlyRates, assoc.
  repeat match goal with
    | |- context [String.eqb ?a key] =>
        destruct (String.eqb a key);
        [right; eexists; split; [vm_compute; reflexivity |];
         vm_compute; split; [reflexivity | discriminate] |]
    end.
  destruct (existsb (String.eqb key) Object_prototype_names).
  - left. reflexivity.
  - right. eexists. split; [reflexivity |].
    vm_compute. split; [reflexivity | discriminate].
Qed.

Lemma sign_of_nat (n : nat) : sign_of (Z.of_nat n) = false.
Proof. unfold sign_of. apply Z.ltb_ge. lia. Qed.

(** The metered cost for an uptime that derivation can produce and an
    array of environments: a finite number with the sign of the uptime. *)
Lemma meteredCost_finite (hours : Z) (count : nat) (key : string) :
  Z.abs hours <= max_uptime -> Z.of_nat count < 2 ^ 32 ->
  let c := meteredCost (Num.of_Z hours) count (hourlyRate key) in
  Num.isNaN c = false
  /\ Num.isFinite c = true
  /\ (0 <= hours -> Num.ge c Num.zero = true).
Proof.
  intros Hh Hc c.
  assert (Hx : exists x, c = or_zero x /\ within (sign_of hours) 77 x).
  { unfold c, meteredCost.
    destruct (rate_within key) as [-> | [r [-> Hr]]]; cbn [Member_ToNumber].
    - exists Num.zero. split; [| exact I].
      assert (Hm : Num.mul (Num.of_Z hours) Num.nan = Num.nan)
        by (destruct (Num.of_Z hours); reflexivity).
      rewrite Hm. reflexivity.
    - assert (Hu : within (sign_of hours) 34 (Num.of_Z hours)).
      { apply (of_Z_within hours 33); [| lia].
        unfold max_uptime in Hh. change (2 ^ 33) with 8589934592. lia. }
      assert (Hn : within false 33 (Num.of_Z (Z.of_nat count))).
      { rewrite <- (sign_of_nat count). apply (of_Z_within _ 32); lia. }
      assert (Hp : within false (-3) perEnvironmentRate).
      { vm_compute. split; [reflexivity | discriminate]. }
      pose proof (mul_within _ _ _ _ _ _ Hu Hr ltac:(lia)) as Hcost.
      pose proof (mul_within _ _ _ _ _ _ Hn Hp ltac:(lia)) as Hper.
      pose proof (mul_within _ _ _ _ _ _ Hper Hu ltac:(lia)) as Henv.
      rewrite xorb_false_r in Hcost. cbn [xorb] in Hper. rewrite xorb_false_l in Henv.
      pose proof (add_within _ _ _ _ _ Hcost Henv ltac:(lia)) as Hsum.
      eexists. split; [reflexivity |].
      apply (read_back_within _ 68); [| lia].
      eapply within_weaken; [| exact Hsum]. lia. }
  destruct Hx as [x [-> Hx]].
  destruct (or_zero_within _ _ _ Hx) as [Hnan [Hfin [Hpos _]]].
  split; [exact Hnan |]. split; [exact Hfin |].
  intros H0. apply Hpos. unfold sign_of. apply Z.ltb_ge. exact H0.
Qed.

(** ** Time values *)

Lemma TimeClip_range (t : Num.number) (c : Z) :
  TimeClip t = Some c -> Z.abs c <= max_time.
Proof.
  destruct t as [s | s | | s m e]; cbn [TimeClip]; try discriminate.
  - intros H. inversion H. unfold max_time. lia.
  - unfold Num.trunc_mag.
    destruct (Z.leb_spec 0 e) as [He | He].
    + assert (Hpos : 0 < Zpos m * 2 ^ e).
      { assert (0 < 2 ^ e) by (apply Z.pow_pos_nonneg; lia). nia. }
      generalize dependent (Zpos m * 2 ^ e). intros P HP.
      destruct (Z.ltb_spec max_time P) as [Hb | Hb]; [discriminate |].
      intros H. inversion H. destruct s; lia.
    + destruct (Z.ltb_spec (max_time * 2 ^ (- e)) (Zpos m)) as [Hb | Hb]; [discriminate |].
      intros H. inversion H.
      assert (Hp : 0 < 2 ^ (- e)) by (apply Z.pow_pos_nonneg; lia).
      assert (Hq : 0 <= Zpos m / 2 ^ (- e)) by (apply Z.div_pos; lia).
      assert (Hu : Zpos m / 2 ^ (- e) <= max_time).
      { apply Z.div_le_upper_bound; [exact Hp | lia]. }
      destruct s; lia.
Qed.

(** ** Binary64 arithmetic: exact operations on integers *)

Lemma Zdigits2_pos (V : Z) : 0 < V -> 0 < Zdigits2 V.
Proof. destruct V; simpl; lia. Qed.

Lemma Zdigits2_ge_iff (m k : Z) : 0 < m -> 0 < k -> (k <= Zdigits2 m <-> 2 ^ (k - 1) <= m).
Proof.
  intros Hm Hk. pose proof (Zdigits2_le_iff m (k - 1) ltac:(lia) ltac:(lia)) as H.
  split; intros H'.
  - destruct (Z_lt_le_dec m (2 ^ (k - 1))) as [Hlt | Hge]; [| exact Hge].
    apply H in Hlt. lia.
  - destruct (Z_lt_le_dec (Zdigits2 m) k) as [Hlt | Hge]; [| exact Hge].
    assert (Hd : Zdigits2 m <= k - 1) by lia. apply H in Hd. lia.
Qed.

Lemma Zdigits2_mul_pow2 (V k : Z) : 0 < V -> 0 <= k -> Zdigits2 (V * 2 ^ k) = Zdigits2 V + k.
Proof.
  intros HV Hk.
  pose proof (Zdigits2_pos V HV) as Hd.
  assert (Hp : 0 < 2 ^ k) by (apply Z.pow_pos_nonneg; lia).
  apply Z.le_antisymm.
  - apply Zdigits2_le_iff; [nia | lia |].
    rewrite Z.pow_add_r by lia.
    pose proof (Zdigits2_lt_pow V ltac:(lia)). nia.
  - apply Zdigits2_ge_iff; [nia | lia |].
    replace (Zdigits2 V + k - 1) with ((Zdigits2 V - 1) + k) by lia.
    rewrite Z.pow_add_r by lia.
    assert (2 ^ (Zdigits2 V - 1) <= V) by (apply Zdigits2_ge_iff; lia).
    nia.
Qed.

(** Shifting out zero bits is exact. *)
Lemma shr_exact (n : nat) (m : Z) :
  0 <= m ->
  Nat.iter n shr_1 {| shr_m := m * 2 ^ Z.of_nat n; shr_r := false; shr_s := false |}
  = {| shr_m := m; shr_r := false; shr_s := false |}.
Proof.
  intros Hm. induction n as [| n IH].
  - simpl. rewrite Z.mul_1_r. reflexivity.
  - rewrite Nat.iter_succ_r.
    replace (m * 2 ^ Z.of_nat (S n)) with (2 * (m * 2 ^ Z.of_nat n))
      by (rewrite Nat2Z.inj_succ, Z.pow_succ_r by lia; ring).
    assert (Hs : shr_1 {| shr_m := 2 * (m * 2 ^ Z.of_nat n); shr_r := false; shr_s := false |}
                 = {| shr_m := m * 2 ^ Z.of_nat n; shr_r := false; shr_s := false |}).
    { assert (0 <= m * 2 ^ Z.of_nat n) by (apply Z.mul_nonneg_nonneg; [lia | apply Z.pow_nonneg; lia]).
      destruct (m * 2 ^ Z.of_nat n) as [| p | p]; [reflexivity | reflexivity | lia]. }
    rewrite Hs. exact IH.
Qed.

Lemma shr_exact_record (m e n : Z) :
  0 <= m -> 0 <= n ->
  shr {| shr_m := m * 2 ^ n; shr_r := false; shr_s := false |} e n
  = ({| shr_m := m; shr_r := false; shr_s := false |}, e + n).
Proof.
  intros Hm Hn. unfold shr. destruct n as [| p | p]; [| | lia].
  - rewrite Z.mul_1_r, Z.add_0_r. reflexivity.
  - rewrite iter_pos_nat. rewrite <- (positive_nat_Z p) at 1.
    rewrite shr_exact by exact Hm. reflexivity.
Qed.

(** Rounding a mantissa that holds the integer [V] below [2^53] returns
    the canonical form of [V]. *)
Lemma binary_round_aux_exact (s : bool) (m e V : Z) :
  0 < V < 2 ^ 53 -> e <= Zdigits2 V - 53 -> m = V * 2 ^ (- e) ->
  binary_round_aux Num.prec Num.emax s m e loc_Exact = canon s V.
Proof.
  intros HV He Hm.
  pose proof (Zdigits2_pos V ltac:(lia)) as Hd.
  assert (Hd53 : Zdigits2 V <= 53) by (apply Zdigits2_le_iff; lia).
  set (E := Zdigits2 V - 53) in *.
  assert (Hdm : Zdigits2 m = Zdigits2 V - e)
    by (rewrite Hm, Zdigits2_mul_pow2 by lia; lia).
  unfold binary_round_aux, shr_fexp.
  rewrite Hdm, fexp_eq.
  replace (Z.max (Zdigits2 V - e + e - 53) (-1074) - e) with (E - e) by (unfold E; lia).
  cbn [shr_record_of_loc].
  replace m with ((V * 2 ^ (- E)) * 2 ^ (E - e)).
  2:{ rewrite Hm, <- Z.mul_assoc, <- Z.pow_add_r by lia. f_equal. f_equal. lia. }
  assert (HVE : 0 < V * 2 ^ (- E)).
  { apply Z.mul_pos_pos; [lia | apply Z.pow_pos_nonneg; lia]. }
  rewrite shr_exact_record by lia.
  cbn [shr_m loc_of_shr_record round_nearest_even].
  rewrite Zdigits2_mul_pow2 by lia.
  replace (e + (E - e)) with E by lia.
  rewrite fexp_eq.
  replace (Z.max (Zdigits2 V + - E + E - 53) (-1074) - E) with 0 by (unfold E; lia).
  cbn [shr shr_m fst snd].
  destruct (V * 2 ^ (- E)) as [| p | p] eqn:Ep; [lia | | lia].
  replace (E <=? Num.emax - Num.prec) with true
    by (symmetry; apply Z.leb_le; change (Num.emax - Num.prec) with 971; lia).
  unfold canon. fold E. replace (53 - Zdigits2 V) with (- E) by (unfold E; lia).
  rewrite Ep. reflexivity.
Qed.

Lemma binary_round_exact (s : bool) (z : positive) (e V : Z) :
  0 < V < 2 ^ 53 -> e <= 0 -> Zpos z = V * 2 ^ (- e) ->
  binary_round Num.prec Num.emax s z e = canon s V.
Proof.
  intros HV He Hz. unfold binary_round.
  pose proof (Zdigits2_pos V ltac:(lia)) as Hd.
  assert (Hd53 : Zdigits2 V <= 53) by (apply Zdigits2_le_iff; lia).
  assert (Hdz : Zpos (digits2_pos z) = Zdigits2 V - e).
  { change (Zpos (digits2_pos z)) with (Zdigits2 (Zpos z)).
    rewrite Hz, Zdigits2_mul_pow2 by lia. lia. }
  pose proof (shl_align_spec z e (fexp Num.prec Num.emax (Zpos (digits2_pos z) + e))) as Ha.
  destruct (shl_align z e (fexp Num.prec Num.emax (Zpos (digits2_pos z) + e)))
    as [mz ez].
  destruct Ha as [_ [Hez Hmz]].
  rewrite fexp_eq in Hez.
  apply binary_round_aux_exact; [exact HV | lia |].
  rewrite Hmz, Hz, <- Z.mul_assoc, <- Z.pow_add_r by lia. f_equal. f_equal. lia.
Qed.

Lemma of_Z_canon (z : Z) :
  0 < Z.abs z < 2 ^ 53 -> Num.of_Z z = canon (z <? 0) (Z.abs z).
Proof.
  intros Hz. unfold Num.of_Z, binary_normalize.
  destruct z as [| p | p]; [simpl in Hz; lia | |];
    apply binary_round_exact; try lia; simpl Z.abs in *; simpl; lia.
Qed.

Lemma binary_normalize_exact (z e V : Z) :
  Z.abs V < 2 ^ 53 -> e <= 0 -> z = V * 2 ^ (- e) ->
  binary_normalize Num.prec Num.emax z e false = Num.of_Z V.
Proof.
  intros HV He Hz.
  assert (Hp : 0 < 2 ^ (- e)) by (apply Z.pow_pos_nonneg; lia).
  destruct (Z.eq_dec V 0) as [-> | Hnz].
  - subst z. reflexivity.
  - rewrite of_Z_canon by lia. unfold binary_normalize.
    destruct z as [| p | p].
    + nia.
    + assert (0 < V) by nia.
      replace (V <? 0) with false by (symmetry; apply Z.ltb_ge; lia).
      rewrite Z.abs_eq by lia. apply binary_round_exact; lia.
    + assert (V < 0) by nia.
      replace (V <? 0) with true by (symmetry; apply Z.ltb_lt; lia).
      apply binary_round_exact; lia.
Qed.

(** The mantissa and exponent of a canonical form. *)
Lemma canon_fields (s : bool) (V : Z) :
  0 < V < 2 ^ 53 ->
  exists m, canon s V = S754_finite s m (Zdigits2 V - 53)
            /\ Zpos m = V * 2 ^ (53 - Zdigits2 V)
            /\ Zpos (digits2_pos m) = 53.
Proof.
  intros HV.
  pose proof (Zdigits2_pos V ltac:(lia)) as Hd.
  assert (Hd53 : Zdigits2 V <= 53) by (apply Zdigits2_le_iff; lia).
  assert (Hpos : 0 < V * 2 ^ (53 - Zdigits2 V)).
  { apply Z.mul_pos_pos; [lia | apply Z.pow_pos_nonneg; lia]. }
  exists (Z.to_pos (V * 2 ^ (53 - Zdigits2 V))).
  split; [reflexivity |]. split; [apply Z2Pos.id; exact Hpos |].
  change (Zpos (digits2_pos (Z.to_pos (V * 2 ^ (53 - Zdigits2 V)))))
    with (Zdigits2 (Zpos (Z.to_pos (V * 2 ^ (53 - Zdigits2 V))))).
  rewrite Z2Pos.id by exact Hpos. rewrite Zdigits2_mul_pow2 by lia. lia.
Qed.

(** The difference of two integers is exact when it fits 53 bits. *)
Lemma sub_of_Z (a b : Z) :
  Z.abs a < 2 ^ 53 -> Z.abs b < 2 ^ 53 -> Z.abs (a - b) < 2 ^ 53 ->
  Num.sub (Num.of_Z a) (Num.of_Z b) = Num.of_Z (a - b).
Proof.
  intros Ha Hb Hab.
  destruct (Z.eq_dec a 0) as [-> | Hanz]; destruct (Z.eq_dec b 0) as [-> | Hbnz].
  - reflexivity.
  - rewrite (of_Z_canon b) by lia. rewrite (of_Z_canon (0 - b)) by lia.
    destruct (canon_fields (b <? 0) (Z.abs b) ltac:(lia)) as [m [Hc [Hm Hdm]]].
    rewrite Hc. change (Num.of_Z 0) with (S754_zero false).
    unfold Num.sub, SFsub. unfold canon.
    replace (Z.abs (0 - b)) with (Z.abs b) by lia.
    rewrite <- Hm. rewrite Pos2Z.id.
    f_equal. destruct (Z.ltb_spec b 0); destruct (Z.ltb_spec (0 - b) 0); try reflexivity; lia.
  - rewrite Z.sub_0_r. rewrite (of_Z_canon a) by lia.
    destruct (canon_fields (a <? 0) (Z.abs a) ltac:(lia)) as [m [Hc _]].
    rewrite Hc. reflexivity.
  - rewrite (of_Z_canon a), (of_Z_canon b) by lia.
    destruct (canon_fields (a <? 0) (Z.abs a) ltac:(lia)) as [ma [Hca [Hma _]]].
    destruct (canon_fields (b <? 0) (Z.abs b) ltac:(lia)) as [mb [Hcb [Hmb _]]].
    rewrite Hca, Hcb. unfold Num.sub, SFsub.
    set (ea := Zdigits2 (Z.abs a) - 53) in *.
    set (eb := Zdigits2 (Z.abs b) - 53) in *.
    pose proof (Zdigits2_pos (Z.abs a) ltac:(lia)) as Hda.
    pose proof (Zdigits2_pos (Z.abs b) ltac:(lia)) as Hdb.
    assert (Hda53 : Zdigits2 (Z.abs a) <= 53) by (apply Zdigits2_le_iff; lia).
    assert (Hdb53 : Zdigits2 (Z.abs b) <= 53) by (apply Zdigits2_le_iff; lia).
    pose proof (shl_align_spec ma ea (Z.min ea eb)) as Hax.
    pose proof (shl_align_spec mb eb (Z.min ea eb)) as Hay.
    destruct (shl_align ma ea (Z.min ea eb)) as [ax ezx].
    destruct (shl_align mb eb (Z.min ea eb)) as [ay ezy].
    cbn [fst].
    destruct Hax as [_ [Hex Hxv]]. destruct Hay as [_ [Hey Hyv]].
    set (ez := Z.min ea eb) in *.
    assert (Hez : ez <= 0) by (unfold ez, ea, eb; lia).
    apply binary_normalize_exact; [exact Hab | exact Hez |].
    assert (Hxa : Zpos ax = Z.abs a * 2 ^ (- ez)).
    { rewrite Hxv, Hma, <- Z.mul_assoc, <- Z.pow_add_r by (unfold ea, ez in *; lia).
      f_equal. f_equal. unfold ea, ez in *. lia. }
    assert (Hyb : Zpos ay = Z.abs b * 2 ^ (- ez)).
    { rewrite Hyv, Hmb, <- Z.mul_assoc, <- Z.pow_add_r by (unfold eb, ez in *; lia).
      f_equal. f_equal. unfold eb, ez in *. lia. }
    rewrite Hxa, Hyb.
    destruct (Z.ltb_spec a 0); destruct (Z.ltb_spec b 0); cbn [cond_Zopp];
      try rewrite (Z.abs_eq a) by lia; try rewrite (Z.abs_neq a) by lia;
      try rewrite (Z.abs_eq b) by lia; try rewrite (Z.abs_neq b) by lia; ring.
Qed.

(** ** Binary64 arithmetic: division, rounding and [Math.floor] *)

Lemma loc_of_record_of_loc (m : Z) (l : location) :
  loc_of_shr_record (shr_record_of_loc m l) = l.
Proof. destruct l as [| []]; reflexivity. Qed.

Lemma shr_1_fields (mrs : shr_record) :
  0 <= shr_m mrs ->
  shr_m (shr_1 mrs) = shr_m mrs / 2
  /\ shr_r (shr_1 mrs) = Z.odd (shr_m mrs)
  /\ shr_s (shr_1 mrs) = shr_r mrs || shr_s mrs.
Proof.
  intros Hm. split; [apply shr_1_m; exact Hm |].
  destruct mrs as [m r s]. simpl in Hm |- *.
  destruct m as [| [p | p |] | p]; simpl; try lia; split; reflexivity.
Qed.

Lemma shr_1_locates (mrs : shr_record) (A B : Z) :
  0 <= A -> 0 < B ->
  locates (shr_m mrs) (loc_of_shr_record mrs) A B ->
  locates (shr_m (shr_1 mrs)) (loc_of_shr_record (shr_1 mrs)) A (2 * B).
Proof.
  intros HA HB [Hm Hl].
  assert (Hm0 : 0 <= shr_m mrs) by (rewrite Hm; apply Z.div_pos; lia).
  destruct (shr_1_fields mrs Hm0) as [H1 [H2 H3]].
  pose proof (Z.mod_pos_bound A B HB) as Hrho.
  assert (Hmod : A mod (2 * B) = A mod B + B * ((A / B) mod 2)).
  { rewrite (Z.mul_comm 2 B). apply Z.rem_mul_r; lia. }
  assert (Hdiv : A / (2 * B) = A / B / 2).
  { rewrite (Z.mul_comm 2 B). symmetry. apply Z.div_div; lia. }
  split; [rewrite H1, Hm, Hdiv; reflexivity |].
  rewrite Hmod, <- Hm.
  assert (Hpar : (shr_m mrs) mod 2 = if Z.odd (shr_m mrs) then 1 else 0).
  { rewrite Zmod_odd. reflexivity. }
  rewrite Hpar.
  destruct (shr_1 mrs) as [m' r' s']. cbn [shr_m shr_r shr_s] in H1, H2, H3. subst r' s'.
  destruct mrs as [m r s]. cbn [shr_m shr_r shr_s loc_of_shr_record] in *.
  assert (Hcases :
    (r || s = false /\ A mod B = 0)
    \/ (r || s = true /\ A mod B <> 0)).
  { destruct r, s; cbn [orb]; [right | right | right | left];
      (split; [reflexivity |]); try exact Hl; apply Hl. }
  destruct Hcases as [[-> Hz] | [-> Hnz]]; destruct (Z.odd m).
  - split; [lia |]. apply Z.compare_eq_iff. lia.
  - lia.
  - split; [lia |]. apply Z.compare_gt_iff. lia.
  - split; [lia |]. apply Z.compare_lt_iff. lia.
Qed.

Lemma shr_iter_locates (n : nat) (mrs : shr_record) (A B : Z) :
  0 <= A -> 0 < B ->
  locates (shr_m mrs) (loc_of_shr_record mrs) A B ->
  locates (shr_m (Nat.iter n shr_1 mrs)) (loc_of_shr_record (Nat.iter n shr_1 mrs))
    A (B * 2 ^ Z.of_nat n).
Proof.
  intros HA HB H. induction n as [| n IH].
  - simpl. rewrite Z.mul_1_r. exact H.
  - rewrite Nat2Z.inj_succ, Z.pow_succ_r by lia. simpl Nat.iter.
    replace (B * (2 * 2 ^ Z.of_nat n)) with (2 * (B * 2 ^ Z.of_nat n)) by ring.
    apply shr_1_locates; [exact HA | | exact IH].
    apply Z.mul_pos_pos; [exact HB | apply Z.pow_pos_nonneg; lia].
Qed.

Lemma shr_locates (m e n : Z) (l : location) (A B : Z) (mrs : shr_record) (e' : Z) :
  0 <= A -> 0 < B -> locates m l A B ->
  shr (shr_record_of_loc m l) e n = (mrs, e') ->
  locates (shr_m mrs) (loc_of_shr_record mrs) A (B * 2 ^ Z.max 0 n)
  /\ e' = e + Z.max 0 n.
Proof.
  intros HA HB Hl Hs.
  assert (H0 : locates (shr_m (shr_record_of_loc m l))
                 (loc_of_shr_record (shr_record_of_loc m l)) A B)
    by (rewrite shr_m_of_loc, loc_of_record_of_loc; exact Hl).
  unfold shr in Hs. destruct n as [| p | p]; inversion Hs; subst.
  - simpl. rewrite Z.mul_1_r, Z.add_0_r. split; [exact H0 | reflexivity].
  - rewrite Z.max_r by lia. rewrite iter_pos_nat.
    split; [| reflexivity].
    rewrite <- (positive_nat_Z p). apply shr_iter_locates; assumption.
  - simpl. rewrite Z.mul_1_r, Z.add_0_r. split; [exact H0 | reflexivity].
Qed.

(** Rounding to nearest moves a located quotient by at most one half. *)
Lemma round_nearest_even_locates (m : Z) (l : location) (A B : Z) :
  0 < B -> locates m l A B ->
  - B <= 2 * (round_nearest_even m l * B - A) <= B.
Proof.
  intros HB [Hm Hl].
  pose proof (Z.div_mod A B ltac:(lia)) as Hdm.
  pose proof (Z.mod_pos_bound A B HB) as Hrho.
  rewrite <- Hm in Hdm.
  unfold round_nearest_even.
  assert (Hmul : m * B = B * m) by ring.
  destruct l as [| c]; [lia |].
  destruct Hl as [Hne Hc].
  destruct c.
  - apply Z.compare_eq_iff in Hc. destruct (Z.even m); [lia |].
    replace ((m + 1) * B) with (B * m + B) by ring. lia.
  - rewrite Z.compare_lt_iff in Hc. lia.
  - rewrite Z.compare_gt_iff in Hc.
    replace ((m + 1) * B) with (B * m + B) by ring. lia.
Qed.

Lemma new_location_locates (A B : Z) :
  0 <= A -> 0 < B ->
  locates (A / B) (new_location B (A mod B)) A B.
Proof.
  intros HA HB. split; [reflexivity |].
  pose proof (Z.mod_pos_bound A B HB) as Hrho.
  unfold new_location, new_location_even, new_location_odd.
  destruct (Z.even B) eqn:Hev.
  - destruct (Z.eqb_spec (A mod B) 0) as [Hz | Hnz]; [exact Hz |].
    split; [exact Hnz | reflexivity].
  - destruct (Z.eqb_spec (A mod B) 0) as [Hz | Hnz]; [exact Hz |].
    split; [exact Hnz |].
    assert (Hodd : Z.odd B = true) by (rewrite <- Z.negb_even, Hev; reflexivity).
    apply Z.odd_spec in Hodd. destruct Hodd as [k Hk].
    destruct (2 * (A mod B) + 1 ?= B) eqn:Hc.
    + rewrite Z.compare_eq_iff in Hc. apply Z.compare_lt_iff. lia.
    + rewrite Z.compare_lt_iff in Hc. apply Z.compare_lt_iff. lia.
    + rewrite Z.compare_gt_iff in Hc. apply Z.compare_gt_iff. lia.
Qed.

(** A rounded quotient [m1] of [D * P / H] within one half, for a power
    [P] above [H / 2]: dividing by [P] gives [D / H], exactly when [H]
    divides [D]. *)
Lemma floor_of_rounded (m1 D H P : Z) :
  0 <= D -> 0 < H -> H < 2 * P ->
  - H <= 2 * (m1 * H - D * P) <= H ->
  m1 / P = D / H /\ (m1 mod P = 0 <-> D mod H = 0).
Proof.
  intros HD HH HP Hb.
  pose proof (Z.div_mod D H ltac:(lia)) as Hdm.
  pose proof (Z.mod_pos_bound D H HH) as Hrho.
  set (j := D / H) in *. set (rho := D mod H) in *.
  assert (HPpos : 0 < P) by lia.
  destruct (Z.eq_dec rho 0) as [Hz | Hnz].
  - assert (Hm : m1 = j * P) by nia.
    subst m1. rewrite Z.div_mul by lia. rewrite Z.mod_mul by lia.
    split; [reflexivity | split; intros _; [exact Hz | reflexivity]].
  - assert (Hlo : j * P < m1) by nia.
    assert (Hhi : m1 < (j + 1) * P) by nia.
    assert (Hq : m1 / P = j).
    { symmetry. apply (Z.div_unique m1 P j (m1 - j * P)); lia. }
    split; [exact Hq |].
    split; intros Hm; [| contradiction].
    exfalso. pose proof (Z.div_mod m1 P ltac:(lia)) as Hm1. rewrite Hq, Hm in Hm1. lia.
Qed.

Lemma div_eucl_div_mod (a b : Z) : Z.div_eucl a b = (a / b, a mod b).
Proof. unfold Z.div, Z.modulo. destruct (Z.div_eucl a b); reflexivity. Qed.

(** The quotient and remainder computed for two 53-bit mantissas. *)
Lemma div_core_53 (m1 m2 : positive) (e1 e2 : Z) :
  Zpos (digits2_pos m1) = 53 -> Zpos (digits2_pos m2) = 53 ->
  -1000 <= e1 - e2 <= 1000 ->
  SFdiv_core_binary Num.prec Num.emax (Zpos m1) e1 (Zpos m2) e2
  = ((Zpos m1 * 2 ^ 53) / Zpos m2, e1 - e2 - 53,
     new_location (Zpos m2) ((Zpos m1 * 2 ^ 53) mod Zpos m2)).
Proof.
  intros H1 H2 He. unfold SFdiv_core_binary. cbn [Zdigits2].
  rewrite H1, H2, fexp_eq.
  replace (Z.min (Z.max (53 + e1 - (53 + e2) - 53) (-1074)) (e1 - e2))
    with (e1 - e2 - 53) by lia.
  replace (e1 - e2 - (e1 - e2 - 53)) with 53 by lia.
  cbv zeta. rewrite Z.shiftl_mul_pow2 by lia.
  rewrite div_eucl_div_mod. reflexivity.
Qed.

(** Rounding a located quotient of 53 or 54 digits: the rounded mantissa
    [m1], within one half of the quotient scaled by [2^n1], and what is
    returned (after a carry, [2^52] with the exponent raised). *)
Lemma round_aux_located (s : bool) (q e : Z) (l : location) (A B : Z) :
  0 <= A -> 0 < B -> locates q l A B ->
  2 ^ 52 <= q < 2 ^ 54 -> -1000 <= e <= 900 ->
  exists m1 n1 M E,
    (n1 = 0 \/ n1 = 1)
    /\ binary_round_aux Num.prec Num.emax s q e l = S754_finite s M E
    /\ - (B * 2 ^ n1) <= 2 * (m1 * (B * 2 ^ n1) - A) <= B * 2 ^ n1
    /\ ((Zpos M = m1 /\ E = e + n1)
        \/ (m1 = 2 * Zpos M /\ E = e + n1 + 1)).
Proof.
  intros HA HB Hl Hq He.
  assert (Hq0 : 0 < q) by (assert (0 < 2 ^ 52) by reflexivity; lia).
  assert (Hd : Zdigits2 q = 53 \/ Zdigits2 q = 54).
  { assert (H1 : 53 <= Zdigits2 q)
      by (apply (proj2 (Zdigits2_ge_iff q 53 ltac:(lia) ltac:(lia))); apply Hq).
    assert (H2 : Zdigits2 q <= 54)
      by (apply (proj2 (Zdigits2_le_iff q 54 ltac:(lia) ltac:(lia))); apply Hq).
    lia. }
  set (n1 := Zdigits2 q - 53).
  unfold binary_round_aux.
  destruct (shr_fexp Num.prec Num.emax q e l) as [mrs1 e1] eqn:E1.
  unfold shr_fexp in E1.
  pose proof E1 as E1'.
  apply (shr_locates q e _ l A B mrs1 e1 HA HB Hl) in E1.
  apply shr_spec in E1'; [| rewrite shr_m_of_loc; lia].
  rewrite shr_m_of_loc in E1'.
  rewrite fexp_eq in E1, E1'.
  replace (Z.max 0 (Z.max (Zdigits2 q + e - 53) (-1074) - e)) with n1 in E1, E1'
    by (unfold n1; lia).
  destruct E1 as [Hloc He1]. destruct E1' as [Hms _].
  assert (Hn1 : n1 = 0 \/ n1 = 1) by (unfold n1; lia).
  assert (HB1 : 0 < B * 2 ^ n1).
  { apply Z.mul_pos_pos; [exact HB | apply Z.pow_pos_nonneg; lia]. }
  assert (Hms_range : 2 ^ 52 <= shr_m mrs1 < 2 ^ 53).
  { rewrite Hms. destruct Hn1 as [Hn | Hn]; rewrite Hn.
    - rewrite Z.div_1_r.
      assert (q < 2 ^ 53)
        by (apply (proj1 (Zdigits2_le_iff q 53 ltac:(lia) ltac:(lia))); unfold n1 in Hn; lia).
      lia.
    - change (2 ^ 1) with 2.
      assert (2 ^ 53 <= q)
        by (apply (proj1 (Zdigits2_ge_iff q 54 ltac:(lia) ltac:(lia))); unfold n1 in Hn; lia).
      change (2 ^ 54) with (2 * 2 ^ 53) in Hq. change (2 ^ 53) with (2 * 2 ^ 52) in *.
      split; [apply Z.div_le_lower_bound; lia | apply Z.div_lt_upper_bound; lia]. }
  pose proof (round_nearest_even_locates _ _ _ _ HB1 Hloc) as Hrb.
  pose proof (round_nearest_even_bounds (shr_m mrs1) (loc_of_shr_record mrs1)) as Hr.
  set (m1 := round_nearest_even (shr_m mrs1) (loc_of_shr_record mrs1)) in *.
  assert (Hm1 : 2 ^ 52 <= m1 <= 2 ^ 53) by lia.
  assert (Hle971 : forall x, x <= e1 + 1 -> (x <=? Num.emax - Num.prec) = true).
  { intros x Hx. apply Z.leb_le. change (Num.emax - Num.prec) with 971. lia. }
  destruct (Z.eq_dec m1 (2 ^ 53)) as [Hcarry | Hnocarry].
  - (* carry: the rounded mantissa is 2^53 *)
    exists m1, n1, (Z.to_pos (2 ^ 52)), (e1 + 1).
    split; [exact Hn1 |]. split; [| split; [exact Hrb |]].
    + unfold shr_fexp. rewrite Hcarry.
      change (Zdigits2 (2 ^ 53)) with 54. rewrite fexp_eq.
      replace (Z.max (54 + e1 - 53) (-1074) - e1) with 1 by lia.
      cbn [shr_record_of_loc].
      change (2 ^ 53) with (2 ^ 52 * 2 ^ 1).
      rewrite shr_exact_record by lia.
      cbn [shr_m]. change (2 ^ 52) with 4503599627370496.
      rewrite (Hle971 (e1 + 1)) by lia. reflexivity.
    + right. rewrite Hcarry. split; [reflexivity | lia].
  - exists m1, n1, (Z.to_pos m1), e1.
    split; [exact Hn1 |]. split; [| split; [exact Hrb |]].
    + unfold shr_fexp.
      assert (Hdm1 : Zdigits2 m1 = 53).
      { apply Z.le_antisymm.
        - apply (proj2 (Zdigits2_le_iff m1 53 ltac:(lia) ltac:(lia))). lia.
        - apply (proj2 (Zdigits2_ge_iff m1 53 ltac:(lia) ltac:(lia))). apply Hm1. }
      rewrite Hdm1, fexp_eq.
      replace (Z.max (53 + e1 - 53) (-1074) - e1) with 0 by lia.
      cbn [shr_record_of_loc shr shr_m].
      destruct m1 as [| p | p] eqn:Ep; [lia | | lia].
      rewrite (Hle971 e1) by lia. reflexivity.
    + left. split; [apply Z2Pos.id; lia | lia].
Qed.

Lemma floor_mantissa_doubled (M P' : Z) :
  0 < P' ->
  (2 * M) / (2 * P') = M / P' /\ ((2 * M) mod (2 * P') = 0 <-> M mod P' = 0).
Proof.
  intros HP. split.
  - apply Z.div_mul_cancel_l; lia.
  - rewrite Z.mul_mod_distr_l by lia. lia.
Qed.

(** Dividing an integer below 2^53 by the milliseconds of an hour and
    taking [Math.floor] gives the integer quotient rounded down. *)
Lemma div_floor_hours (s : bool) (D : Z) :
  0 < D < 2 ^ 53 ->
  Num.floor (Num.div (canon s D) (Num.of_Z msPerHour))
  = Num.of_Z ((if s then - D else D) / msPerHour).
Proof.
  intros HD.
  destruct (canon_fields s D HD) as [mD [Hc [HmD HdD]]].
  rewrite Hc.
  change (Num.of_Z msPerHour) with (S754_finite false 7730941132800000 (-31)).
  change msPerHour with 3600000.
  pose proof (Zdigits2_pos D ltac:(lia)) as Hd.
  assert (Hd53 : Zdigits2 D <= 53) by (apply Zdigits2_le_iff; lia).
  set (kD := 53 - Zdigits2 D) in *.
  replace (Zdigits2 D - 53) with (- kD) by (unfold kD; lia).
  unfold Num.div, SFdiv.
  rewrite div_core_53; [| exact HdD | reflexivity | lia].
  rewrite xorb_false_r.
  set (A := Zpos mD * 2 ^ 53).
  set (B := 7730941132800000).
  assert (HB : B = 3600000 * 2 ^ 31) by reflexivity.
  assert (Hpk : 0 < 2 ^ kD) by (apply Z.pow_pos_nonneg; lia).
  assert (HmDr : 2 ^ 52 <= Zpos mD < 2 ^ 53).
  { split.
    - apply (proj1 (Zdigits2_ge_iff (Zpos mD) 53 ltac:(lia) ltac:(lia))).
      cbn [Zdigits2]. lia.
    - apply (proj1 (Zdigits2_le_iff (Zpos mD) 53 ltac:(lia) ltac:(lia))).
      cbn [Zdigits2]. lia. }
  assert (HA : 0 <= A) by (unfold A; lia).
  assert (Hq : 2 ^ 52 <= A / B < 2 ^ 54).
  { unfold A, B. split.
    - apply Z.div_le_lower_bound; [lia |].
      change (2 ^ 52) with 4503599627370496 in *.
      change (2 ^ 53) with 9007199254740992 in *. lia.
    - apply Z.div_lt_upper_bound; [lia |].
      change (2 ^ 54) with 18014398509481984.
      change (2 ^ 53) with 9007199254740992 in *. lia. }
  destruct (round_aux_located s (A / B) (- kD - -31 - 53) _ A B HA ltac:(unfold B; lia)
              (new_location_locates A B HA ltac:(unfold B; lia)) Hq ltac:(lia))
    as [m1 [n1 [M [E [Hn1 [Hr [Hb Hshape]]]]]]].
  fold B. rewrite Hr. clear Hr.
  set (e1 := - kD - -31 - 53 + n1) in *.
  assert (He1 : e1 < -20) by (unfold e1; lia).
  set (P := 2 ^ (- e1)).
  assert (HP : 0 < P) by (apply Z.pow_pos_nonneg; lia).
  (* the bound in terms of D and H *)
  assert (Hbound : - 3600000 <= 2 * (m1 * 3600000 - D * P) <= 3600000).
  { set (W := 2 ^ (31 + n1)).
    assert (HW : 0 < W) by (apply Z.pow_pos_nonneg; lia).
    assert (HBW : B * 2 ^ n1 = 3600000 * W).
    { unfold W. rewrite Z.pow_add_r by lia. rewrite HB. ring. }
    assert (HAW : A = D * P * W).
    { unfold A, P, W. rewrite HmD.
      rewrite <- !Z.mul_assoc, <- !Z.pow_add_r by lia.
      f_equal. f_equal. unfold e1. lia. }
    rewrite HBW, HAW in Hb.
    replace (m1 * (3600000 * W) - D * P * W) with ((m1 * 3600000 - D * P) * W) in Hb by ring.
    nia. }
  assert (H2P : 3600000 < 2 * P).
  { unfold P.
    assert (2 ^ 21 <= 2 ^ (- e1)) by (apply Z.pow_le_mono_r; lia).
    change (2 ^ 21) with 2097152 in *. lia. }
  destruct (floor_of_rounded m1 D 3600000 P ltac:(lia) ltac:(lia) H2P Hbound)
    as [Hfloor Hexact].
  (* what Math.floor reads off the result *)
  assert (Hread : E < 0 /\ Zpos M / 2 ^ (- E) = m1 / P
                  /\ (Zpos M mod 2 ^ (- E) = 0 <-> m1 mod P = 0)).
  { destruct Hshape as [[HM HE] | [HM HE]].
    - fold e1 in HE. subst E. rewrite HM. split; [lia |]. split; reflexivity.
    - fold e1 in HE. subst E. split; [lia |].
      assert (HP' : P = 2 * 2 ^ (- (e1 + 1))).
      { unfold P. rewrite <- Z.pow_succ_r by lia. f_equal. lia. }
      rewrite HM, HP'.
      destruct (floor_mantissa_doubled (Zpos M) (2 ^ (- (e1 + 1)))
                  ltac:(apply Z.pow_pos_nonneg; lia)) as [Hq2 Hm2].
      rewrite Hq2, Hm2. split; reflexivity. }
  destruct Hread as [HE [Hq' Hx']].
  unfold Num.floor.
  destruct (Z.leb_spec 0 E) as [HE0 | _]; [lia |].
  cbv zeta. rewrite Hq', Hfloor.
  destruct s.
  - destruct (Z.eqb_spec (Zpos M mod 2 ^ (- E)) 0) as [Hz | Hnz].
    + f_equal. rewrite Z.div_opp_l_z; [reflexivity | lia | apply Hexact, Hx', Hz].
    + f_equal. rewrite Z.div_opp_l_nz; [reflexivity | lia |].
      intros Hz. apply Hnz. apply Hx', Hexact, Hz.
  - reflexivity.
Qed.

(** [Math.floor((now - created) / (1000 * 60 * 60))] in binary64 is the
    exact number of whole hours, rounded down, for a clock reading up to
    the year 9999 and any time value [created]. *)
Lemma uptime_hours_exact (now created : Z) :
  Z.abs now <= max_clock -> Z.abs created <= max_time ->
  Num.floor (Num.div (Num.sub (Num.of_Z now) (Num.of_Z created)) (Num.of_Z msPerHour))
  = Num.of_Z ((now - created) / msPerHour).
Proof.
  intros Hn Hc. unfold max_clock, max_time in *.
  assert (H53 : 2 ^ 53 = 9007199254740992) by reflexivity.
  rewrite sub_of_Z by lia.
  destruct (Z.eq_dec (now - created) 0) as [Hz | Hnz].
  - rewrite Hz. reflexivity.
  - rewrite of_Z_canon by lia. rewrite div_floor_hours by lia.
    f_equal. f_equal.
    destruct (Z.ltb_spec (now - created) 0); lia.
Qed.

(** ** The derived uptime *)

Lemma sub_nan_r (x : Num.number) : Num.sub x Num.nan = Num.nan.
Proof. destruct x; reflexivity. Qed.

Lemma or_zero_of_Z (u : Z) : Z.abs u < 2 ^ 53 -> or_zero (Num.of_Z u) = Num.of_Z u.
Proof.
  intros Hu. destruct (Z.eq_dec u 0) as [-> | Hnz]; [reflexivity |].
  rewrite of_Z_canon by lia. reflexivity.
Qed.

Lemma of_Z_ge_zero (u : Z) :
  Z.abs u < 2 ^ 53 -> Num.ge (Num.of_Z u) Num.zero = (0 <=? u).
Proof.
  intros Hu. destruct (Z.eq_dec u 0) as [-> | Hnz]; [reflexivity |].
  rewrite of_Z_canon by lia. unfold canon, Num.ge, SFleb, Num.zero. cbn [SFcompare].
  destruct (Z.ltb_spec u 0) as [Hn | Hn]; destruct (Z.leb_spec 0 u); (reflexivity || lia).
Qed.

Lemma hours_range (now created : Z) :
  Z.abs now <= max_clock -> Z.abs created <= max_time ->
  Z.abs ((now - created) / msPerHour) <= max_uptime.
Proof.
  unfold max_clock, max_time, max_uptime. change msPerHour with 3600000.
  intros Hn Hc.
  assert (Hlo : -4800000000 <= (now - created) / 3600000)
    by (apply Z.div_le_lower_bound; lia).
  assert (Hhi : (now - created) / 3600000 <= 4800000000)
    by (apply Z.div_le_upper_bound; lia).
  lia.
Qed.

(** [calculateUptime] on a timestamp whose seconds are a string that is
    not empty. *)
Lemma calculateUptime_stamp (now : Z) (ts : Timestamp.t) (secs : string) :
  Timestamp.seconds ts = Some secs -> secs <> "" ->
  calculateUptime now (Some ts)
  = Num.floor
      (Num.div (Num.sub (Num.of_Z now) (getTime (created_time secs)))
         (Num.of_Z msPerHour)).
Proof.
  intros Hs Hne. unfold calculateUptime, created_time. rewrite Hs.
  destruct secs; [congruence | reflexivity].
Qed.

(** An invalid creation date gives NaN. *)
Lemma uptime_of_invalid_date (now : Z) :
  Num.floor (Num.div (Num.sub (Num.of_Z now) (getTime None)) (Num.of_Z msPerHour))
  = Num.nan.
Proof. cbn [getTime]. rewrite sub_nan_r. reflexivity. Qed.

(** For a clock reading up to the year 9999, the derived uptime
    [uptime || 0] is a whole number of hours, at most 4,800,000,000 in
    magnitude. *)
Lemma calculateUptime_range (now : Z) (createdAt : option Timestamp.t) :
  Z.abs now <= max_clock ->
  exists u, or_zero (calculateUptime now createdAt) = Num.of_Z u /\ Z.abs u <= max_uptime.
Proof.
  intros Hnow.
  assert (H0 : exists u, or_zero Num.zero = Num.of_Z u /\ Z.abs u <= max_uptime)
    by (exists 0; split; [reflexivity | unfold max_uptime; simpl; lia]).
  destruct createdAt as [ts |]; [| exact H0].
  destruct (Timestamp.seconds ts) as [secs |] eqn:Hs;
    [| unfold calculateUptime; rewrite Hs; exact H0].
  destruct secs as [| c rest] eqn:Hsecs;
    [unfold calculateUptime; rewrite Hs; exact H0 |].
  rewrite <- Hsecs in Hs.
  rewrite (calculateUptime_stamp now ts secs Hs) by (rewrite Hsecs; discriminate).
  destruct (created_time secs) as [created |] eqn:Ec.
  - apply TimeClip_range in Ec. cbn [getTime].
    rewrite uptime_hours_exact by assumption.
    pose proof (hours_range now created Hnow Ec) as Hr.
    exists ((now - created) / msPerHour). split; [| exact Hr].
    apply or_zero_of_Z. unfold max_uptime in Hr.
    change (2 ^ 53) with 9007199254740992. lia.
  - rewrite uptime_of_invalid_date. exact H0.
Qed.

(** The fields of a derived record. *)
Lemma analyzeRunner_fields (now : Z) (runner : Runner.t) (envs : list Environment.t)
    (m : RunnerMetrics) :
  analyzeRunner now runner envs = Normal m ->
  uptime m = or_zero (calculateUptime now (Runner.created_at runner))
  /\ environments m = runnerEnvironments runner envs
  /\ region m = getRegion runner.
Proof.
  unfold analyzeRunner.
  match goal with |- context [estimateCost ?x] => destruct (estimateCost x) end;
    simpl; intros H; inversion H; subst; simpl; auto.
Qed.

(** ** [JSON.parse] never runs out of fuel *)

Section JsonFuel.

Import Json.

Local Abbreviation len := String.length.

Lemma ws_length (s : string) : (len (ws s) <= len s)%nat.
Proof.
  induction s as [| c r IH]; simpl; [lia |].
  destruct (is_ws c); simpl; lia.
Qed.

Lemma tail_length (s : string) : (len (tail s) <= len s)%nat.
Proof. destruct s; simpl; lia. Qed.

Lemma starts_with_tail (n : Z) (s : string) :
  starts_with n s = true -> (len (tail s) < len s)%nat.
Proof. destruct s; simpl; [discriminate | lia]. Qed.

Lemma prepend_rest (t : string) (o : option (string * string)) (k r : string) :
  prepend t o = Some (k, r) -> exists k', o = Some (k', r).
Proof.
  destruct o as [[k' r'] |]; simpl; intros H; inversion H; subst.
  exists k'. reflexivity.
Qed.

Lemma string_body_shorter (n : nat) :
  forall s, (len s <= n)%nat ->
  forall k r, string_body s = Some (k, r) -> (len r < len s)%nat.
Proof.
  induction n as [| n IH]; intros s Hn k r H.
  - destruct s; [discriminate | simpl in Hn; lia].
  - destruct s as [| c s0]; [discriminate |].
    cbn [string_body] in H. simpl in Hn.
    assert (Hrec : forall t s', (len s' <= n)%nat ->
              prepend t (string_body s') = Some (k, r) -> (len r < len s')%nat).
    { intros t s' Hs' Hp. destruct (prepend_rest _ _ _ _ Hp) as [k' Hk'].
      apply (IH s' Hs' k' r Hk'). }
    destruct (Str.code c =? 34)%Z.
    { inversion H; subst. simpl. lia. }
    destruct (Str.code c =? 92)%Z.
    2:{ destruct (Str.code c <? 32)%Z; [discriminate |].
        apply Hrec in H; [simpl; lia | lia]. }
    destruct s0 as [| e r0]; [discriminate |].
    destruct (Str.code e =? 117)%Z.
    2:{ destruct (simple_escape e); [| discriminate].
        simpl in Hn. apply Hrec in H; [simpl; lia | lia]. }
    destruct r0 as [| a [| b [| c1 [| d r1]]]]; try discriminate.
    destruct (hex4 a b c1 d) as [cu |]; [| discriminate].
    simpl in Hn.
    destruct r1 as [| e' [| u' [| a' [| b' [| c' [| d' r2]]]]]];
      try (apply Hrec in H; [simpl in *; lia | simpl; lia]).
    destruct (surrogate_pair cu e' u' a' b' c' d').
    + apply Hrec in H; [simpl in *; lia | simpl in *; lia].
    + apply Hrec in H; [simpl in *; lia | simpl in *; lia].
Qed.

Lemma scan_radix_rest (rx : Z) (s : string) :
  forall acc cnt v c r,
  Str.scan_radix rx s acc cnt = (v, c, r) ->
  (len r <= len s)%nat /\ c = (cnt + Z.of_nat (len s - len r))%Z.
Proof.
  induction s as [| x s IH]; intros acc cnt v c r H; cbn [Str.scan_radix] in H.
  - inversion H; subst. simpl. lia.
  - destruct (Str.digit_value rx x).
    + apply IH in H. destruct H as [H1 H2]. cbn [String.length]. split; lia.
    + inversion H; subst. split; lia.
Qed.

Lemma scan_sign_rest (s r : string) (b : bool) :
  Str.scan_sign s = (b, r) -> (len r <= len s)%nat.
Proof.
  unfold Str.scan_sign. destruct s as [| c s']; intros H.
  - inversion H; subst. lia.
  - destruct (Str.code c =? 43)%Z; [inversion H; subst; simpl; lia |].
    destruct (Str.code c =? 45)%Z; inversion H; subst; simpl; lia.
Qed.

Lemma number_literal_shorter (s r : string) (x : Num.number) :
  number_literal s = Some (x, r) -> (len r < len s)%nat.
Proof.
  unfold number_literal, Str.scan_digits.
  set (s1 := if starts_with 45 s then tail s else s).
  assert (Hs1 : (len s1 <= len s)%nat).
  { unfold s1. destruct (starts_with 45 s); [apply tail_length | lia]. }
  destruct (Str.scan_radix 10 s1 0 0) as [[i ni] r1] eqn:E1.
  apply scan_radix_rest in E1. destruct E1 as [Hr1 Hni].
  destruct (Z.eqb_spec ni 0) as [Hz | Hnz]; [discriminate |].
  cbn [orb].
  destruct (starts_with 48 s1 && (1 <? ni)%Z); [discriminate |].
  assert (Hlt : (len r1 < len s)%nat) by lia.
  intros H.
  assert (Hfrac : forall m nf r2,
            (if starts_with 46 r1
             then let '(m, nf, r2) := Str.scan_radix 10 (tail r1) i 0 in
                  if (nf =? 0)%Z then None else Some (m, nf, r2)
             else Some (i, 0%Z, r1)) = Some (m, nf, r2) ->
            (len r2 <= len r1)%nat).
  { intros m nf r2 Hf. destruct (starts_with 46 r1).
    - destruct (Str.scan_radix 10 (tail r1) i 0) as [[m' nf'] r2'] eqn:E2.
      apply scan_radix_rest in E2. destruct E2 as [Hr2 _].
      destruct (nf' =? 0)%Z; [discriminate |]. inversion Hf; subst.
      pose proof (tail_length r1). lia.
    - inversion Hf; subst. lia. }
  destruct (if starts_with 46 r1
            then let '(m, nf, r2) := Str.scan_radix 10 (tail r1) i 0 in
                 if (nf =? 0)%Z then None else Some (m, nf, r2)
            else Some (i, 0%Z, r1)) as [[[m nf] r2] |]; [| discriminate].
  specialize (Hfrac m nf r2 eq_refl).
  destruct (starts_with 101 r2 || starts_with 69 r2).
  - destruct (Str.scan_sign (tail r2)) as [eneg r4] eqn:E4.
    apply scan_sign_rest in E4.
    destruct (Str.scan_radix 10 r4 0 0) as [[ex ne] r5] eqn:E5.
    apply scan_radix_rest in E5. destruct E5 as [Hr5 _].
    destruct (ne =? 0)%Z; [discriminate |]. inversion H; subst.
    pose proof (tail_length r2). lia.
  - inversion H; subst. lia.
Qed.

Lemma prefix_length (a b : string) : String.prefix a b = true -> (len a <= len b)%nat.
Proof.
  revert b. induction a as [| x a IH]; intros b H; simpl; [lia |].
  destruct b as [| y b]; simpl in H; [discriminate |].
  destruct (Ascii.ascii_dec x y); [| discriminate].
  apply IH in H. simpl. lia.
Qed.

Lemma drop_length (n : nat) (s : string) : len (drop n s) = (len s - n)%nat.
Proof.
  revert s. induction n as [| n IH]; intros s; simpl.
  - destruct s; simpl; lia.
  - destruct s as [| c r]; simpl; [reflexivity | apply IH].
Qed.

Lemma keyword_shorter (kw : string) (v w : JsValue) (s r : string) :
  kw <> "" -> keyword kw v s = Ok w r -> (len r < len s)%nat.
Proof.
  intros Hkw. unfold keyword.
  destruct (String.prefix kw s) eqn:Hp; [| discriminate].
  intros H. inversion H; subst. rewrite drop_length.
  apply prefix_length in Hp. destruct kw; [congruence |]. simpl in *. lia.
Qed.

(** With fuel above twice the length of the text, [value], [elements]
    and [members] return before the fuel is used up, and what they leave
    unread is shorter than what they were given. *)
Lemma fuel_enough (fuel : nat) :
  (forall s, (2 * len s + 1 <= fuel)%nat ->
     value fuel s <> OutOfFuel
     /\ forall v r, value fuel s = Ok v r -> (len r < len s)%nat)
  /\ (forall s acc, (2 * len s + 2 <= fuel)%nat ->
        elements fuel s acc <> OutOfFuel
        /\ forall v r, elements fuel s acc = Ok v r -> (len r < len s)%nat)
  /\ (forall s acc, (2 * len s + 2 <= fuel)%nat ->
        members fuel s acc <> OutOfFuel
        /\ forall v r, members fuel s acc = Ok v r -> (len r < len s)%nat).
Proof.
  induction fuel as [| f [IHv [IHe IHm]]].
  - repeat split; intros; lia.
  - split; [| split].
    + intros s Hs. cbn [value].
      pose proof (ws_length s) as Hws.
      destruct (ws s) as [| c r] eqn:Ews; [split; [discriminate | intros; discriminate] |].
      simpl in Hws.
      pose proof (ws_length r) as Hwr.
      cbv zeta.
      destruct (Str.code c =? 123)%Z.
      { destruct (starts_with 125 (ws r)) eqn:Hb.
        - split; [discriminate |]. intros v r' H. inversion H; subst.
          pose proof (tail_length (ws r)). lia.
        - destruct (IHm (ws r) [] ltac:(lia)) as [H1 H2].
          split; [exact H1 |]. intros v r' H. apply H2 in H. lia. }
      destruct (Str.code c =? 91)%Z.
      { destruct (starts_with 93 (ws r)) eqn:Hb.
        - split; [discriminate |]. intros v r' H. inversion H; subst.
          pose proof (tail_length (ws r)). lia.
        - destruct (IHe (ws r) [] ltac:(lia)) as [H1 H2].
          split; [exact H1 |]. intros v r' H. apply H2 in H. lia. }
      destruct (Str.code c =? 34)%Z.
      { destruct (string_body r) as [[t r'] |] eqn:Eb;
          [| split; [discriminate | intros; discriminate]].
        split; [discriminate |]. intros v r0 H. inversion H; subst.
        apply (string_body_shorter (len r) r (le_n _)) in Eb. lia. }
      assert (Hkw : forall kw v0, kw <> "" ->
                keyword kw v0 (String c r) <> OutOfFuel
                /\ forall v r', keyword kw v0 (String c r) = Ok v r' -> (len r' < len s)%nat).
      { intros kw v0 Hne. split.
        - unfold keyword. destruct (String.prefix kw (String c r)); discriminate.
        - intros v r' H. apply keyword_shorter in H; [simpl in H; lia | exact Hne]. }
      destruct (Str.code c =? 116)%Z; [apply Hkw; discriminate |].
      destruct (Str.code c =? 102)%Z; [apply Hkw; discriminate |].
      destruct (Str.code c =? 110)%Z; [apply Hkw; discriminate |].
      destruct (number_literal (String c r)) as [[x r'] |] eqn:En;
        [| split; [discriminate | intros; discriminate]].
      split; [discriminate |]. intros v r0 H. inversion H; subst.
      apply number_literal_shorter in En. simpl in En. lia.
    + intros s acc Hs. cbn [elements].
      destruct (IHv s ltac:(lia)) as [Hv1 Hv2].
      destruct (value f s) as [v r | |] eqn:Ev;
        [| split; [discriminate | intros; discriminate] | congruence].
      specialize (Hv2 v r eq_refl).
      pose proof (ws_length r) as Hwr.
      destruct (starts_with 44 (ws r)) eqn:Hc.
      { apply starts_with_tail in Hc.
        destruct (IHe (tail (ws r)) (v :: acc) ltac:(lia)) as [H1 H2].
        split; [exact H1 |]. intros v' r' H. apply H2 in H. lia. }
      destruct (starts_with 93 (ws r)) eqn:Hb;
        [| split; [discriminate | intros; discriminate]].
      split; [discriminate |]. intros v' r' H. inversion H; subst.
      pose proof (tail_length (ws r)). lia.
    + intros s acc Hs. cbn [members].
      pose proof (ws_length s) as Hws.
      destruct (starts_with 34 (ws s)) eqn:Hq;
        [| split; [discriminate | intros; discriminate]].
      apply starts_with_tail in Hq.
      destruct (string_body (tail (ws s))) as [[k r1] |] eqn:Eb;
        [| split; [discriminate | intros; discriminate]].
      apply (string_body_shorter _ _ (le_n _)) in Eb.
      pose proof (ws_length r1) as Hw1.
      destruct (starts_with 58 (ws r1)) eqn:Hc;
        [| split; [discriminate | intros; discriminate]].
      apply starts_with_tail in Hc.
      destruct (IHv (tail (ws r1)) ltac:(lia)) as [Hv1 Hv2].
      destruct (value f (tail (ws r1))) as [v r3 | |] eqn:Ev;
        [| split; [discriminate | intros; discriminate] | congruence].
      specialize (Hv2 v r3 eq_refl).
      pose proof (ws_length r3) as Hw3.
      destruct (starts_with 44 (ws r3)) eqn:Hcomma.
      { apply starts_with_tail in Hcomma.
        destruct (IHm (tail (ws r3)) (set_property acc k v) ltac:(lia)) as [H1 H2].
        split; [exact H1 |]. intros v' r' H. apply H2 in H. lia. }
      destruct (starts_with 125 (ws r3)) eqn:Hb;
        [| split; [discriminate | intros; discriminate]].
      split; [discriminate |]. intros v' r' H. inversion H; subst.
      pose proof (tail_length (ws r3)). lia.
Qed.

(** Parsing a text of [n] characters needs no more than [2 n + 1]
    nested calls: [value] never runs out of the fuel that [parse] gives
    it, so [parse] rejects a text for its syntax only. *)
Lemma value_fuel_enough (text : string) : value (parse_fuel text) text <> OutOfFuel.
Proof.
  apply (proj1 (fuel_enough (parse_fuel text))). unfold parse_fuel. lia.
Qed.

End JsonFuel.

(** * Properties *)

(** ** Cost of LOCAL runners *)

(** C1: a record of kind RUNNER_KIND_LOCAL costs exactly 0, whatever its
    uptime, environments and system details are. *)
Theorem estimateCost_local_is_zero (m : RunnerMetrics) :
  kind m = "RUNNER_KIND_LOCAL" -> estimateCost m = Normal Num.zero.
Proof.
  intros Hk. unfold estimateCost. rewrite Hk. reflexivity.
Qed.

Lemma estimateCost_local_is_zero_witness :
  estimateCost
    (metrics_of "RUNNER_KIND_LOCAL" 1000
       (Json.JObj [("instanceType", Json.JObj [("toString", Json.JNull)])])
       [environment_on "e-1" "r"; environment_on "e-2" "r"])
  = Normal Num.zero.
Proof.
  apply estimateCost_local_is_zero. reflexivity.
Defined.

(** ** Sign and finiteness of the cost *)

(** X2: derivation produces such an uptime: for a clock reading up to
    the year 9999, the uptime of a derived record is a whole number of
    hours, at most 4,800,000,000 in magnitude (never NaN, never a
    fraction). *)
Lemma analyzeRunner_uptime_range (now : Z) (runner : Runner.t)
    (envs : list Environment.t) (m : RunnerMetrics) :
  Z.abs now <= max_clock ->
  analyzeRunner now runner envs = Normal m ->
  exists hours, uptime m = Num.of_Z hours /\ Z.abs hours <= max_uptime.
Proof.
  intros Hnow Hm.
  destruct (analyzeRunner_fields now runner envs m Hm) as [-> _].
  apply calculateUptime_range. exact Hnow.
Qed.

Lemma analyzeRunner_uptime_range_witness :
  exists m hours,
    analyzeRunner now_2024 runner_future [] = Normal m
    /\ uptime m = Num.of_Z hours /\ Z.abs hours <= max_uptime.
Proof.
  destruct (analyzeRunner now_2024 runner_future []) as [m |] eqn:Hm;
    [| vm_compute in Hm; discriminate].
  destruct (analyzeRunner_uptime_range now_2024 runner_future [] m) as [hours Hh].
  - vm_compute. discriminate.
  - exact Hm.
  - exists m, hours. split; [reflexivity | exact Hh].
Defined.

(** C2 (amended): for a record whose uptime is one that derivation can
    produce (a whole number of hours, at most 4,800,000,000 in
    magnitude), with fewer than 2^32 environments and an instance type
    that converts to a property key, [estimateCost] returns a finite
    number, never NaN, and that number is >= 0 whenever the uptime is
    >= 0.  This holds for every kind and for all system details, parsed,
    empty or wrapped. *)
Theorem estimateCost_finite_nonneg (m : RunnerMetrics) (hours : Z) (key : string) :
  uptime m = Num.of_Z hours ->
  Z.abs hours <= max_uptime ->
  Z.of_nat (List.length (environments m)) < 2 ^ 32 ->
  Json.ToPropertyKey (instanceType m) = Normal key ->
  exists c,
    estimateCost m = Normal c
    /\ Num.isNaN c = false
    /\ Num.isFinite c = true
    /\ (0 <= hours -> Num.ge c Num.zero = true).
Proof.
  intros Hu Hh Hc Hk. unfold estimateCost.
  destruct (String.eqb (kind m) "RUNNER_KIND_LOCAL").
  - exists Num.zero. repeat split; reflexivity.
  - rewrite Hk, Hu. cbn [bind]. eexists. split; [reflexivity |].
    apply meteredCost_finite; assumption.
Qed.

Lemma estimateCost_finite_nonneg_witness :
  exists c,
    estimateCost
      (metrics_of "RUNNER_KIND_REMOTE" 10 (parseSystemDetails (Some "{not json"))
         [environment_on "e-1" "r"; environment_on "e-2" "r"])
    = Normal c
    /\ Num.isNaN c = false
    /\ Num.isFinite c = true
    /\ (0 <= 10 -> Num.ge c Num.zero = true).
Proof.
  apply (estimateCost_finite_nonneg
           (metrics_of "RUNNER_KIND_REMOTE" 10 (parseSystemDetails (Some "{not json"))
              [environment_on "e-1" "r"; environment_on "e-2" "r"])
           10 "default").
  - reflexivity.
  - vm_compute. discriminate.
  - vm_compute. reflexivity.
  - vm_compute. reflexivity.
Defined.

(** C2, as stated, fails: a runner created five hours after the clock
    reading gets uptime -5 and the cost -0.21, which is not >= 0. *)
Lemma estimateCost_negative_for_future_creation :
  exists m,
    analyzeRunner now_2024 runner_future [] = Normal m
    /\ uptime m = Num.of_Z (-5)
    /\ estimateCost m = Normal (Str.StringToNumber "-0.21")
    /\ estimatedCost m = Some (Str.StringToNumber "-0.21")
    /\ Num.ge (Str.StringToNumber "-0.21") Num.zero = false.
Proof.
  eexists. split; [vm_compute; reflexivity |].
  repeat split; vm_compute; reflexivity.
Qed.

(** X1: an instance type that is an object with an own [toString]
    property cannot be used as the key of [hourlyRates].  No value of
    parsed JSON is a function, so the conversion to a property key finds
    no method that answers a primitive and throws a TypeError.  For every
    record of a kind other than LOCAL with such an instance type
    [estimateCost] throws a TypeError, and so does [analyzeRunner] for
    every runner of a kind other than LOCAL whose system details hold
    one, such as [{"instanceType":{"toString":null}}].  (A LOCAL record
    costs 0 before the key is looked at.) *)
Theorem estimateCost_throws_on_toString_object
    (fields : list (string * Json.JsValue)) (v : Json.JsValue) :
  Json.own_property fields "toString" = Some v ->
  (forall m,
     kind m <> "RUNNER_KIND_LOCAL" ->
     instanceType_of (systemDetails m) = Some (Json.JObj fields) ->
     estimateCost m = Throw TypeError)
  /\ (forall now runner envs,
        Runner.kind runner <> Some "RUNNER_KIND_LOCAL" ->
        instanceType_of
          (parseSystemDetails
             match Runner.status runner with
             | Some st => RunnerStatus.system_details st
             | None => None
             end)
        = Some (Json.JObj fields) ->
        analyzeRunner now runner envs = Throw TypeError).
Proof.
  intros Hown.
  assert (Hcost : forall m,
            kind m <> "RUNNER_KIND_LOCAL" ->
            instanceType_of (systemDetails m) = Some (Json.JObj fields) ->
            estimateCost m = Throw TypeError).
  { intros m Hkind Hit. unfold estimateCost.
    destruct (String.eqb_spec (kind m) "RUNNER_KIND_LOCAL") as [Heq | _]; [contradiction |].
    unfold instanceType. rewrite Hit. cbn [Json.truthy].
    unfold Json.ToPropertyKey. cbn [Json.ToString]. rewrite Hown. reflexivity. }
  split; [exact Hcost |].
  intros now runner envs Hkind Hit. unfold analyzeRunner. cbv zeta.
  rewrite Hcost; [reflexivity | | exact Hit].
  cbn [kind]. unfold or_string.
  destruct (Runner.kind runner) as [k |]; [| discriminate].
  destruct k as [| c k]; [discriminate |]. cbn [Str.truthy].
  intros Heq. apply Hkind. rewrite Heq. reflexivity.
Qed.

Lemma estimateCost_throws_on_toString_object_witness :
  Json.parse ("{" ++ dq ++ "instanceType" ++ dq ++ ":{" ++ dq ++ "toString" ++ dq ++ ":null}}")
  = Normal details_toString
  /\ estimateCost (metrics_of "RUNNER_KIND_REMOTE" 10 details_toString []) = Throw TypeError
  /\ analyzeRunner now_2024 runner_broken example_environments = Throw TypeError.
Proof.
  split; [vm_compute; reflexivity |].
  destruct (estimateCost_throws_on_toString_object [("toString", Json.JNull)] Json.JNull eq_refl)
    as [Hcost Hrunner].
  split.
  - apply Hcost; [discriminate | reflexivity].
  - apply Hrunner; [discriminate | vm_compute; reflexivity].
Defined.

(** An instance type that is a string, a number, a boolean or [null]
    always converts to a property key. *)
Lemma ToPropertyKey_primitive (v : Json.JsValue) :
  match v with
  | Json.JArr _ | Json.JObj _ => True
  | _ => exists key, Json.ToPropertyKey v = Normal key
  end.
Proof.
  destruct v; try exact I; eexists; reflexivity.
Qed.

(** ** Region resolution *)

(** C4: the status region wins when present; otherwise the configured
    region when present; otherwise "unknown".  Present means defined and
    not the empty string (what [||] tests). *)
Theorem getRegion_precedence (runner : Runner.t) :
  (forall s, status_region runner = Some s -> s <> "" -> getRegion runner = s)
  /\ (absent (status_region runner) ->
      forall s, spec_region runner = Some s -> s <> "" -> getRegion runner = s)
  /\ (absent (status_region runner) -> absent (spec_region runner) ->
      getRegion runner = "unknown")
  /\ (status_region runner_two_regions = Some "us-east"
      /\ spec_region runner_two_regions = Some "eu-west"
      /\ getRegion runner_two_regions = "us-east").
Proof.
  unfold getRegion, or_else, or_string, absent.
  repeat split.
  - intros s Hs Hne. rewrite Hs. destruct s; [congruence | reflexivity].
  - intros [Ha | Ha] s Hs Hne; rewrite Ha, Hs; destruct s; simpl; congruence.
  - intros [Ha | Ha] [Hb | Hb]; rewrite Ha, Hb; reflexivity.
Qed.

(** ** Unknown kinds are metered *)

Lemma eqb_local_false (k : string) :
  k <> "RUNNER_KIND_LOCAL" -> String.eqb k "RUNNER_KIND_LOCAL" = false.
Proof.
  intros H. apply String.eqb_neq. exact H.
Qed.

(** C7: a record whose kind is not RUNNER_KIND_LOCAL, REMOTE or not, is
    priced by the metered path: key of the instance type, rate lookup,
    base cost plus environment surcharge.  Its cost is the cost of the
    same record with kind RUNNER_KIND_REMOTE, and the zero branch is taken
    by LOCAL records only. *)
Theorem estimateCost_unknown_kind_metered (m : RunnerMetrics) :
  kind m <> "RUNNER_KIND_LOCAL" ->
  estimateCost m
  = (let* key := Json.ToPropertyKey (instanceType m) in
     Normal (meteredCost (uptime m) (List.length (environments m)) (hourlyRate key)))
  /\ estimateCost m = estimateCost (set_kind "RUNNER_KIND_REMOTE" m).
Proof.
  intros Hk. unfold estimateCost.
  rewrite (eqb_local_false _ Hk). split; reflexivity.
Qed.

Lemma estimateCost_unknown_kind_metered_witness :
  let m := metrics_of "RUNNER_KIND_UNSPECIFIED" 10
             (Json.JObj [("instanceType", Json.JStr "t3.large")])
             [environment_on "e-1" "r"; environment_on "e-2" "r"] in
  estimateCost m = Normal (Num.of_decimal false 283 (-2))
  /\ estimateCost m = estimateCost (set_kind "RUNNER_KIND_REMOTE" m).
Proof.
  intros m.
  destruct (estimateCost_unknown_kind_metered m) as [H1 H2].
  - unfold m. simpl. discriminate.
  - split; [rewrite H1; vm_compute; reflexivity | exact H2].
Defined.

(** ** System details *)

(** C8: a non-empty string that [JSON.parse] rejects yields the fallback
    [{raw: details}]; no error reaches the caller, [parseSystemDetails]
    returning a value on every input.  The string "{not json" is such an
    input. *)
Theorem parseSystemDetails_fallback (details : string) (e : JsError) :
  details <> "" ->
  Json.parse details = Throw e ->
  parseSystemDetails (Some details) = wrapped_raw details.
Proof.
  intros Hne Hp. unfold parseSystemDetails.
  destruct details as [| c r]; [congruence |].
  simpl negb. cbv iota. rewrite Hp. reflexivity.
Qed.

Lemma parseSystemDetails_fallback_witness :
  parseSystemDetails (Some "{not json") = wrapped_raw "{not json".
Proof.
  apply (parseSystemDetails_fallback "{not json" SyntaxError).
  - discriminate.
  - vm_compute. reflexivity.
Defined.

(** C8, as stated, fails on the empty string: [JSON.parse("")] throws a
    SyntaxError, and the result is [{}], not [{raw: ""}]. *)
Lemma parseSystemDetails_empty_not_wrapped :
  Json.parse "" = Throw SyntaxError
  /\ parseSystemDetails (Some "") <> wrapped_raw "".
Proof.
  split; [vm_compute; reflexivity | vm_compute; discriminate].
Qed.

(** C10: the empty string is not valid JSON, yet it yields the empty
    object and not [{raw: ""}]; the fallback is produced for non-empty
    strings only, and a string that parses yields its parsed value. *)
Theorem parseSystemDetails_empty_is_empty_object :
  Json.parse "" = Throw SyntaxError
  /\ parseSystemDetails (Some "") = Json.JObj []
  /\ parseSystemDetails None = Json.JObj []
  /\ (forall d, parseSystemDetails (Some d) = wrapped_raw d -> d <> "")
  /\ (forall d v, d <> "" -> Json.parse d = Normal v -> parseSystemDetails (Some d) = v).
Proof.
  split; [vm_compute; reflexivity |].
  split; [reflexivity |].
  split; [reflexivity |].
  split.
  - intros d H Hd. subst d. vm_compute in H. discriminate.
  - intros d v Hne Hp. unfold parseSystemDetails.
    destruct d as [| c r]; [congruence |].
    simpl negb. cbv iota. rewrite Hp. reflexivity.
Qed.

(** ** Uptime *)

Lemma msPerHour_pos : 0 < msPerHour.
Proof. reflexivity. Qed.

(** C3 (amended): for a clock reading up to the year 9999, the uptime is
    the number of whole hours from the creation time to [now], rounded
    down: 0 when [createdAt] is missing or its seconds are missing or
    empty, 0 for an invalid creation date (NaN, which [uptime || 0] turns
    into 0), and otherwise the integer [u] with
    [u hours <= now - created < (u + 1) hours].  It is non-negative
    exactly when the creation time is not after [now]; a creation time in
    the future gives a negative uptime. *)
Theorem calculateUptime_whole_hours (now : Z) (createdAt : option Timestamp.t) :
  Z.abs now <= max_clock ->
  (createdAt = None -> calculateUptime now createdAt = Num.zero)
  /\ (forall ts, createdAt = Some ts -> absent (Timestamp.seconds ts) ->
      calculateUptime now createdAt = Num.zero)
  /\ (forall ts secs, createdAt = Some ts -> Timestamp.seconds ts = Some secs ->
      secs <> "" -> created_time secs = None ->
      calculateUptime now createdAt = Num.nan
      /\ or_zero (calculateUptime now createdAt) = Num.zero)
  /\ (forall ts secs created, createdAt = Some ts -> Timestamp.seconds ts = Some secs ->
      secs <> "" -> created_time secs = Some created ->
      exists u,
        calculateUptime now createdAt = Num.of_Z u
        /\ or_zero (calculateUptime now createdAt) = Num.of_Z u
        /\ msPerHour * u <= now - created < msPerHour * (u + 1)
        /\ (0 <= u <-> created <= now)
        /\ (u < 0 <-> now < created)
        /\ Num.ge (Num.of_Z u) Num.zero = (0 <=? u))
  /\ (forall runner envs m, Runner.created_at runner = createdAt ->
      analyzeRunner now runner envs = Normal m ->
      uptime m = or_zero (calculateUptime now createdAt)).
Proof.
  intros Hnow.
  split; [intros ->; reflexivity |].
  split.
  { intros ts -> [Ha | Ha]; unfold calculateUptime; rewrite Ha; reflexivity. }
  split.
  { intros ts secs -> Hs Hne Hc.
    rewrite (calculateUptime_stamp now ts secs Hs Hne), Hc, uptime_of_invalid_date.
    split; reflexivity. }
  split.
  { intros ts secs created -> Hs Hne Hc.
    exists ((now - created) / msPerHour).
    rewrite (calculateUptime_stamp now ts secs Hs Hne), Hc. cbn [getTime].
    pose proof (TimeClip_range _ _ Hc) as Hcr.
    rewrite (uptime_hours_exact now created Hnow Hcr).
    pose proof (hours_range now created Hnow Hcr) as Hr.
    assert (H53 : Z.abs ((now - created) / msPerHour) < 2 ^ 53).
    { unfold max_uptime in Hr. change (2 ^ 53) with 9007199254740992. lia. }
    rewrite (or_zero_of_Z _ H53), (of_Z_ge_zero _ H53).
    pose proof msPerHour_pos as Hpos.
    pose proof (Z.mul_div_le (now - created) msPerHour Hpos) as Hlo.
    pose proof (Z.mul_succ_div_gt (now - created) msPerHour Hpos) as Hhi.
    clear Hr H53.
    change msPerHour with 3600000 in *.
    generalize dependent ((now - created) / 3600000). intros u Hlo Hhi.
    repeat split; lia. }
  intros runner envs m <- Hm.
  apply (analyzeRunner_fields now runner envs m Hm).
Qed.

Lemma calculateUptime_whole_hours_witness :
  Z.abs 36000000 <= max_clock
  /\ exists u,
       calculateUptime 36000000 (stamp "18000") = Num.of_Z u
       /\ or_zero (calculateUptime 36000000 (stamp "18000")) = Num.of_Z u
       /\ msPerHour * u <= 36000000 - 18000000 < msPerHour * (u + 1)
       /\ (0 <= u <-> 18000000 <= 36000000)
       /\ (u < 0 <-> 36000000 < 18000000)
       /\ Num.ge (Num.of_Z u) Num.zero = (0 <=? u).
Proof.
  assert (Hnow : Z.abs 36000000 <= max_clock) by (vm_compute; discriminate).
  split; [exact Hnow |].
  destruct (calculateUptime_whole_hours 36000000 (stamp "18000") Hnow)
    as [_ [_ [_ [H _]]]].
  apply (H {| Timestamp.seconds := Some "18000"; Timestamp.nanos := 0 |} "18000" 18000000).
  - reflexivity.
  - reflexivity.
  - discriminate.
  - vm_compute. reflexivity.
Defined.

(** C3, as stated, fails: for a creation time five hours after [now] the
    derived uptime is -5, not 0. *)
Lemma uptime_negative_for_future_creation :
  calculateUptime now_2024 (Runner.created_at runner_future) = Num.of_Z (-5)
  /\ exists m,
       analyzeRunner now_2024 runner_future [] = Normal m
       /\ uptime m = Num.of_Z (-5)
       /\ Num.ge (uptime m) Num.zero = false.
Proof.
  split; [vm_compute; reflexivity |].
  eexists. split; [vm_compute; reflexivity |]. split; vm_compute; reflexivity.
Qed.

(** ** Environment attachment *)

Lemma strict_eq_true (a b : option string) : strict_eq a b = true <-> a = b.
Proof.
  destruct a as [x |], b as [y |]; simpl; split; intros H;
    try discriminate; try reflexivity.
  - apply String.eqb_eq in H. congruence.
  - inversion H. apply String.eqb_refl.
Qed.

Lemma filter_disjoint_perm {A : Type} (p q : A -> bool) (l : list A) :
  (forall x, p x = true -> q x = false) ->
  Permutation (filter p l ++ filter q l) (filter (fun x => p x || q x) l).
Proof.
  intros Hd. induction l as [| x l IH]; simpl; [constructor |].
  destruct (p x) eqn:Hp; simpl.
  - rewrite (Hd x Hp). simpl. constructor. exact IH.
  - destruct (q x); simpl; [| exact IH].
    apply Permutation_sym. apply Permutation_cons_app.
    apply Permutation_sym. exact IH.
Qed.

Lemma matches_some_false (runner : Runner.t) (runners : list Runner.t)
    (env : Environment.t) :
  ~ In (Runner.runner_id runner) (map Runner.runner_id runners) ->
  matches env runner = true -> matches_some runners env = false.
Proof.
  intros Hnin Hm. unfold matches_some.
  destruct (existsb (matches env) runners) eqn:He; [| reflexivity].
  apply existsb_exists in He. destruct He as [r [Hin Hr]].
  unfold matches in *. apply strict_eq_true in Hm. apply strict_eq_true in Hr.
  exfalso. apply Hnin. rewrite <- Hm, Hr. apply in_map. exact Hin.
Qed.

Lemma attached_partition (runners : list Runner.t) (envs : list Environment.t) :
  NoDup (map Runner.runner_id runners) ->
  Permutation (List.concat (map (fun r => runnerEnvironments r envs) runners))
    (filter (matches_some runners) envs).
Proof.
  induction runners as [| r rs IH]; intros Hnd; simpl.
  - induction envs as [| e es IHe]; simpl; [constructor | exact IHe].
  - inversion Hnd as [| id ids Hnin Hnd']; subst.
    eapply Permutation_trans.
    + apply Permutation_app_head. apply IH. exact Hnd'.
    + apply (filter_disjoint_perm (fun e => matches e r) (matches_some rs)).
      intros e He. apply (matches_some_false r rs e Hnin He).
Qed.

Lemma analyzeRunners_environments (clock : nat -> Z) (runners : list Runner.t)
    (envs : list Environment.t) :
  forall i ms, analyzeRunners clock i runners envs = Normal ms ->
  map environments ms = map (fun r => runnerEnvironments r envs) runners.
Proof.
  induction runners as [| r rs IH]; intros i ms H; simpl in H.
  - inversion H. reflexivity.
  - destruct (analyzeRunner (clock i) r envs) as [m |] eqn:Hm; simpl in H; [| discriminate].
    destruct (analyzeRunners clock (S i) rs envs) as [ms' |] eqn:Hms; simpl in H;
      [| discriminate].
    inversion H; subst. simpl.
    rewrite (IH _ _ Hms).
    destruct (analyzeRunner_fields _ _ _ _ Hm) as [_ [He _]]. rewrite He. reflexivity.
Qed.

Lemma nth_error_runner_ids (runners : list Runner.t) (envs : list Environment.t) :
  forall j l, nth_error (map (fun r => runnerEnvironments r envs) runners) j = Some l ->
  exists r, nth_error runners j = Some r /\ l = runnerEnvironments r envs.
Proof.
  intros j l H. rewrite nth_error_map in H.
  destruct (nth_error runners j) as [r |]; simpl in H; [| discriminate].
  inversion H. exists r. split; reflexivity.
Qed.

(** C5: for runners with pairwise distinct ids the per-runner environment
    lists partition the matching environments: put together they are,
    up to order, exactly the input environments whose runner id is the id
    of some runner; an environment matching no runner is in none of them;
    and no environment is in the lists of two different records. *)
Theorem environments_partition (clock : nat -> Z) (i : nat) (runners : list Runner.t)
    (envs : list Environment.t) :
  NoDup (map Runner.runner_id runners) ->
  let attached := map (fun r => runnerEnvironments r envs) runners in
  (forall ms, analyzeRunners clock i runners envs = Normal ms ->
     map environments ms = attached)
  /\ Permutation (List.concat attached) (filter (matches_some runners) envs)
  /\ (forall e, In e (List.concat attached) <->
        In e envs
        /\ exists r, In r runners /\ Environment.runner_id e = Runner.runner_id r)
  /\ (forall j k lj lk e,
        nth_error attached j = Some lj -> nth_error attached k = Some lk ->
        In e lj -> In e lk -> j = k).
Proof.
  intros Hnd attached.
  split; [intros ms; apply analyzeRunners_environments |].
  pose proof (attached_partition runners envs Hnd) as Hperm.
  split; [exact Hperm |].
  split.
  - intros e. split.
    + intros Hin. apply (Permutation_in _ Hperm) in Hin.
      apply filter_In in Hin. destruct Hin as [Hin Hm]. split; [exact Hin |].
      apply existsb_exists in Hm. destruct Hm as [r [Hr Hm]].
      exists r. split; [exact Hr | apply strict_eq_true; exact Hm].
    + intros [Hin [r [Hr Hid]]].
      apply (Permutation_in _ (Permutation_sym Hperm)).
      apply filter_In. split; [exact Hin |].
      apply existsb_exists. exists r. split; [exact Hr | apply strict_eq_true; exact Hid].
  - intros j k lj lk e Hj Hk Hinj Hink.
    destruct (nth_error_runner_ids runners envs j lj Hj) as [rj [Hrj ->]].
    destruct (nth_error_runner_ids runners envs k lk Hk) as [rk [Hrk ->]].
    unfold runnerEnvironments in Hinj, Hink.
    apply filter_In in Hinj. apply filter_In in Hink.
    destruct Hinj as [_ Hmj]. destruct Hink as [_ Hmk].
    apply strict_eq_true in Hmj. apply strict_eq_true in Hmk.
    apply (proj1 (NoDup_nth_error (map Runner.runner_id runners)) Hnd).
    + apply nth_error_Some. rewrite nth_error_map, Hrj. discriminate.
    + rewrite !nth_error_map, Hrj, Hrk. simpl. congruence.
Qed.

Lemma environments_partition_witness :
  exists ms,
    analyzeRunners (fun _ => 36000000) 0 [runner_two_regions; runner_local]
      example_environments = Normal ms
    /\ map environments ms
       = [ [environment_on "e-1" "r-1"; environment_on "e-3" "r-1"]; [] ]
    /\ Permutation (List.concat (map environments ms))
         (filter (matches_some [runner_two_regions; runner_local]) example_environments).
Proof.
  assert (Hnd : NoDup (map Runner.runner_id [runner_two_regions; runner_local])).
  { simpl. constructor; [simpl; intros [H | []]; discriminate |].
    constructor; [intros [] | constructor]. }
  destruct (environments_partition (fun _ => 36000000) 0
              [runner_two_regions; runner_local] example_environments Hnd)
    as [Hmap [Hperm _]].
  destruct (analyzeRunners (fun _ => 36000000) 0 [runner_two_regions; runner_local]
              example_environments) as [ms |] eqn:Hms.
  - exists ms. split; [reflexivity |].
    rewrite (Hmap ms eq_refl). split; [reflexivity | exact Hperm].
  - vm_compute in Hms. discriminate.
Defined.

(** ** The end-to-end scenario *)

(** C6: one REMOTE runner of instance type t3.large, up for 10 hours with
    2 attached environments, and one LOCAL runner, up for 5 hours with
    none.  The REMOTE cost is 2.83, which is 10 * 0.0832 + 2 * 0.1 * 10
    (2.832 up to rounding) printed with two decimals; the LOCAL cost is 0;
    the summary shows total cost 2.83, one remote and one local runner and
    2 environments. *)
Theorem scenario_remote_and_local :
  exists remote local,
    analyzeRunners ten_hours_after_epoch 0 [runner_two_regions; runner_local]
      example_environments = Normal [remote; local]
    /\ (kind remote = "RUNNER_KIND_REMOTE"
        /\ instanceType remote = Json.JStr "t3.large"
        /\ uptime remote = Num.of_Z 10
        /\ List.length (environments remote) = 2%nat)
    /\ (kind local = "RUNNER_KIND_LOCAL"
        /\ uptime local = Num.of_Z 5
        /\ List.length (environments local) = 0%nat)
    /\ Str.toFixed
         (Num.add (Num.mul (Num.of_Z 10) (Num.of_decimal false 832 (-4)))
            (Num.mul (Num.mul (Num.of_Z 2) (Num.of_decimal false 1 (-1))) (Num.of_Z 10)))
         2 = "2.83"
    /\ estimatedCost remote = Some (Str.StringToNumber "2.83")
    /\ estimatedCost local = Some Num.zero
    /\ totalCost [remote; local] = Str.StringToNumber "2.83"
    /\ Str.toFixed (totalCost [remote; local]) 2 = "2.83"
    /\ remoteCount [remote; local] = 1%nat
    /\ localCount [remote; local] = 1%nat
    /\ totalEnvironments [remote; local] = 2%nat
    /\ summarySection [remote; local]
       = ("## Summary" ++ nl
          ++ "- Total Runners: 2" ++ nl
          ++ "  - Remote Runners: 1" ++ nl
          ++ "  - Local Runners: 1" ++ nl
          ++ "- Total Active Environments: 2" ++ nl
          ++ "- Total Estimated Cost: $2.83" ++ nl)%string.
Proof.
  eexists. eexists.
  split; [vm_compute; reflexivity |].
  repeat split; vm_compute; reflexivity.
Qed.

(** ** Recommendations *)

Lemma filter_length_count (rule : RunnerMetrics -> bool) (metrics : list RunnerMetrics) :
  List.length (filter rule metrics) = count_matching rule metrics.
Proof.
  induction metrics as [| m rest IH]; simpl; [reflexivity |].
  destruct (rule m); simpl; rewrite IH; reflexivity.
Qed.


Lemma count_matching_zero (rule : RunnerMetrics -> bool) (metrics : list RunnerMetrics) :
  count_matching rule metrics = 0%nat <-> forall m, In m metrics -> rule m = false.
Proof.
  induction metrics as [| m rest IH]; simpl.
  - split; [intros _ x [] | reflexivity].
  - destruct (rule m) eqn:Hr; simpl.
    + split; [discriminate |]. intros H. rewrite (H m (or_introl eq_refl)) in Hr. discriminate.
    + rewrite IH. split.
      * intros H x [<- | Hx]; [exact Hr | exact (H x Hx)].
      * intros H x Hx. apply H. right. exact Hx.
Qed.

Lemma count_matching_ext (rule rule' : RunnerMetrics -> bool) (metrics : list RunnerMetrics) :
  (forall m, rule m = rule' m) ->
  count_matching rule metrics = count_matching rule' metrics.
Proof.
  intros H. induction metrics as [| m rest IH]; simpl; [reflexivity |].
  rewrite H, IH. reflexivity.
Qed.

(** [x > t] on whole numbers below [2^53] is the comparison of the
    integers. *)
Lemma gt_of_Z (h t : Z) :
  Z.abs h < 2 ^ 53 -> 0 < t < 2 ^ 53 ->
  Num.gt (Num.of_Z h) (Num.of_Z t) = (t <? h).
Proof.
  intros Hh Ht.
  rewrite (of_Z_canon t) by lia.
  replace (t <? 0) with false by (symmetry; apply Z.ltb_ge; lia).
  replace (Z.abs t) with t by lia.
  destruct (canon_fields false t Ht) as [mt [Ect [Hmt Hdt]]]. rewrite Ect.
  destruct (Z.eq_dec h 0) as [-> | Hnz].
  - change (Num.of_Z 0) with (S754_zero false).
    symmetry. apply Z.ltb_ge. lia.
  - rewrite (of_Z_canon h) by lia.
    destruct (canon_fields (h <? 0) (Z.abs h) ltac:(lia)) as [mh [Ech [Hmh Hdh]]].
    rewrite Ech. unfold Num.gt, SFltb. cbn [SFcompare].
    destruct (Z.ltb_spec h 0) as [Hneg | Hpos].
    + symmetry. apply Z.ltb_ge. lia.
    + replace (Z.abs h) with h in * by lia.
      pose proof (Zdigits2_pos t ltac:(lia)) as Hpt.
      pose proof (Zdigits2_pos h ltac:(lia)) as Hph.
      pose proof (Zdigits2_lt_pow t ltac:(lia)) as Hut.
      pose proof (Zdigits2_lt_pow h ltac:(lia)) as Huh.
      assert (Hlt : 2 ^ (Zdigits2 t - 1) <= t)
        by (apply (proj1 (Zdigits2_ge_iff t (Zdigits2 t) ltac:(lia) ltac:(lia))); lia).
      assert (Hlh : 2 ^ (Zdigits2 h - 1) <= h)
        by (apply (proj1 (Zdigits2_ge_iff h (Zdigits2 h) ltac:(lia) ltac:(lia))); lia).
      destruct (Z.compare_spec (Zdigits2 t - 53) (Zdigits2 h - 53)) as [Heq | Hlo | Hhi].
      * assert (Hd : Zdigits2 t = Zdigits2 h) by lia.
        rewrite Hd in Hmt.
        assert (Hp : 0 < 2 ^ (53 - Zdigits2 h)).
        { apply Z.pow_pos_nonneg; [lia |].
          assert (Zdigits2 h <= 53) by (apply Zdigits2_le_iff; lia). lia. }
        change (Pos.compare_cont Eq mt mh) with (Zpos mt ?= Zpos mh).
        rewrite Hmt, Hmh.
        destruct (Z.compare_spec (t * 2 ^ (53 - Zdigits2 h)) (h * 2 ^ (53 - Zdigits2 h)))
          as [He | Hl | Hg].
        -- symmetry. apply Z.ltb_ge. nia.
        -- symmetry. apply Z.ltb_lt. nia.
        -- symmetry. apply Z.ltb_ge. nia.
      * symmetry. apply Z.ltb_lt.
        assert (2 ^ Zdigits2 t <= 2 ^ (Zdigits2 h - 1)) by (apply Z.pow_le_mono_r; lia).
        lia.
      * symmetry. apply Z.ltb_ge.
        assert (2 ^ Zdigits2 h <= 2 ^ (Zdigits2 t - 1)) by (apply Z.pow_le_mono_r; lia).
        lia.
Qed.

(** [(m.estimatedCost || 0) > 100] holds for a cost above 100 only. *)
Lemma is_highCost_eq (m : RunnerMetrics) :
  is_highCost m
  = match estimatedCost m with
    | Some c => Num.gt c (Num.of_Z 100)
    | None => false
    end.
Proof.
  unfold is_highCost, cost_or_zero.
  destruct (estimatedCost m) as [c |]; [| reflexivity].
  destruct c as [sc | sc | | sc mc ec]; reflexivity.
Qed.

(** C9: the four rules are independent and additive.  For every list of
    records the section is the heading followed by at most four bullets,
    in this order and with this text: the records whose phase is
    RUNNER_PHASE_INACTIVE, those whose uptime is above 168, those with no
    environment and an uptime above 24, and those whose estimated cost is
    above 100.  The bullet of a rule is present exactly when some record
    satisfies that rule, and prints the number of records that satisfy
    that rule alone.  On whole uptimes the two uptime tests are the
    integer comparisons [168 < h] and [24 < h].  The inactive record with
    uptime 200, no environment and cost 150 gets all four bullets, each
    with count 1. *)
Theorem recommendations_independent (metrics : list RunnerMetrics) :
  let inactive :=
    count_matching (fun m => String.eqb (phase m) "RUNNER_PHASE_INACTIVE") metrics in
  let highUptime :=
    count_matching (fun m => Num.gt (uptime m) (Num.of_Z 168)) metrics in
  let empty :=
    count_matching
      (fun m => Nat.eqb (List.length (environments m)) 0
                && Num.gt (uptime m) (Num.of_Z 24)) metrics in
  let highCost :=
    count_matching
      (fun m => match estimatedCost m with
                | Some c => Num.gt c (Num.of_Z 100)
                | None => false
                end) metrics in
  recommendationsSection metrics
  = (nl ++ "## Recommendations" ++ nl
     ++ (if (0 <? inactive)%nat
         then "- ðŸ”´ Clean up " ++ Str.decimal_digits (Z.of_nat inactive)
                ++ " inactive runners" ++ nl
         else "")
     ++ (if (0 <? highUptime)%nat
         then "- ðŸŸ¡ Review " ++ Str.decimal_digits (Z.of_nat highUptime)
                ++ " runners with high uptime (>1 week)" ++ nl
         else "")
     ++ (if (0 <? empty)%nat
         then "- ðŸŸ¡ Consider removing " ++ Str.decimal_digits (Z.of_nat empty)
                ++ " runners with no environments (>24h uptime)" ++ nl
         else "")
     ++ (if (0 <? highCost)%nat
         then "- ðŸ”´ Investigate " ++ Str.decimal_digits (Z.of_nat highCost)
                ++ " high-cost runners (>$100)" ++ nl
         else ""))%string
  /\ (forall (rule : RunnerMetrics -> bool),
        count_matching rule metrics = List.length (filter rule metrics)
        /\ ((0 <? count_matching rule metrics)%nat = true
            <-> exists m, In m metrics /\ rule m = true))
  /\ (forall m h, uptime m = Num.of_Z h -> Z.abs h < 2 ^ 53 ->
        Num.gt (uptime m) (Num.of_Z 168) = (168 <? h)
        /\ Num.gt (uptime m) (Num.of_Z 24) = (24 <? h))
  /\ recommendationsSection [idle_costly]
     = (nl ++ "## Recommendations" ++ nl
        ++ "- ðŸ”´ Clean up 1 inactive runners" ++ nl
        ++ "- ðŸŸ¡ Review 1 runners with high uptime (>1 week)" ++ nl
        ++ "- ðŸŸ¡ Consider removing 1 runners with no environments (>24h uptime)" ++ nl
        ++ "- ðŸ”´ Investigate 1 high-cost runners (>$100)" ++ nl)%string.
Proof.
  cbv zeta. split.
  { unfold recommendationsSection, inactiveRunners, highUptimeRunners, emptyRunners,
      highCostRunners, when_any.
    rewrite !filter_length_count.
    rewrite (count_matching_ext is_highCost _ metrics is_highCost_eq).
    reflexivity. }
  split.
  { intros rule. split; [symmetry; apply filter_length_count |]. split.
    - intros Hc. destruct (existsb rule metrics) eqn:He.
      + apply existsb_exists in He. exact He.
      + exfalso.
        assert (Hz : count_matching rule metrics = 0%nat).
        { apply count_matching_zero. intros m Hm.
          destruct (rule m) eqn:Hr; [| reflexivity].
          assert (Ht : existsb rule metrics = true)
            by (apply existsb_exists; exists m; split; assumption).
          rewrite Ht in He. discriminate. }
        rewrite Hz in Hc. discriminate.
    - intros [m [Hm Hr]].
      destruct (count_matching rule metrics) as [| n] eqn:Hc; [| reflexivity].
      rewrite (proj1 (count_matching_zero rule metrics) Hc m Hm) in Hr. discriminate. }
  split.
  { intros m h Hu Hh. rewrite Hu.
    split; apply gt_of_Z; try exact Hh; vm_compute; split; reflexivity. }
  vm_compute. reflexivity.
Qed.

(** ** Further properties of cost estimation and derivation *)

Lemma meteredCost_inherited (hours : Num.number) (count : nat) :
  meteredCost hours count Inherited = Num.zero.
Proof.
  unfold meteredCost. cbn [Member_ToNumber].
  assert (Hm : Num.mul hours Num.nan = Num.nan) by (destruct hours; reflexivity).
  rewrite Hm. reflexivity.
Qed.

Lemma hourlyRate_inherited (key : string) :
  existsb (String.eqb key) Object_prototype_names = true -> hourlyRate key = Inherited.
Proof.
  intros H. apply existsb_exists in H. destruct H as [name [Hin Heq]].
  apply String.eqb_eq in Heq. subst name.
  simpl in Hin.
  repeat (destruct Hin as [<- | Hin]; [reflexivity |]).
  destruct Hin.
Qed.

(** X4: an instance type that names a member [hourlyRates] inherits from
    [Object.prototype] ("constructor", "toString", ...) selects that
    member as the rate; the product with it is NaN and the cost of the
    record is 0, whatever its uptime and environments are. *)
Theorem estimateCost_inherited_rate_is_zero (m : RunnerMetrics) (key : string) :
  Json.ToPropertyKey (instanceType m) = Normal key ->
  existsb (String.eqb key) Object_prototype_names = true ->
  estimateCost m = Normal Num.zero.
Proof.
  intros Hk Hin. unfold estimateCost.
  destruct (String.eqb (kind m) "RUNNER_KIND_LOCAL"); [reflexivity |].
  rewrite Hk. cbn [bind].
  rewrite (hourlyRate_inherited key Hin), meteredCost_inherited. reflexivity.
Qed.

Lemma estimateCost_inherited_rate_is_zero_witness :
  estimateCost
    (metrics_of "RUNNER_KIND_REMOTE" 10
       (Json.JObj [("instanceType", Json.JStr "constructor")])
       [environment_on "e-1" "r"; environment_on "e-2" "r"])
  = Normal Num.zero.
Proof.
  apply (estimateCost_inherited_rate_is_zero _ "constructor"); reflexivity.
Defined.

(** X5: the resolved region is never the empty string. *)
Theorem getRegion_not_empty (runner : Runner.t) : getRegion runner <> "".
Proof.
  unfold getRegion, or_string, or_else.
  destruct (status_region runner) as [[| c s] |];
    destruct (spec_region runner) as [[| c' s'] |]; simpl; discriminate.
Qed.

(** X6: the identifying fields of a derived record fall back to
    "unknown", "Unnamed Runner" and "unknown" when the runner leaves them
    out or empty, and are the runner's own otherwise; a derived record
    always carries an estimated cost. *)
Theorem analyzeRunner_identity (now : Z) (runner : Runner.t)
    (envs : list Environment.t) (m : RunnerMetrics) :
  analyzeRunner now runner envs = Normal m ->
  runnerId m = or_string (Runner.runner_id runner) "unknown"
  /\ name m = or_string (Runner.name runner) "Unnamed Runner"
  /\ kind m = or_string (Runner.kind runner) "unknown"
  /\ runnerId m <> "" /\ name m <> "" /\ kind m <> ""
  /\ exists cost, estimatedCost m = Some cost.
Proof.
  unfold analyzeRunner.
  match goal with |- context [estimateCost ?x] => destruct (estimateCost x) end;
    simpl; intros H; inversion H; subst; simpl.
  repeat split; try reflexivity;
    try (unfold or_string;
         match goal with |- context [match ?f with _ => _ end] => destruct f as [[| ? ?] |] end;
         simpl; discriminate).
  eexists. reflexivity.
Qed.

Lemma analyzeRunner_identity_witness :
  exists m,
    analyzeRunner 36000000 runner_local [] = Normal m
    /\ runnerId m = or_string (Runner.runner_id runner_local) "unknown"
    /\ name m = "laptop"
    /\ kind m = "RUNNER_KIND_LOCAL".
Proof.
  destruct (analyzeRunner 36000000 runner_local []) as [m |] eqn:Hm;
    [| vm_compute in Hm; discriminate].
  exists m. split; [reflexivity |].
  destruct (analyzeRunner_identity 36000000 runner_local [] m Hm)
    as [H1 [H2 [H3 _]]].
  split; [exact H1 |]. split; [exact H2 | exact H3].
Defined.

(** * The report and the run *)

Lemma ToString_throws (v : Json.JsValue) (e : JsError) :
  Json.ToString v = Throw e -> e = TypeError.
Proof.
  revert v e. fix IH 1. intros v e.
  destruct v as [| b | x | s | items | fields]; simpl; try discriminate.
  - induction items as [| x rest IHrest]; [discriminate |].
    assert (Hx : forall e', match x with
                            | Json.JNull => Normal ""
                            | _ => Json.ToString x
                            end = Throw e' -> e' = TypeError).
    { intros e'. pose proof (IH x e') as IHx. destruct x; try discriminate; exact IHx. }
    destruct (match x with Json.JNull => Normal "" | _ => Json.ToString x end) as [a | e0] eqn:Ha.
    + cbn [bind]. destruct rest as [| y rest']; [discriminate |].
      match goal with
      | |- context [bind ?c _] => destruct c as [bb | e1] eqn:Hb
      end.
      * discriminate.
      * cbn [bind]. intros H. inversion H; subst. apply IHrest. reflexivity.
    + cbn [bind]. intros H. inversion H; subst. apply Hx. reflexivity.
  - destruct (Json.own_property fields "toString"); [| discriminate].
    intros Hx. inversion Hx. reflexivity.
Qed.

Lemma estimateCost_throws_TypeError (m : RunnerMetrics) (e : JsError) :
  estimateCost m = Throw e -> e = TypeError.
Proof.
  unfold estimateCost.
  destruct (String.eqb (kind m) "RUNNER_KIND_LOCAL"); [discriminate |].
  destruct (Json.ToPropertyKey (instanceType m)) as [k | e0] eqn:Hk; [discriminate |].
  cbn [bind]. intros H. inversion H; subst. apply (ToString_throws _ _ Hk).
Qed.

Lemma analyzeRunner_throws_TypeError (now : Z) (r : Runner.t) (envs : list Environment.t)
    (e : JsError) :
  analyzeRunner now r envs = Throw e -> e = TypeError.
Proof.
  unfold analyzeRunner.
  match goal with |- context [estimateCost ?x] => destruct (estimateCost x) eqn:Hc end.
  - discriminate.
  - cbn [bind]. intros H. inversion H; subst. apply (estimateCost_throws_TypeError _ _ Hc).
Qed.

Lemma analyzeRunners_throws_TypeError (clock : nat -> Z) (i : nat) (runners : list Runner.t)
    (envs : list Environment.t) (e : JsError) :
  analyzeRunners clock i runners envs = Throw e -> e = TypeError.
Proof.
  revert i. induction runners as [| r rest IH]; intros i; simpl; [discriminate |].
  destruct (analyzeRunner (clock i) r envs) as [m | e0] eqn:Hm; cbn [bind].
  - destruct (analyzeRunners clock (S i) rest envs) as [ms | e1] eqn:Hms; cbn [bind].
    + discriminate.
    + intros H. inversion H; subst. apply (IH _ Hms).
  - intros H. inversion H; subst. apply (analyzeRunner_throws_TypeError _ _ _ _ Hm).
Qed.

(** One runner whose analysis throws makes the analysis of the list
    throw. *)
Lemma analyzeRunners_one_throws (clock : nat -> Z) (i k : nat) (runners : list Runner.t)
    (envs : list Environment.t) (r : Runner.t) (e : JsError) :
  nth_error runners k = Some r ->
  analyzeRunner (clock (i + k)%nat) r envs = Throw e ->
  analyzeRunners clock i runners envs = Throw TypeError.
Proof.
  revert i k. induction runners as [| r0 rest IH]; intros i k Hk Hr.
  - destruct k; discriminate.
  - simpl. destruct k as [| k].
    + simpl in Hk. inversion Hk; subst. rewrite Nat.add_0_r in Hr. rewrite Hr.
      cbn [bind]. rewrite (analyzeRunner_throws_TypeError _ _ _ _ Hr). reflexivity.
    + simpl in Hk.
      destruct (analyzeRunner (clock i) r0 envs) as [m | e0] eqn:Hm; cbn [bind].
      * rewrite (IH (S i) k Hk); [reflexivity |].
        replace (S i + k)%nat with (i + S k)%nat by lia. exact Hr.
      * rewrite (analyzeRunner_throws_TypeError _ _ _ _ Hm). reflexivity.
Qed.

Ltac run_cases w :=
  unfold generateResourceReport_at, listRunners, listEnvironments, post, write,
    derived_metrics, listed_runners, listed_environments;
  destruct (ListRunners w) as [rr | msg1];
  [destruct (ListEnvironments w) as [re | msg2];
   [cbn -[generateMarkdownReport analyzeRunners];
    destruct (analyzeRunners (clock w) 0 (or_empty (items rr)) (or_empty (items re)))
      as [ms | e] eqn:Hms;
    cbn -[generateMarkdownReport analyzeRunners];
    [match goal with
     | |- context [writeFileSync w ?f ?d] =>
         destruct (writeFileSync w f d) as [msg3 |] eqn:Hw
     end; cbn -[generateMarkdownReport analyzeRunners] |]
   | cbn -[generateMarkdownReport analyzeRunners]]
  | cbn -[generateMarkdownReport analyzeRunners]].

(** X7: no partial report is written.  A run that calls
    [fs.writeFileSync] at all does so once, on [outputPath], after both
    listings were answered and every runner was analyzed, and what it
    writes is the report of the derived records; a run in which a
    listing is rejected or the analysis of a runner throws writes
    nothing.  (That every successful derivation ends in a write is not
    stated: the report is assembled with [JSON.stringify], and an engine
    that runs out of call stack on deeply nested system details throws
    there, which is outside this model.) *)
Theorem report_written_only_after_derivation (a : GitpodResourceAnalyzer) (w : World)
    (outputPath : string) :
  let run := generateResourceReport_at a w outputPath in
  (derived_metrics w = None -> writes (fst run) = [])
  /\ (forall file data,
        In (file, data) (writes (fst run)) ->
        exists ms,
          derived_metrics w = Some ms
          /\ writes (fst run)
             = [(outputPath,
                 generateMarkdownReport
                   (format w (clock w (List.length (listed_runners w)))) ms)]).
Proof.
  cbv zeta.
  assert (Hw : writes (fst (generateResourceReport_at a w outputPath))
               = match derived_metrics w with
                 | Some ms =>
                     [(outputPath,
                       generateMarkdownReport
                         (format w (clock w (List.length (listed_runners w)))) ms)]
                 | None => []
                 end)
    by (run_cases w; reflexivity).
  rewrite Hw. split.
  - intros ->. reflexivity.
  - intros file data Hin.
    destruct (derived_metrics w) as [ms |]; [| destruct Hin].
    exists ms. split; reflexivity.
Qed.

Lemma flat_map_app' {A B : Type} (f : A -> list B) (l1 l2 : list A) :
  flat_map f (l1 ++ l2)%list = (flat_map f l1 ++ flat_map f l2)%list.
Proof. apply flat_map_app. Qed.

(** X8: no failure is swallowed.  A run returns exactly when it logs no
    error; when it fails, the exception it rethrows is the one it logs
    last, under "Error generating report:", every error line of the run
    carries that same exception, and the exception is never a
    SyntaxError (a parse failure of system details is recovered
    locally). *)
Theorem failure_is_logged_and_rethrown (a : GitpodResourceAnalyzer) (w : World)
    (outputPath : string) :
  let run := generateResourceReport_at a w outputPath in
  (snd run = Returned tt <-> errors (fst run) = [])
  /\ (forall e, snd run = Raised e ->
      (exists earlier,
         errors (fst run) = (earlier ++ [("Error generating report:", Some e)])%list
         /\ forall entry, In entry earlier -> snd entry = Some e)
      /\ e <> JsException SyntaxError).
Proof.
  cbv zeta. run_cases w.
  - split; [split; discriminate |].
    intros e H. inversion H; subst. split; [| discriminate].
    exists []. split; [reflexivity | intros entry []].
  - split; [split; reflexivity |]. discriminate.
  - split; [split; discriminate |].
    intros e' H. inversion H; subst.
    rewrite (analyzeRunners_throws_TypeError _ _ _ _ _ Hms).
    split; [| discriminate].
    exists []. split; [reflexivity | intros entry []].
  - split; [split; discriminate |].
    intros e' H. inversion H; subst. split; [| discriminate].
    exists [("Error fetching environments:", Some (HostError msg2))].
    split; [reflexivity |]. intros entry [<- | []]. reflexivity.
  - split; [split; discriminate |].
    intros e' H. inversion H; subst. split; [| discriminate].
    exists [("Error fetching runners:", Some (HostError msg1))].
    split; [reflexivity |]. intros entry [<- | []]. reflexivity.
Qed.

(** X9: a run sends one ListRunners request and, only when that is
    answered, one ListEnvironments request, and nothing else (no
    GetRunner request, no request for a further page).  Each is a POST to
    the analyzer's base URL with the header [Authorization: Bearer <pat>],
    the content type application/json, the organization id and a page
    size of 100; the exported function posts to
    https://app.gitpod.io/api. *)
Theorem requests_sent (a : GitpodResourceAnalyzer) (w : World) (outputPath : string) :
  posts (fst (generateResourceReport_at a w outputPath))
  = {| baseURL := baseUrl a;
       path := "/gitpod.v1.RunnerService/ListRunners";
       Authorization := "Bearer " ++ pat a;
       Content_Type := "application/json";
       organization_id := organizationId a;
       page_size := 100 |}
      :: match ListRunners w with
         | Answered _ =>
             [ {| baseURL := baseUrl a;
                  path := "/gitpod.v1.EnvironmentService/ListEnvironments";
                  Authorization := "Bearer " ++ pat a;
                  Content_Type := "application/json";
                  organization_id := organizationId a;
                  page_size := 100 |} ]
         | Rejected _ => []
         end
  /\ (forall token organization,
        posts (fst (generateResourceReport token organization w))
        = {| baseURL := "https://app.gitpod.io/api";
             path := "/gitpod.v1.RunnerService/ListRunners";
             Authorization := "Bearer " ++ token;
             Content_Type := "application/json";
             organization_id := organization;
             page_size := 100 |}
            :: match ListRunners w with
               | Answered _ =>
                   [ {| baseURL := "https://app.gitpod.io/api";
                        path := "/gitpod.v1.EnvironmentService/ListEnvironments";
                        Authorization := "Bearer " ++ token;
                        Content_Type := "application/json";
                        organization_id := organization;
                        page_size := 100 |} ]
               | Rejected _ => []
               end).
Proof.
  split; [run_cases w; reflexivity |].
  intros token organization. unfold generateResourceReport.
  run_cases w; reflexivity.
Qed.

Lemma generateResourceReport_never_exits (a : GitpodResourceAnalyzer) (w : World)
    (outputPath : string) :
  exits (fst (generateResourceReport_at a w outputPath)) = [].
Proof.
  run_cases w; reflexivity.
Qed.

(** X10: the script exits with code 1, through [process.exit(1)], when
    GITPOD_PAT or GITPOD_ORG_ID is unset or empty, in which case it sends
    no request and writes no file, and when report generation fails;
    when generation succeeds it does not call [process.exit]. *)
Theorem main_exit_code (env : ProcessEnv) (w : World) :
  match provided (GITPOD_PAT env), provided (GITPOD_ORG_ID env) with
  | Some pat, Some organizationId =>
      let run := generateResourceReport pat organizationId w in
      exits (main env w)
      = match snd run with
        | Returned _ => []
        | Raised _ => [1]
        end
      /\ posts (main env w) = posts (fst run)
      /\ writes (main env w) = writes (fst run)
  | _, _ =>
      exits (main env w) = [1] /\ posts (main env w) = [] /\ writes (main env w) = []
  end.
Proof.
  unfold main.
  destruct (provided (GITPOD_PAT env)) as [pat |]; [| repeat split].
  destruct (provided (GITPOD_ORG_ID env)) as [org |]; [| repeat split].
  cbv zeta.
  pose proof (generateResourceReport_never_exits (new_analyzer pat org) w default_outputPath)
    as Hex.
  unfold generateResourceReport.
  destruct (generateResourceReport_at (new_analyzer pat org) w default_outputPath)
    as [t [[] | e]]; cbn [fst snd] in *;
    unfold exits, posts, writes in *; rewrite !flat_map_app, ?Hex; cbn;
    rewrite ?app_nil_r; repeat split; reflexivity.
Qed.

(** X11: one runner whose analysis throws aborts the whole report:
    whatever the other runners are, the run writes no file and ends with
    an exception, which it logs under "Error generating report:" and
    rethrows. *)
Theorem one_failing_runner_aborts_report (a : GitpodResourceAnalyzer) (w : World)
    (outputPath : string) (rr : Response Runner.t) (re : Response Environment.t)
    (k : nat) (r : Runner.t) (e : JsError) :
  ListRunners w = Answered rr ->
  ListEnvironments w = Answered re ->
  nth_error (or_empty (items rr)) k = Some r ->
  analyzeRunner (clock w k) r (or_empty (items re)) = Throw e ->
  let run := generateResourceReport_at a w outputPath in
  writes (fst run) = []
  /\ exists thrown,
       snd run = Raised thrown
       /\ errors (fst run) = [("Error generating report:", Some thrown)].
Proof.
  intros Hr He Hk Hthrow.
  pose proof (analyzeRunners_one_throws (clock w) 0 k _ _ r e Hk Hthrow) as Hall.
  cbv zeta.
  unfold generateResourceReport_at, listRunners, listEnvironments, post, write.
  rewrite Hr, He.
  cbn -[generateMarkdownReport analyzeRunners].
  rewrite Hall. split; [reflexivity |].
  eexists. split; reflexivity.
Qed.

Lemma one_failing_runner_aborts_report_witness :
  let run :=
    generateResourceReport_at (new_analyzer "token" "org")
      (world_of [runner_two_regions; runner_broken; runner_local] example_environments)
      default_outputPath in
  writes (fst run) = []
  /\ exists thrown,
       snd run = Raised thrown
       /\ errors (fst run) = [("Error generating report:", Some thrown)].
Proof.
  apply (one_failing_runner_aborts_report _ _ _
           {| dump := "{}"; items := Some [runner_two_regions; runner_broken; runner_local] |}
           {| dump := "{}"; items := Some example_environments |}
           1%nat runner_broken TypeError).
  - reflexivity.
  - reflexivity.
  - reflexivity.
  - vm_compute. reflexivity.
Defined.

(** ** The counts of the summary *)

Lemma totalEnvironments_from (metrics : list RunnerMetrics) (n : nat) :
  fold_left (fun sum m => (sum + List.length (environments m))%nat) metrics n
  = (n + List.length (List.concat (map environments metrics)))%nat.
Proof.
  revert n. induction metrics as [| m rest IH]; intros n; simpl.
  - lia.
  - rewrite IH, List.length_app. lia.
Qed.

Lemma totalEnvironments_concat (metrics : list RunnerMetrics) :
  totalEnvironments metrics = List.length (List.concat (map environments metrics)).
Proof.
  unfold totalEnvironments. rewrite totalEnvironments_from. reflexivity.
Qed.

Lemma listed_environments_all (metrics : list RunnerMetrics) :
  List.concat (map environments (filter has_environments metrics))
  = List.concat (map environments metrics).
Proof.
  induction metrics as [| m rest IH]; simpl; [reflexivity |].
  unfold has_environments at 1.
  destruct (environments m) as [| e es] eqn:He; simpl.
  - exact IH.
  - rewrite He, IH. reflexivity.
Qed.

(** X12: for runners with pairwise distinct ids, Total Active
    Environments is the number of input environments whose runner id is
    the id of a listed runner: none is counted twice, and environments of
    other runners are not counted.  The tables under Environment
    Distribution list that many environments. *)
Theorem total_environments_counts_attached (clock : nat -> Z) (runners : list Runner.t)
    (envs : list Environment.t) (ms : list RunnerMetrics) :
  NoDup (map Runner.runner_id runners) ->
  analyzeRunners clock 0 runners envs = Normal ms ->
  totalEnvironments ms = List.length (filter (matches_some runners) envs)
  /\ (totalEnvironments ms <= List.length envs)%nat
  /\ List.length (List.concat (map environments (filter has_environments ms)))
     = totalEnvironments ms.
Proof.
  intros Hnd Hms.
  assert (Ht : totalEnvironments ms = List.length (filter (matches_some runners) envs)).
  { rewrite totalEnvironments_concat, (analyzeRunners_environments clock runners envs 0 ms Hms).
    apply Permutation_length. apply attached_partition. exact Hnd. }
  split; [exact Ht |]. split.
  - rewrite Ht. apply filter_length_le.
  - rewrite listed_environments_all. symmetry. apply totalEnvironments_concat.
Qed.

Lemma total_environments_counts_attached_witness :
  exists ms,
    analyzeRunners (fun _ => 36000000) 0 [runner_two_regions; runner_local]
      example_environments = Normal ms
    /\ totalEnvironments ms
       = List.length
           (filter (matches_some [runner_two_regions; runner_local]) example_environments)
    /\ (totalEnvironments ms <= List.length example_environments)%nat
    /\ List.length (List.concat (map environments (filter has_environments ms)))
       = totalEnvironments ms.
Proof.
  assert (Hnd : NoDup (map Runner.runner_id [runner_two_regions; runner_local])).
  { simpl. constructor; [intros [H | []]; discriminate |].
    constructor; [intros [] | constructor]. }
  destruct (analyzeRunners (fun _ => 36000000) 0 [runner_two_regions; runner_local]
              example_environments) as [ms |] eqn:Hms; [| vm_compute in Hms; discriminate].
  exists ms. split; [reflexivity |].
  apply (total_environments_counts_attached (fun _ => 36000000)
           [runner_two_regions; runner_local] example_environments ms Hnd Hms).
Defined.

Lemma kind_counts (metrics : list RunnerMetrics) :
  (remoteCount metrics + localCount metrics
   + List.length (filter (fun m => negb (is_kind "RUNNER_KIND_REMOTE" m)
                                   && negb (is_kind "RUNNER_KIND_LOCAL" m)) metrics)
   = List.length metrics)%nat.
Proof.
  unfold remoteCount, localCount, is_kind.
  induction metrics as [| m rest IH]; simpl; [reflexivity |].
  destruct (String.eqb_spec (kind m) "RUNNER_KIND_REMOTE") as [Hr | Hr].
  - rewrite Hr. simpl. lia.
  - destruct (String.eqb_spec (kind m) "RUNNER_KIND_LOCAL") as [Hl | Hl]; simpl; lia.
Qed.

(** X13: Remote Runners plus Local Runners never exceeds Total Runners,
    and the two agree exactly when every record is of kind
    RUNNER_KIND_REMOTE or RUNNER_KIND_LOCAL: a runner of another kind is
    counted in the total only. *)
Theorem summary_counts (metrics : list RunnerMetrics) :
  (remoteCount metrics + localCount metrics <= List.length metrics)%nat
  /\ ((remoteCount metrics + localCount metrics = List.length metrics)%nat
      <-> forall m, In m metrics ->
            kind m = "RUNNER_KIND_REMOTE" \/ kind m = "RUNNER_KIND_LOCAL").
Proof.
  pose proof (kind_counts metrics) as Hc.
  set (other := fun m => negb (is_kind "RUNNER_KIND_REMOTE" m)
                         && negb (is_kind "RUNNER_KIND_LOCAL" m)) in *.
  split; [lia |]. split.
  - intros Heq m Hin.
    assert (Hz : List.length (filter other metrics) = 0%nat) by lia.
    apply List.length_zero_iff_nil in Hz.
    destruct (other m) eqn:Ho.
    + assert (Hin' : In m (filter other metrics)) by (apply filter_In; split; assumption).
      rewrite Hz in Hin'. destruct Hin'.
    + unfold other, is_kind in Ho.
      destruct (String.eqb_spec (kind m) "RUNNER_KIND_REMOTE") as [Hr | Hr]; [left; exact Hr |].
      destruct (String.eqb_spec (kind m) "RUNNER_KIND_LOCAL") as [Hl | Hl]; [right; exact Hl |].
      discriminate.
  - intros Hall.
    assert (Hz : filter other metrics = []).
    { destruct (filter other metrics) as [| m rest] eqn:Hf; [reflexivity |].
      assert (Hin : In m (filter other metrics)) by (rewrite Hf; left; reflexivity).
      apply filter_In in Hin. destruct Hin as [Hin Ho].
      unfold other, is_kind in Ho.
      destruct (Hall m Hin) as [Hk | Hk]; rewrite Hk in Ho; discriminate. }
    rewrite Hz in Hc. simpl in Hc. lia.
Qed.

(** ** Quoted strings read back *)

Lemma chr_code (c : ascii) : Str.chr (Str.code c) = c.
Proof.
  unfold Str.chr, Str.code. rewrite N2Z.id. apply ascii_N_embedding.
Qed.

Lemma code_eq (c : ascii) (n : Z) : Str.code c = n -> c = Str.chr n.
Proof. intros <-. symmetry. apply chr_code. Qed.

Lemma string_body_eq (c : ascii) (r : string) :
  Json.string_body (String c r)
  = if Str.code c =? 34 then Some ("", r)
    else if Str.code c =? 92 then
      match r with
      | EmptyString => None
      | String e r0 =>
          if Str.code e =? 117 then
            match r0 with
            | String a (String b (String c1 (String d r1))) =>
                match Json.hex4 a b c1 d with
                | Some cu =>
                    match r1 with
                    | String e' (String u' (String a' (String b' (String c' (String d' r2))))) =>
                        match Json.surrogate_pair cu e' u' a' b' c' d' with
                        | Some cp => Json.prepend (Json.utf8 cp) (Json.string_body r2)
                        | None => Json.prepend (Json.utf8 cu) (Json.string_body r1)
                        end
                    | _ => Json.prepend (Json.utf8 cu) (Json.string_body r1)
                    end
                | None => None
                end
            | _ => None
            end
          else
            match Json.simple_escape e with
            | Some x => Json.prepend (String x "") (Json.string_body r0)
            | None => None
            end
      end
    else if Str.code c <? 32 then None
    else Json.prepend (String c "") (Json.string_body r).
Proof. reflexivity. Qed.

Lemma surrogate_pair_not_high (cu : Z) (e u a b c d : ascii) :
  Json.is_high cu = false -> Json.surrogate_pair cu e u a b c d = None.
Proof.
  intros H. unfold Json.surrogate_pair. rewrite H, !andb_false_r. reflexivity.
Qed.

(** A control character written as a [\u] escape is read back. *)
Lemma string_body_control (n : Z) (r1 : string) :
  0 <= n < 32 ->
  Json.string_body (Stringify.UnicodeEscape n ++ r1)
  = Json.prepend (String (Str.chr n) "") (Json.string_body r1).
Proof.
  intros Hn. rewrite <- (Z2Nat.id n) by lia.
  assert (Hk : (Z.to_nat n < 32)%nat) by lia.
  generalize dependent (Z.to_nat n). clear Hn. intros k Hk.
  do 32 (destruct k as [| k];
         [match goal with
          | |- context [Stringify.UnicodeEscape ?z] =>
              let u := eval vm_compute in (Stringify.UnicodeEscape z) in
              change (Stringify.UnicodeEscape z) with u
          end;
          cbn [append]; rewrite string_body_eq;
          destruct r1 as [| e' [| u' [| a' [| b' [| c' [| d' r2]]]]]];
          try reflexivity;
          cbn -[Json.string_body Json.surrogate_pair];
          rewrite surrogate_pair_not_high by reflexivity; reflexivity |]).
  lia.
Qed.

Lemma quoted_eq (c : ascii) (r : string) :
  Stringify.quoted (String c r)
  = match Stringify.short_escape (Str.code c) with
    | Some e => String "\" (String e (Stringify.quoted r))
    | None =>
        if Str.code c <? 32 then Stringify.UnicodeEscape (Str.code c) ++ Stringify.quoted r
        else if Str.code c =? 237 then
          match r with
          | String b (String c' r') =>
              match Stringify.lone_surrogate b c' with
              | Some cu => Stringify.UnicodeEscape cu ++ Stringify.quoted r'
              | None => String c (Stringify.quoted r)
              end
          | _ => String c (Stringify.quoted r)
          end
        else String c (Stringify.quoted r)
    end.
Proof. reflexivity. Qed.

Lemma short_escape_spec (n : Z) (e : ascii) :
  Stringify.short_escape n = Some e ->
  Str.code e <> 117 /\ Json.simple_escape e = Some (Str.chr n) /\ 0 <= n < 256.
Proof.
  unfold Stringify.short_escape.
  repeat match goal with
    | |- context [?a =? ?b] =>
        destruct (Z.eqb_spec a b) as [-> |];
        [intros H; inversion H; subst; vm_compute; repeat split; congruence |]
    end.
  discriminate.
Qed.

Lemma short_escape_none (n : Z) :
  Stringify.short_escape n = None -> n <> 34 /\ n <> 92.
Proof.
  unfold Stringify.short_escape.
  repeat match goal with
    | |- context [?a =? ?b] => destruct (Z.eqb_spec a b) as [-> |]; [discriminate |]
    end.
  intros _. split; assumption.
Qed.

(** No two surrogates meet in a string without surrogates. *)
Lemma joined_surrogate_free (s : string) : surrogate_free s = true -> Json.joined s = s.
Proof.
  destruct s as [| c0 [| c1 r]]; try reflexivity.
  cbn [surrogate_free]. intros H. apply andb_true_iff in H. destruct H as [H _].
  apply negb_true_iff in H. unfold Json.joined.
  destruct r as [| c2 [| c3 [| c4 [| c5 r]]]]; try reflexivity.
  destruct (Str.code c0 =? 237); [| reflexivity].
  cbn [andb] in H |- *. rewrite H. reflexivity.
Qed.

Lemma prepend_plain (c : ascii) (r rest : string) :
  surrogate_free (String c r) = true ->
  Json.prepend (String c "") (Some (r, rest)) = Some (String c r, rest).
Proof.
  intros H. unfold Json.prepend. cbn [append].
  rewrite (joined_surrogate_free _ H). reflexivity.
Qed.

(** The characters [QuoteJSONString] writes between the quotes are read
    back as the string they were written from. *)
Lemma string_body_quoted (s rest : string) :
  surrogate_free s = true ->
  Json.string_body (Stringify.quoted s ++ dq ++ rest) = Some (s, rest).
Proof.
  induction s as [| c r IH]; intros Hs.
  - reflexivity.
  - pose proof (prepend_plain c r rest Hs) as Hpre.
    cbn [surrogate_free] in Hs. apply andb_true_iff in Hs. destruct Hs as [Hc Hr].
    specialize (IH Hr). rewrite quoted_eq.
    pose proof (code_range c) as Hrange.
    destruct (Stringify.short_escape (Str.code c)) as [e |] eqn:He.
    + destruct (short_escape_spec _ _ He) as [Hu [Hsimple _]].
      cbn [append]. rewrite string_body_eq.
      change (Str.code "\" =? 34) with false. change (Str.code "\" =? 92) with true.
      cbv iota.
      replace (Str.code e =? 117) with false by (symmetry; apply Z.eqb_neq; exact Hu).
      rewrite Hsimple, IH, chr_code. exact Hpre.
    + destruct (short_escape_none _ He) as [H34 H92].
      destruct (Z.ltb_spec (Str.code c) 32) as [Hlow | Hhigh].
      * rewrite append_assoc, string_body_control by lia.
        rewrite IH, chr_code. exact Hpre.
      * assert (Hplain : Json.string_body (String c (Stringify.quoted r) ++ dq ++ rest)
                         = Some (String c r, rest)).
        { cbn [append]. rewrite string_body_eq.
          replace (Str.code c =? 34) with false by (symmetry; apply Z.eqb_neq; exact H34).
          replace (Str.code c =? 92) with false by (symmetry; apply Z.eqb_neq; exact H92).
          replace (Str.code c <? 32) with false by (symmetry; apply Z.ltb_ge; exact Hhigh).
          rewrite IH. exact Hpre. }
        destruct (Z.eqb_spec (Str.code c) 237) as [H237 | _]; [| exact Hplain].
        destruct r as [| b [| c' r']]; try exact Hplain.
        replace (Stringify.lone_surrogate b c') with (@None Z); [exact Hplain |].
        cbn [andb] in Hc. apply negb_true_iff in Hc. unfold Stringify.lone_surrogate. rewrite Hc. reflexivity.
Qed.

(** ** Printed values read back *)

Lemma value_eq (f : nat) (s : string) :
  Json.value (S f) s
  = match Json.ws s with
    | EmptyString => Json.Bad
    | String c r =>
        let n := Str.code c in
        if n =? 123 then
          if Json.starts_with 125 (Json.ws r) then Json.Ok (Json.JObj []) (Json.tail (Json.ws r))
          else Json.members f (Json.ws r) []
        else if n =? 91 then
          if Json.starts_with 93 (Json.ws r) then Json.Ok (Json.JArr []) (Json.tail (Json.ws r))
          else Json.elements f (Json.ws r) []
        else if n =? 34 then
          match Json.string_body r with
          | Some (t, r') => Json.Ok (Json.JStr t) r'
          | None => Json.Bad
          end
        else if n =? 116 then Json.keyword "true" (Json.JBool true) (String c r)
        else if n =? 102 then Json.keyword "false" (Json.JBool false) (String c r)
        else if n =? 110 then Json.keyword "null" Json.JNull (String c r)
        else
          match Json.number_literal (String c r) with
          | Some (x, r') => Json.Ok (Json.JNum x) r'
          | None => Json.Bad
          end
    end.
Proof. reflexivity. Qed.

Lemma elements_eq (f : nat) (s : string) (acc : list Json.JsValue) :
  Json.elements (S f) s acc
  = match Json.value f s with
    | Json.Ok v r =>
        if Json.starts_with 44 (Json.ws r) then Json.elements f (Json.tail (Json.ws r)) (v :: acc)
        else if Json.starts_with 93 (Json.ws r)
        then Json.Ok (Json.JArr (rev (v :: acc))) (Json.tail (Json.ws r))
        else Json.Bad
    | Json.Bad => Json.Bad
    | Json.OutOfFuel => Json.OutOfFuel
    end.
Proof. reflexivity. Qed.

Lemma members_eq (f : nat) (s : string) (acc : list (string * Json.JsValue)) :
  Json.members (S f) s acc
  = if Json.starts_with 34 (Json.ws s) then
      match Json.string_body (Json.tail (Json.ws s)) with
      | Some (k, r1) =>
          if Json.starts_with 58 (Json.ws r1) then
            match Json.value f (Json.tail (Json.ws r1)) with
            | Json.Ok v r3 =>
                if Json.starts_with 44 (Json.ws r3)
                then Json.members f (Json.tail (Json.ws r3)) (Json.set_property acc k v)
                else if Json.starts_with 125 (Json.ws r3)
                then Json.Ok (Json.JObj (Json.set_property acc k v)) (Json.tail (Json.ws r3))
                else Json.Bad
            | Json.Bad => Json.Bad
            | Json.OutOfFuel => Json.OutOfFuel
            end
          else Json.Bad
      | None => Json.Bad
      end
    else Json.Bad.
Proof. reflexivity. Qed.

(** More fuel does not change an outcome that was reached. *)
Lemma fuel_more (f : nat) :
  (forall s, Json.value f s <> Json.OutOfFuel -> Json.value (S f) s = Json.value f s)
  /\ (forall s acc, Json.elements f s acc <> Json.OutOfFuel ->
        Json.elements (S f) s acc = Json.elements f s acc)
  /\ (forall s acc, Json.members f s acc <> Json.OutOfFuel ->
        Json.members (S f) s acc = Json.members f s acc).
Proof.
  induction f as [| f [IHv [IHe IHm]]].
  - repeat split; intros; simpl in *; congruence.
  - split; [| split].
    + intros s H. rewrite (value_eq (S f)). rewrite value_eq in H |- *.
      destruct (Json.ws s) as [| c r]; [reflexivity |].
      cbv zeta in *.
      destruct (Str.code c =? 123).
      { destruct (Json.starts_with 125 (Json.ws r)); [reflexivity |]. apply IHm. exact H. }
      destruct (Str.code c =? 91).
      { destruct (Json.starts_with 93 (Json.ws r)); [reflexivity |]. apply IHe. exact H. }
      reflexivity.
    + intros s acc H. rewrite (elements_eq (S f)). rewrite elements_eq in H |- *.
      destruct (Json.value f s) as [v r | |] eqn:Hv; [| | congruence].
      * rewrite IHv by congruence. rewrite Hv.
        destruct (Json.starts_with 44 (Json.ws r)); [apply IHe; exact H | reflexivity].
      * rewrite IHv by congruence. rewrite Hv. reflexivity.
    + intros s acc H. rewrite (members_eq (S f)). rewrite members_eq in H |- *.
      destruct (Json.starts_with 34 (Json.ws s)); [| reflexivity].
      destruct (Json.string_body (Json.tail (Json.ws s))) as [[k r1] |]; [| reflexivity].
      destruct (Json.starts_with 58 (Json.ws r1)); [| reflexivity].
      destruct (Json.value f (Json.tail (Json.ws r1))) as [v r3 | |] eqn:Hv; [| | congruence].
      * rewrite IHv by congruence. rewrite Hv.
        destruct (Json.starts_with 44 (Json.ws r3)); [apply IHm; exact H | reflexivity].
      * rewrite IHv by congruence. rewrite Hv. reflexivity.
Qed.

Lemma value_fuel_le (f f' : nat) (s : string) :
  (f <= f')%nat -> Json.value f s <> Json.OutOfFuel -> Json.value f' s = Json.value f s.
Proof.
  intros Hle H. induction Hle as [| f' Hle IH]; [reflexivity |].
  rewrite <- IH. apply (proj1 (fuel_more f')). rewrite IH. exact H.
Qed.

(** An outcome reached with some fuel is the outcome of [JSON.parse]. *)
Lemma value_any_fuel (f : nat) (s : string) (v : Json.JsValue) (rest : string) :
  Json.value f s = Json.Ok v rest -> Json.value (Json.parse_fuel s) s = Json.Ok v rest.
Proof.
  intros H.
  destruct (Nat.le_ge_cases f (Json.parse_fuel s)) as [Hle | Hge].
  - rewrite (value_fuel_le f _ s Hle); [exact H | congruence].
  - rewrite <- H. symmetry. apply value_fuel_le; [exact Hge |].
    apply (proj1 (fuel_enough (Json.parse_fuel s))). unfold Json.parse_fuel. lia.
Qed.

Lemma parse_of_value (f : nat) (s : string) (v : Json.JsValue) :
  Json.value f s = Json.Ok v "" -> Json.parse s = Normal v.
Proof.
  intros H. unfold Json.parse. rewrite (value_any_fuel f s v "" H). reflexivity.
Qed.

Lemma ws_not_ws (c : ascii) (r : string) :
  Json.is_ws c = false -> Json.ws (String c r) = String c r.
Proof. intros H. simpl. rewrite H. reflexivity. Qed.

(** *** The order of enumeration *)

Lemma insert_index_map {A B : Type} (g : A -> B) (i : Z) (p : string * A)
    (l : list (Z * (string * A))) :
  Stringify.insert_index i (fst p, g (snd p))
    (map (fun q => (fst q, (fst (snd q), g (snd (snd q))))) l)
  = map (fun q => (fst q, (fst (snd q), g (snd (snd q))))) (Stringify.insert_index i p l).
Proof.
  induction l as [| [j q] r IH]; simpl; [reflexivity |].
  destruct (i <? j); simpl; [reflexivity | rewrite IH; reflexivity].
Qed.

Lemma index_properties_map {A B : Type} (g : A -> B) (fields : list (string * A)) :
  Stringify.index_properties (map (fun p => (fst p, g (snd p))) fields)
  = map (fun q => (fst q, (fst (snd q), g (snd (snd q)))))
      (Stringify.index_properties fields).
Proof.
  induction fields as [| p r IH]; simpl; [reflexivity |].
  destruct (Stringify.array_index (fst p)); [| exact IH].
  rewrite IH. apply insert_index_map.
Qed.

(** The order of enumeration goes by the keys alone. *)
Lemma EnumerableOwnProperties_map {A B : Type} (g : A -> B) (fields : list (string * A)) :
  Stringify.EnumerableOwnProperties (map (fun p => (fst p, g (snd p))) fields)
  = map (fun p => (fst p, g (snd p))) (Stringify.EnumerableOwnProperties fields).
Proof.
  unfold Stringify.EnumerableOwnProperties.
  rewrite index_properties_map, map_app, !map_map. f_equal.
  induction fields as [| p r IH]; simpl; [reflexivity |].
  destruct (Stringify.named (fst p)); simpl; rewrite IH; reflexivity.
Qed.

Lemma insert_index_perm {A : Type} (i : Z) (p : string * A) (l : list (Z * (string * A))) :
  Permutation (Stringify.insert_index i p l) ((i, p) :: l).
Proof.
  induction l as [| [j q] r IH]; simpl; [apply Permutation_refl |].
  destruct (i <? j); [apply Permutation_refl |].
  eapply Permutation_trans; [apply perm_skip; exact IH | apply perm_swap].
Qed.

Lemma EnumerableOwnProperties_perm {A : Type} (fields : list (string * A)) :
  Permutation (Stringify.EnumerableOwnProperties fields) fields.
Proof.
  unfold Stringify.EnumerableOwnProperties.
  induction fields as [| p r IH]; simpl; [apply Permutation_refl |].
  unfold Stringify.named at 1.
  destruct (Stringify.array_index (fst p)) as [i |] eqn:Hi; simpl.
  - eapply Permutation_trans.
    + apply Permutation_app_tail. apply Permutation_map. apply insert_index_perm.
    + simpl. apply perm_skip. exact IH.
  - apply Permutation_sym. apply Permutation_cons_app. apply Permutation_sym. exact IH.
Qed.

(** *** Numbers followed by a delimiter *)

Lemma delimited_head (rest : string) (n : Z) :
  delimited rest -> n <> 44 -> n <> 10 -> Json.starts_with n rest = false.
Proof.
  destruct rest as [| c r]; [reflexivity |]. simpl.
  intros [H | H] H1 H2; rewrite H; apply Z.eqb_neq; congruence.
Qed.

Lemma delimited_stops (rest : string) : delimited rest -> stops rest.
Proof.
  destruct rest as [| c r]; [exact id |]. simpl.
  unfold Str.digit_value. intros [H | H]; rewrite H; reflexivity.
Qed.

Lemma starts_with_app (n : Z) (s rest : string) :
  s <> "" -> Json.starts_with n (s ++ rest) = Json.starts_with n s.
Proof. destruct s; [congruence | reflexivity]. Qed.

Lemma tail_app (s rest : string) : s <> "" -> Json.tail (s ++ rest) = Json.tail s ++ rest.
Proof. destruct s; [congruence | reflexivity]. Qed.

Lemma starts_with_nonempty (n : Z) (s : string) : Json.starts_with n s = true -> s <> "".
Proof. destruct s; [discriminate | discriminate]. Qed.

(** A head test on [s ++ rest] for a character no delimiter is. *)
Lemma starts_with_app_delimited (n : Z) (s rest : string) :
  delimited rest -> n <> 44 -> n <> 10 ->
  Json.starts_with n (s ++ rest) = Json.starts_with n s.
Proof.
  intros Hd H1 H2. destruct s as [| c r]; [| reflexivity].
  simpl. apply delimited_head; assumption.
Qed.

Lemma scan_radix_app (s rest : string) :
  stops rest ->
  forall acc cnt v n r,
  Str.scan_radix 10 s acc cnt = (v, n, r) ->
  Str.scan_radix 10 (s ++ rest) acc cnt = (v, n, r ++ rest).
Proof.
  intros Hst. induction s as [| c s IH]; intros acc cnt v n r H.
  - cbn [Str.scan_radix] in H. inversion H; subst. cbn [append].
    destruct rest as [| c r]; [reflexivity |]. cbn [Str.scan_radix].
    simpl in Hst. rewrite Hst. reflexivity.
  - cbn [Str.scan_radix append] in H |- *.
    destruct (Str.digit_value 10 c).
    + apply IH. exact H.
    + inversion H; subst. reflexivity.
Qed.

Lemma scan_sign_app (s rest : string) :
  delimited rest ->
  forall b r, Str.scan_sign s = (b, r) -> Str.scan_sign (s ++ rest) = (b, r ++ rest).
Proof.
  intros Hd b r H. destruct s as [| c s].
  - simpl in H. inversion H; subst. cbn [append].
    destruct rest as [| c r]; [reflexivity |].
    unfold Str.scan_sign. simpl in Hd.
    destruct Hd as [Hc | Hc]; rewrite Hc; reflexivity.
  - cbn [append]. unfold Str.scan_sign in *.
    destruct (Str.code c =? 43); [inversion H; subst; reflexivity |].
    destruct (Str.code c =? 45); inversion H; subst; reflexivity.
Qed.

(** A number literal is read the same before a delimiter. *)
Lemma number_literal_app (s rest r : string) (x : Num.number) :
  delimited rest ->
  Json.number_literal s = Some (x, r) ->
  Json.number_literal (s ++ rest) = Some (x, r ++ rest).
Proof.
  intros Hd. pose proof (delimited_stops rest Hd) as Hst.
  unfold Json.number_literal, Str.scan_digits.
  rewrite (starts_with_app_delimited 45 s rest Hd) by lia.
  set (neg := Json.starts_with 45 s).
  assert (Hs1 : (if neg then Json.tail (s ++ rest) else s ++ rest)
                = (if neg then Json.tail s else s) ++ rest).
  { unfold neg. destruct (Json.starts_with 45 s) eqn:Hn; [| reflexivity].
    apply tail_app. apply (starts_with_nonempty _ _ Hn). }
  rewrite Hs1. set (s1 := if neg then Json.tail s else s).
  destruct (Str.scan_radix 10 s1 0 0) as [[i ni] r1] eqn:E1.
  rewrite (scan_radix_app s1 rest Hst _ _ _ _ _ E1).
  rewrite (starts_with_app_delimited 48 s1 rest Hd) by lia.
  destruct ((ni =? 0) || Json.starts_with 48 s1 && (1 <? ni)); [discriminate |].
  rewrite (starts_with_app_delimited 46 r1 rest Hd) by lia.
  assert (Htail : forall n u, Json.starts_with n u = true ->
                    Json.tail (u ++ rest) = Json.tail u ++ rest).
  { intros n u Hu. apply tail_app. apply (starts_with_nonempty _ _ Hu). }
  set (frac := if Json.starts_with 46 r1
               then let '(m, nf, r2) := Str.scan_radix 10 (Json.tail r1) i 0 in
                    if nf =? 0 then None else Some (m, nf, r2)
               else Some (i, 0, r1)).
  assert (Hfrac : (if Json.starts_with 46 r1
                   then let '(m, nf, r2) := Str.scan_radix 10 (Json.tail (r1 ++ rest)) i 0 in
                        if nf =? 0 then None else Some (m, nf, r2)
                   else Some (i, 0, r1 ++ rest))
                  = match frac with
                    | Some (m, nf, r2) => Some (m, nf, r2 ++ rest)
                    | None => None
                    end).
  { unfold frac. destruct (Json.starts_with 46 r1) eqn:Hdot; [| reflexivity].
    rewrite (Htail _ _ Hdot).
    destruct (Str.scan_radix 10 (Json.tail r1) i 0) as [[m nf] r2] eqn:E2.
    rewrite (scan_radix_app _ rest Hst _ _ _ _ _ E2).
    destruct (nf =? 0); reflexivity. }
  rewrite Hfrac. destruct frac as [[[m nf] r2] |]; [| discriminate].
  rewrite (starts_with_app_delimited 101 r2 rest Hd) by lia.
  rewrite (starts_with_app_delimited 69 r2 rest Hd) by lia.
  destruct (Json.starts_with 101 r2 || Json.starts_with 69 r2) eqn:He.
  - assert (Hne : r2 <> "").
    { apply orb_true_iff in He. destruct He as [He | He];
        apply (starts_with_nonempty _ _ He). }
    rewrite (tail_app _ _ Hne).
    destruct (Str.scan_sign (Json.tail r2)) as [eneg r4] eqn:E4.
    rewrite (scan_sign_app _ rest Hd _ _ E4).
    destruct (Str.scan_radix 10 r4 0 0) as [[ex ne] r5] eqn:E5.
    rewrite (scan_radix_app _ rest Hst _ _ _ _ _ E5).
    destruct (ne =? 0); [discriminate |].
    intros H. inversion H; subst. reflexivity.
  - intros H. inversion H; subst. reflexivity.
Qed.

(** A number literal begins with a minus sign or a digit. *)
Lemma number_literal_head (s r : string) (x : Num.number) :
  Json.number_literal s = Some (x, r) ->
  exists c t, s = String c t /\ (Str.code c = 45 \/ Str.is_digit c = true).
Proof.
  unfold Json.number_literal, Str.scan_digits.
  destruct s as [| c t].
  - simpl. discriminate.
  - intros H. exists c, t. split; [reflexivity |].
    cbn [Json.starts_with] in H.
    destruct (Z.eqb_spec (Str.code c) 45) as [H45 | H45]; [left; exact H45 |].
    right. cbn [Str.scan_radix] in H.
    destruct (Str.is_digit c) eqn:Hdig; [reflexivity |].
    exfalso.
    assert (Hv : Str.digit_value 10 c = None).
    { unfold Str.digit_value. unfold Str.is_digit in Hdig.
      rewrite Hdig.
      destruct ((97 <=? Str.code c) && (Str.code c <=? 102)) eqn:H1.
      - apply andb_true_iff in H1. rewrite !Z.leb_le in H1.
        replace (Str.code c - 87 <? 10) with false by (symmetry; apply Z.ltb_ge; lia).
        reflexivity.
      - destruct ((65 <=? Str.code c) && (Str.code c <=? 70)) eqn:H2; [| reflexivity].
        apply andb_true_iff in H2. rewrite !Z.leb_le in H2.
        replace (Str.code c - 55 <? 10) with false by (symmetry; apply Z.ltb_ge; lia).
        reflexivity. }
    rewrite Hv in H. cbn in H. discriminate.
Qed.

Lemma identical_eq (x y : Num.number) : identical x y = true -> x = y.
Proof.
  destruct x as [s1 | s1 | | s1 m1 e1], y as [s2 | s2 | | s2 m2 e2]; simpl;
    try discriminate; try reflexivity.
  - intros H. apply Bool.eqb_prop in H. congruence.
  - intros H. apply Bool.eqb_prop in H. congruence.
  - intros H. apply andb_true_iff in H. destruct H as [H He].
    apply andb_true_iff in H. destruct H as [Hs Hm].
    apply Bool.eqb_prop in Hs. apply Pos.eqb_eq in Hm. apply Z.eqb_eq in He. congruence.
Qed.

Lemma reads_back_spec (x : Num.number) :
  reads_back x = true ->
  Num.isFinite x = true
  /\ Json.number_literal (Str.Number_toString x) = Some (x, "").
Proof.
  unfold reads_back. intros H. apply andb_true_iff in H. destruct H as [Hf H].
  split; [exact Hf |].
  destruct (Json.number_literal (Str.Number_toString x)) as [[y [| c r]] |];
    try discriminate.
  apply identical_eq in H. subst. reflexivity.
Qed.

(** A printed Number is read back before a delimiter. *)
Lemma value_number (f : nat) (x : Num.number) (rest : string) :
  reads_back x = true -> delimited rest ->
  Json.value (S f) (Stringify.SerializeJSONProperty "" (Json.JNum x) ++ rest)
  = Json.Ok (Json.JNum x) rest.
Proof.
  intros Hx Hd. destruct (reads_back_spec x Hx) as [Hfin Hlit].
  cbn [Stringify.SerializeJSONProperty]. rewrite Hfin.
  pose proof (number_literal_app _ rest _ _ Hd Hlit) as Happ. cbn [append] in Happ.
  destruct (number_literal_head _ _ _ Hlit) as [c [t [Hs Hc]]].
  rewrite Hs in Happ |- *. cbn [append] in Happ |- *.
  assert (Hcode : Str.code c = 45 \/ 48 <= Str.code c <= 57).
  { destruct Hc as [Hc | Hc]; [left; exact Hc | right; apply is_digit_code; exact Hc]. }
  rewrite value_eq.
  assert (Hws : Json.is_ws c = false).
  { unfold Json.is_ws.
    destruct (Z.eqb_spec (Str.code c) 32), (Z.eqb_spec (Str.code c) 9),
      (Z.eqb_spec (Str.code c) 10), (Z.eqb_spec (Str.code c) 13); try reflexivity; lia. }
  rewrite ws_not_ws by exact Hws. cbv zeta.
  destruct (Z.eqb_spec (Str.code c) 123); [lia |].
  destruct (Z.eqb_spec (Str.code c) 91); [lia |].
  destruct (Z.eqb_spec (Str.code c) 34); [lia |].
  destruct (Z.eqb_spec (Str.code c) 116); [lia |].
  destruct (Z.eqb_spec (Str.code c) 102); [lia |].
  destruct (Z.eqb_spec (Str.code c) 110); [lia |].
  rewrite Happ. reflexivity.
Qed.

(** *** Induction on values *)

Lemma JsValue_induction (P : Json.JsValue -> Prop) :
  P Json.JNull ->
  (forall b, P (Json.JBool b)) ->
  (forall x, P (Json.JNum x)) ->
  (forall s, P (Json.JStr s)) ->
  (forall items, Forall P items -> P (Json.JArr items)) ->
  (forall fields, Forall (fun p => P (snd p)) fields -> P (Json.JObj fields)) ->
  forall v, P v.
Proof.
  intros Hnull Hbool Hnum Hstr Harr Hobj.
  fix IH 1. intros v.
  destruct v as [| b | x | s | items | fields].
  - exact Hnull.
  - apply Hbool.
  - apply Hnum.
  - apply Hstr.
  - apply Harr. induction items as [| v rest IHrest]; constructor; [apply IH | exact IHrest].
  - apply Hobj. induction fields as [| [k v] rest IHrest]; constructor;
      [apply IH | exact IHrest].
Qed.

(** *** White space *)

Lemma ws_app (a x : string) : all_chars Json.is_ws a = true -> Json.ws (a ++ x) = Json.ws x.
Proof.
  induction a as [| c a IH]; intros H; [reflexivity |].
  simpl in H. apply andb_true_iff in H. destruct H as [Hc Ha].
  cbn [append Json.ws]. rewrite Hc. apply IH. exact Ha.
Qed.

Lemma value_ws_eq (f : nat) (s s' : string) :
  Json.ws s = Json.ws s' -> Json.value f s = Json.value f s'.
Proof.
  intros H. destruct f as [| f]; [reflexivity |]. rewrite !value_eq, H. reflexivity.
Qed.

Lemma elements_ws_eq (f : nat) (s s' : string) (acc : list Json.JsValue) :
  Json.ws s = Json.ws s' -> Json.elements f s acc = Json.elements f s' acc.
Proof.
  intros H. destruct f as [| f]; [reflexivity |].
  rewrite !elements_eq, (value_ws_eq f s s' H). reflexivity.
Qed.

Lemma members_ws_eq (f : nat) (s s' : string) (acc : list (string * Json.JsValue)) :
  Json.ws s = Json.ws s' -> Json.members f s acc = Json.members f s' acc.
Proof.
  intros H. destruct f as [| f]; [reflexivity |]. rewrite !members_eq, H. reflexivity.
Qed.

Lemma all_ws_gap (indent : string) :
  all_chars Json.is_ws indent = true ->
  all_chars Json.is_ws (indent ++ Stringify.gap) = true.
Proof. intros H. rewrite all_chars_app, H. reflexivity. Qed.

Lemma all_ws_nl_indent (indent : string) :
  all_chars Json.is_ws indent = true -> all_chars Json.is_ws (nl ++ indent) = true.
Proof. intros H. rewrite all_chars_app, H. reflexivity. Qed.

(** *** The first character of a printed value *)

Lemma printed_head (indent : string) (v : Json.JsValue) :
  printable v = true -> opens_value (Stringify.SerializeJSONProperty indent v).
Proof.
  unfold opens_value.
  destruct v as [| b | x | s | items | fields]; intros Hp.
  - do 2 eexists. split; [reflexivity |]. split; [reflexivity | discriminate].
  - destruct b; do 2 eexists; (split; [reflexivity |]); (split; [reflexivity | discriminate]).
  - cbn [printable] in Hp. destruct (reads_back_spec x Hp) as [Hfin Hlit].
    cbn [Stringify.SerializeJSONProperty]. rewrite Hfin.
    destruct (number_literal_head _ _ _ Hlit) as [c [t [Hs Hc]]].
    exists c, t. split; [exact Hs |].
    assert (Hcode : Str.code c = 45 \/ 48 <= Str.code c <= 57).
    { destruct Hc as [Hc | Hc]; [left; exact Hc | right; apply is_digit_code; exact Hc]. }
    split; [| lia].
    unfold Json.is_ws.
    destruct (Z.eqb_spec (Str.code c) 32), (Z.eqb_spec (Str.code c) 9),
      (Z.eqb_spec (Str.code c) 10), (Z.eqb_spec (Str.code c) 13); try reflexivity; lia.
  - do 2 eexists. split; [reflexivity |]. split; [reflexivity | discriminate].
  - cbn [Stringify.SerializeJSONProperty].
    destruct (map _ items); do 2 eexists; (split; [reflexivity |]);
      (split; [reflexivity | discriminate]).
  - cbn [Stringify.SerializeJSONProperty].
    match goal with |- context [match ?l with [] => _ | _ :: _ => _ end] => destruct l end;
      do 2 eexists; (split; [reflexivity |]); (split; [reflexivity | discriminate]).
Qed.

Lemma ws_opens (s x : string) : opens_value s -> Json.ws (s ++ x) = s ++ x.
Proof.
  intros [c [t [-> [Hws _]]]]. cbn [append]. apply ws_not_ws. exact Hws.
Qed.

Lemma opens_not_close (s x : string) :
  opens_value s -> Json.starts_with 93 (s ++ x) = false.
Proof.
  intros [c [t [-> [_ Hc]]]]. cbn [append Json.starts_with]. apply Z.eqb_neq. exact Hc.
Qed.

(** *** Fuel *)

Lemma reads_intro (s : string) (v : Json.JsValue) (rest : string) (F : nat) :
  (forall f, (F <= f)%nat -> Json.value f s = Json.Ok v rest) -> reads s v rest.
Proof. intros H. exists F. exact H. Qed.

(** *** Arrays *)

Lemma elements_printed (indent' : string) (items : list Json.JsValue) :
  all_chars Json.is_ws indent' = true ->
  Forall (fun v => forall rest, delimited rest ->
                   reads (Stringify.SerializeJSONProperty indent' v ++ rest)
                     (enumerated v) rest) items ->
  items <> [] ->
  forall (tail_text : string) (acc : list Json.JsValue),
  all_chars Json.is_ws tail_text = true ->
  forall rest,
  exists F, forall f, (F <= f)%nat ->
    Json.elements f
      (String.concat (Stringify.separator indent')
         (map (Stringify.SerializeJSONProperty indent') items)
       ++ nl ++ tail_text ++ "]" ++ rest) acc
    = Json.Ok (Json.JArr (rev acc ++ map enumerated items)) rest.
Proof.
  intros Hind Hall Hne tail_text.
  induction Hall as [| v more Hv Hmore IH]; [congruence |].
  intros acc Htail rest.
  destruct more as [| v2 more'].
  - (* the last item *)
    cbn [map String.concat].
    destruct (Hv (nl ++ tail_text ++ "]" ++ rest)) as [F HF]; [right; reflexivity |].
    exists (S F). intros f Hf. destruct f as [| f]; [lia |].
    rewrite elements_eq, HF by lia.
    assert (Hws : Json.ws (nl ++ tail_text ++ "]" ++ rest) = "]" ++ rest).
    { rewrite <- append_assoc. rewrite ws_app by (apply all_ws_nl_indent; exact Htail).
      reflexivity. }
    rewrite Hws. cbn [append Json.starts_with Json.tail].
    change (Str.code "]" =? 44) with false. change (Str.code "]" =? 93) with true.
    cbv iota. cbn [rev map]. reflexivity.
  - (* an item followed by another *)
    specialize (IH ltac:(discriminate)).
    cbn [map String.concat]. cbn [map String.concat] in IH.
    set (more_text := String.concat (Stringify.separator indent')
                        (Stringify.SerializeJSONProperty indent' v2
                           :: map (Stringify.SerializeJSONProperty indent') more')) in *.
    rewrite !append_assoc.
    set (after := more_text ++ nl ++ tail_text ++ "]" ++ rest) in *.
    destruct (Hv (Stringify.separator indent' ++ after)) as [F HF]; [left; reflexivity |].
    destruct (IH (enumerated v :: acc) Htail rest) as [F' HF'].
    exists (S (Nat.max F F')). intros f Hf. destruct f as [| f]; [lia |].
    rewrite elements_eq, HF by lia.
    unfold Stringify.separator at 1 2 3. rewrite !append_assoc.
    cbn [append]. rewrite ws_not_ws by reflexivity.
    cbn [Json.starts_with Json.tail]. change (Str.code "," =? 44) with true. cbv iota.
    rewrite (elements_ws_eq f _ after).
    + fold after in HF'. rewrite HF' by lia. cbn [rev map].
      rewrite <- app_assoc. reflexivity.
    + change (String "010" (indent' ++ after)) with (nl ++ indent' ++ after).
      rewrite <- append_assoc. apply ws_app. apply all_ws_nl_indent. exact Hind.
Qed.

(** *** Strings *)

Lemma value_string (f : nat) (s rest : string) :
  surrogate_free s = true ->
  Json.value (S f) (Stringify.QuoteJSONString s ++ rest) = Json.Ok (Json.JStr s) rest.
Proof.
  intros Hs. unfold Stringify.QuoteJSONString.
  rewrite !append_assoc. change (dq ++ Stringify.quoted s ++ dq ++ rest)
    with (String (Str.chr 34) (Stringify.quoted s ++ dq ++ rest)).
  rewrite value_eq, ws_not_ws by reflexivity.
  cbv zeta. change (Str.code (Str.chr 34)) with 34. cbn [Z.eqb Pos.eqb].
  rewrite (string_body_quoted s rest Hs). reflexivity.
Qed.

(** *** Objects *)

Lemma concat_cons2 (sep a : string) (l : list string) :
  l <> [] -> String.concat sep (a :: l) = a ++ sep ++ String.concat sep l.
Proof. destruct l; [congruence | reflexivity]. Qed.

Lemma set_property_fresh (acc : list (string * Json.JsValue)) (k : string) (v : Json.JsValue) :
  ~ In k (map fst acc) -> Json.set_property acc k v = (acc ++ [(k, v)])%list.
Proof.
  induction acc as [| [k0 w] r IH]; intros Hnin; [reflexivity |].
  cbn [Json.set_property app].
  destruct (String.eqb_spec k0 k) as [Heq | Hneq].
  - exfalso. apply Hnin. left. exact Heq.
  - rewrite IH; [reflexivity |]. intros Hin. apply Hnin. right. exact Hin.
Qed.

Lemma members_printed (indent' : string) (fields : list (string * Json.JsValue)) :
  all_chars Json.is_ws indent' = true ->
  Forall (fun p => surrogate_free (fst p) = true
                   /\ forall rest, delimited rest ->
                      reads (Stringify.SerializeJSONProperty indent' (snd p) ++ rest)
                        (enumerated (snd p)) rest) fields ->
  fields <> [] ->
  forall (tail_text : string) (acc : list (string * Json.JsValue)),
  all_chars Json.is_ws tail_text = true ->
  NoDup (map fst acc ++ map fst fields) ->
  forall rest,
  exists F, forall f, (F <= f)%nat ->
    Json.members f
      (String.concat (Stringify.separator indent') (map (member_text indent') fields)
       ++ nl ++ tail_text ++ "}" ++ rest) acc
    = Json.Ok (Json.JObj (acc ++ map enumerated_member fields)) rest.
Proof.
  intros Hind Hall Hne tail_text.
  induction Hall as [| [k v] more [Hk Hv] Hmore IH]; [congruence |].
  intros acc Htail Hnd rest. cbn [fst snd] in Hk, Hv.
  assert (Hfresh : ~ In k (map fst acc)).
  { cbn [map fst] in Hnd. apply NoDup_remove_2 in Hnd.
    intros Hin. apply Hnd. apply in_or_app. left. exact Hin. }
  assert (Hstep : forall f after,
            delimited after ->
            (forall g, (f <= g)%nat ->
               Json.value g (Stringify.SerializeJSONProperty indent' v ++ after)
               = Json.Ok (enumerated v) after) ->
            Json.members (S f) (member_text indent' (k, v) ++ after) acc
            = if Json.starts_with 44 (Json.ws after)
              then Json.members f (Json.tail (Json.ws after))
                     (acc ++ [(k, enumerated v)])%list
              else if Json.starts_with 125 (Json.ws after)
              then Json.Ok (Json.JObj (acc ++ [(k, enumerated v)])%list)
                     (Json.tail (Json.ws after))
              else Json.Bad).
  { intros f after Hd Hval. unfold member_text, Stringify.QuoteJSONString. cbn [fst snd].
    rewrite !append_assoc.
    change (dq ++ Stringify.quoted k ++ dq ++ ": "
              ++ Stringify.SerializeJSONProperty indent' v ++ after)
      with (String (Str.chr 34)
              (Stringify.quoted k ++ dq ++ ": "
                 ++ Stringify.SerializeJSONProperty indent' v ++ after)).
    rewrite members_eq, ws_not_ws by reflexivity.
    cbn [Json.starts_with Json.tail].
    change (Str.code (Str.chr 34) =? 34) with true. cbv iota.
    rewrite (string_body_quoted k _ Hk).
    cbn [append]. rewrite ws_not_ws by reflexivity.
    cbn [Json.starts_with Json.tail]. change (Str.code ":" =? 58) with true. cbv iota.
    rewrite (value_ws_eq f _ (Stringify.SerializeJSONProperty indent' v ++ after))
      by reflexivity.
    rewrite Hval by lia. rewrite (set_property_fresh acc k _ Hfresh). reflexivity. }
  destruct more as [| p2 more'].
  - (* the last member *)
    cbn [map String.concat].
    destruct (Hv (nl ++ tail_text ++ "}" ++ rest)) as [F HF]; [right; reflexivity |].
    exists (S F). intros f Hf. destruct f as [| f]; [lia |].
    rewrite Hstep; [| right; reflexivity | intros g Hg; apply HF; lia].
    assert (Hws : Json.ws (nl ++ tail_text ++ "}" ++ rest) = "}" ++ rest).
    { rewrite <- append_assoc. rewrite ws_app by (apply all_ws_nl_indent; exact Htail).
      reflexivity. }
    rewrite Hws. cbn [append Json.starts_with Json.tail].
    change (Str.code "}" =? 44) with false. change (Str.code "}" =? 125) with true.
    cbv iota. reflexivity.
  - (* a member followed by another *)
    specialize (IH ltac:(discriminate)).
    change (map (member_text indent') ((k, v) :: p2 :: more'))
      with (member_text indent' (k, v) :: map (member_text indent') (p2 :: more')).
    rewrite concat_cons2 by discriminate.
    set (more_text := String.concat (Stringify.separator indent')
                        (map (member_text indent') (p2 :: more'))) in *.
    rewrite !append_assoc.
    set (after := more_text ++ nl ++ tail_text ++ "}" ++ rest) in *.
    destruct (Hv (Stringify.separator indent' ++ after)) as [F HF]; [left; reflexivity |].
    assert (Hnd' : NoDup (map fst (acc ++ [(k, enumerated v)]) ++ map fst (p2 :: more'))).
    { rewrite map_app. cbn [map fst]. rewrite <- app_assoc. exact Hnd. }
    destruct (IH (acc ++ [(k, enumerated v)])%list Htail Hnd' rest) as [F' HF'].
    exists (S (Nat.max F F')). intros f Hf. destruct f as [| f]; [lia |].
    rewrite Hstep; [| left; reflexivity | intros g Hg; apply HF; lia].
    unfold Stringify.separator at 1 2 3. rewrite !append_assoc.
    cbn [append]. rewrite ws_not_ws by reflexivity.
    cbn [Json.starts_with Json.tail]. change (Str.code "," =? 44) with true. cbv iota.
    rewrite (members_ws_eq f _ after).
    + fold after in HF'. rewrite HF' by lia.
      rewrite <- app_assoc. reflexivity.
    + change (String "010" (indent' ++ after)) with (nl ++ indent' ++ after).
      rewrite <- append_assoc. apply ws_app. apply all_ws_nl_indent. exact Hind.
Qed.

(** *** Keywords *)

Lemma keyword_app (kw : string) (v : Json.JsValue) (rest : string) :
  Json.keyword kw v (kw ++ rest) = Json.Ok v rest.
Proof.
  unfold Json.keyword.
  assert (Hp : String.prefix kw (kw ++ rest) = true).
  { induction kw as [| c kw IH]; cbn [append String.prefix].
    - destruct rest; reflexivity.
    - destruct (ascii_dec c c) as [_ | Hne]; [exact IH | congruence]. }
  assert (Hd : Json.drop (String.length kw) (kw ++ rest) = rest).
  { clear Hp. induction kw as [| c kw IH]; cbn [append String.length Json.drop].
    - destruct rest; reflexivity.
    - exact IH. }
  rewrite Hp, Hd. reflexivity.
Qed.

Lemma value_null (f : nat) (rest : string) :
  Json.value (S f) ("null" ++ rest) = Json.Ok Json.JNull rest.
Proof. rewrite value_eq. apply (keyword_app "null"). Qed.

Lemma value_true (f : nat) (rest : string) :
  Json.value (S f) ("true" ++ rest) = Json.Ok (Json.JBool true) rest.
Proof. rewrite value_eq. apply (keyword_app "true"). Qed.

Lemma value_false (f : nat) (rest : string) :
  Json.value (S f) ("false" ++ rest) = Json.Ok (Json.JBool false) rest.
Proof. rewrite value_eq. apply (keyword_app "false"). Qed.

(** *** Values *)

Lemma concat_head (sep a x : string) (l : list string) :
  exists y, String.concat sep (a :: l) ++ x = a ++ y.
Proof.
  destruct l as [| b l].
  - exists x. reflexivity.
  - exists (sep ++ String.concat sep (b :: l) ++ x).
    rewrite concat_cons2 by discriminate. rewrite !append_assoc. reflexivity.
Qed.

Lemma forallb_Forall {A : Type} (p : A -> bool) (l : list A) :
  forallb p l = true -> Forall (fun a => p a = true) l.
Proof. intros H. apply Forall_forall. apply forallb_forall. exact H. Qed.

Lemma distinct_NoDup (keys : list string) : distinct keys = true -> NoDup keys.
Proof.
  induction keys as [| k r IH]; intros H; [constructor |].
  cbn [distinct] in H. apply andb_true_iff in H. destruct H as [Hk Hr].
  constructor; [| apply IH; exact Hr].
  intros Hin. apply negb_true_iff in Hk.
  assert (Ht : existsb (String.eqb k) r = true).
  { apply existsb_exists. exists k. split; [exact Hin | apply String.eqb_refl]. }
  congruence.
Qed.

(** A printable value, printed at any indentation and followed by a
    delimiter, is read back with its properties in enumeration order. *)
Lemma printed_reads (v : Json.JsValue) :
  printable v = true ->
  forall indent rest,
  all_chars Json.is_ws indent = true -> delimited rest ->
  reads (Stringify.SerializeJSONProperty indent v ++ rest) (enumerated v) rest.
Proof.
  induction v as [| b | x | s | items IH | fields IH] using JsValue_induction;
    intros Hp indent rest Hind Hd.
  - exists 1%nat. intros f Hf. destruct f as [| f]; [lia |]. apply value_null.
  - exists 1%nat. intros f Hf. destruct f as [| f]; [lia |].
    destruct b; [apply value_true | apply value_false].
  - exists 1%nat. intros f Hf. destruct f as [| f]; [lia |].
    apply (value_number f x rest Hp Hd).
  - exists 1%nat. intros f Hf. destruct f as [| f]; [lia |].
    apply (value_string f s rest Hp).
  - cbn [printable] in Hp. apply forallb_Forall in Hp.
    destruct items as [| v more].
    + exists 1%nat. intros f Hf. destruct f as [| f]; [lia |]. reflexivity.
    + set (indent' := indent ++ Stringify.gap).
      assert (Hind' : all_chars Json.is_ws indent' = true) by (apply all_ws_gap; exact Hind).
      assert (Hall : Forall (fun v => forall rest, delimited rest ->
                        reads (Stringify.SerializeJSONProperty indent' v ++ rest)
                          (enumerated v) rest) (v :: more)).
      { apply Forall_forall. intros w Hw rest' Hd'.
        rewrite Forall_forall in IH, Hp.
        apply (IH w Hw (Hp w Hw) indent' rest' Hind' Hd'). }
      destruct (elements_printed indent' (v :: more) Hind' Hall ltac:(discriminate)
                  indent [] Hind rest) as [F HF].
      exists (S F). intros f Hf. destruct f as [| f]; [lia |].
      cbn [Stringify.SerializeJSONProperty map enumerated]. fold indent'.
      set (body := String.concat (Stringify.separator indent')
                     (Stringify.SerializeJSONProperty indent' v
                        :: map (Stringify.SerializeJSONProperty indent') more)).
      change (map (Stringify.SerializeJSONProperty indent') (v :: more))
        with (Stringify.SerializeJSONProperty indent' v
                :: map (Stringify.SerializeJSONProperty indent') more) in HF.
      fold body in HF.
      rewrite !append_assoc. cbn [append].
      rewrite value_eq, ws_not_ws by reflexivity. cbv zeta.
      change (Str.code "[" =? 123) with false. change (Str.code "[" =? 91) with true.
      cbv iota.
      assert (Hws : Json.ws (nl ++ indent' ++ body ++ nl ++ indent ++ "]" ++ rest)
                    = body ++ nl ++ indent ++ "]" ++ rest).
      { rewrite <- append_assoc, ws_app by (apply all_ws_nl_indent; exact Hind').
        destruct (concat_head (Stringify.separator indent')
                    (Stringify.SerializeJSONProperty indent' v)
                    (nl ++ indent ++ "]" ++ rest)
                    (map (Stringify.SerializeJSONProperty indent') more)) as [y Hy].
        fold body in Hy. rewrite Hy. apply ws_opens. apply printed_head.
        rewrite Forall_forall in Hp. apply Hp. left. reflexivity. }
      change (String "010" (indent' ++ body ++ String "010" (indent ++ String "]" rest)))
        with (nl ++ indent' ++ body ++ nl ++ indent ++ "]" ++ rest).
      change (String "]" rest) with ("]" ++ rest).
      rewrite Hws.
      assert (Hopen : Json.starts_with 93 (body ++ nl ++ indent ++ "]" ++ rest) = false).
      { destruct (concat_head (Stringify.separator indent')
                    (Stringify.SerializeJSONProperty indent' v)
                    (nl ++ indent ++ "]" ++ rest)
                    (map (Stringify.SerializeJSONProperty indent') more)) as [y Hy].
        fold body in Hy. rewrite Hy. apply opens_not_close. apply printed_head.
        rewrite Forall_forall in Hp. apply Hp. left. reflexivity. }
      rewrite Hopen. rewrite HF by lia. reflexivity.
  - cbn [printable] in Hp. apply andb_true_iff in Hp. destruct Hp as [Hkeys Hp].
    apply distinct_NoDup in Hkeys. apply forallb_Forall in Hp.
    set (indent' := indent ++ Stringify.gap).
    assert (Hind' : all_chars Json.is_ws indent' = true) by (apply all_ws_gap; exact Hind).
    set (ordered := Stringify.EnumerableOwnProperties fields).
    assert (Hperm : Permutation ordered fields) by apply EnumerableOwnProperties_perm.
    assert (Htext :
              Stringify.SerializeJSONProperty indent (Json.JObj fields)
              = match map (member_text indent') ordered with
                | [] => "{}"
                | partial =>
                    "{" ++ nl ++ indent' ++ String.concat (Stringify.separator indent') partial
                      ++ nl ++ indent ++ "}"
                end).
    { cbn [Stringify.SerializeJSONProperty]. fold indent'.
      rewrite (EnumerableOwnProperties_map (Stringify.SerializeJSONProperty indent') fields).
      fold ordered. rewrite map_map. reflexivity. }
    assert (Hvalue : enumerated (Json.JObj fields)
                     = Json.JObj (map enumerated_member ordered)).
    { cbn [enumerated]. rewrite (EnumerableOwnProperties_map enumerated fields).
      reflexivity. }
    rewrite Htext, Hvalue.
    destruct ordered as [| p more] eqn:Hord.
    + exists 1%nat. intros f Hf. destruct f as [| f]; [lia |]. reflexivity.
    + assert (Hall : Forall (fun p => surrogate_free (fst p) = true
                        /\ forall rest, delimited rest ->
                           reads (Stringify.SerializeJSONProperty indent' (snd p) ++ rest)
                             (enumerated (snd p)) rest) (p :: more)).
      { apply Forall_forall. intros q Hq.
        assert (Hin : In q fields) by (apply (Permutation_in _ Hperm); exact Hq).
        rewrite Forall_forall in IH, Hp.
        specialize (Hp q Hin). apply andb_true_iff in Hp. destruct Hp as [Hk Hv].
        split; [exact Hk |]. intros rest' Hd'.
        apply (IH q Hin Hv indent' rest' Hind' Hd'). }
      assert (Hnd : NoDup (map fst (@nil (string * Json.JsValue)) ++ map fst (p :: more))).
      { change (NoDup (map fst (p :: more))).
        apply (Permutation_NoDup (l := map fst fields)); [| exact Hkeys].
        apply Permutation_map. apply Permutation_sym. exact Hperm. }
      destruct (members_printed indent' (p :: more) Hind' Hall ltac:(discriminate)
                  indent [] Hind Hnd rest) as [F HF].
      exists (S F). intros f Hf. destruct f as [| f]; [lia |].
      change (map (member_text indent') (p :: more))
        with (member_text indent' p :: map (member_text indent') more) in HF |- *.
      cbv iota.
      set (body := String.concat (Stringify.separator indent')
                     (member_text indent' p :: map (member_text indent') more)) in *.
      rewrite !append_assoc. cbn [append].
      rewrite value_eq, ws_not_ws by reflexivity. cbv zeta.
      change (Str.code "{" =? 123) with true. cbv iota.
      change (String "010" (indent' ++ body ++ String "010" (indent ++ String "}" rest)))
        with (nl ++ indent' ++ body ++ nl ++ indent ++ "}" ++ rest).
      change (String "}" rest) with ("}" ++ rest).
      assert (Hws : Json.ws (nl ++ indent' ++ body ++ nl ++ indent ++ "}" ++ rest)
                    = body ++ nl ++ indent ++ "}" ++ rest).
      { rewrite <- append_assoc, ws_app by (apply all_ws_nl_indent; exact Hind').
        destruct (concat_head (Stringify.separator indent') (member_text indent' p)
                    (nl ++ indent ++ "}" ++ rest)
                    (map (member_text indent') more)) as [y Hy].
        fold body in Hy. rewrite Hy. unfold member_text, Stringify.QuoteJSONString.
        rewrite !append_assoc. apply ws_not_ws. reflexivity. }
      rewrite Hws.
      assert (Hopen : Json.starts_with 125 (body ++ nl ++ indent ++ "}" ++ rest) = false).
      { destruct (concat_head (Stringify.separator indent') (member_text indent' p)
                    (nl ++ indent ++ "}" ++ rest)
                    (map (member_text indent') more)) as [y Hy].
        fold body in Hy. rewrite Hy. unfold member_text, Stringify.QuoteJSONString.
        rewrite !append_assoc. reflexivity. }
      rewrite Hopen. rewrite HF by lia. reflexivity.
Qed.



(** X14: system details that failed to parse can be recovered from the
    report verbatim: the fallback [{raw: details}], printed by
    [JSON.stringify(_, null, 2)], parses back to [{raw: details}], for
    every text without surrogate code points. *)
Theorem fallback_text_recoverable (details : string) :
  surrogate_free details = true ->
  Json.parse (Stringify.JSON_stringify (wrapped_raw details)) = Normal (wrapped_raw details).
Proof.
  intros Hs.
  assert (Hp : printable (wrapped_raw details) = true).
  { unfold wrapped_raw. cbn [printable map fst snd forallb distinct existsb negb andb].
    change (surrogate_free "raw") with true. cbn [andb]. rewrite Hs. reflexivity. }
  destruct (printed_reads _ Hp "" "" eq_refl I) as [F HF].
  apply (parse_of_value F). unfold Stringify.JSON_stringify.
  rewrite <- (append_nil_r (Stringify.SerializeJSONProperty "" _)).
  apply HF. lia.
Qed.

Lemma fallback_text_recoverable_witness :
  parseSystemDetails (Some "{not json") = wrapped_raw "{not json"
  /\ Json.parse (Stringify.JSON_stringify (wrapped_raw "{not json"))
     = Normal (wrapped_raw "{not json").
Proof.
  split; [vm_compute; reflexivity |].
  apply fallback_text_recoverable. reflexivity.
Defined.

(** * The numbers of the report *)

(** ** Integers written in decimal *)

(** The Number nearest to an integer below [2^53] is that integer. *)
Lemma of_ratio_integer (s : bool) (N : Z) :
  0 < N < 2 ^ 53 -> Num.of_ratio s N 1 = canon s N.
Proof.
  intros HN. unfold Num.of_ratio.
  replace (N =? 0) with false by (symmetry; apply Z.eqb_neq; lia).
  pose proof (Zdigits2_pos N ltac:(lia)) as Hd.
  assert (Hd53 : Zdigits2 N <= 53) by (apply Zdigits2_le_iff; lia).
  unfold SFdiv_core_binary.
  change (Zdigits2 1) with 1. rewrite fexp_eq.
  replace (Z.min (Z.max (Zdigits2 N + 0 - (1 + 0) - 53) (-1074)) (0 - 0))
    with (Zdigits2 N - 54) by lia.
  replace (0 - 0 - (Zdigits2 N - 54)) with (54 - Zdigits2 N) by lia.
  cbv zeta.
  destruct (54 - Zdigits2 N) as [| p | p] eqn:Es; [lia | | lia].
  rewrite <- Es. rewrite Z.shiftl_mul_pow2 by lia.
  rewrite div_eucl_div_mod, Z.div_1_r, Z.mod_1_r.
  change (new_location 1 0) with loc_Exact.
  apply binary_round_aux_exact; [exact HN | lia |].
  f_equal. f_equal. lia.
Qed.

Lemma of_decimal_integer (s : bool) (c j : Z) :
  0 < c -> 0 <= j -> c * 10 ^ j < 2 ^ 53 ->
  Num.of_decimal s c j = canon s (c * 10 ^ j).
Proof.
  intros Hc Hj Hlt. unfold Num.of_decimal.
  replace (c =? 0) with false by (symmetry; apply Z.eqb_neq; lia).
  replace (0 <=? j) with true by (symmetry; apply Z.leb_le; lia).
  apply of_ratio_integer.
  assert (0 < 10 ^ j) by (apply Z.pow_pos_nonneg; lia). nia.
Qed.

Lemma Zdigits2_mul_lower (a b : Z) :
  0 < a -> 0 < b -> Zdigits2 a + Zdigits2 b - 1 <= Zdigits2 (a * b).
Proof.
  intros Ha Hb.
  pose proof (Zdigits2_pos a Ha) as Hda. pose proof (Zdigits2_pos b Hb) as Hdb.
  destruct (Z.eq_dec (Zdigits2 a + Zdigits2 b - 1) 0) as [Hz | Hnz].
  - rewrite Hz. apply Zdigits2_nonneg.
  - apply Zdigits2_ge_iff; [nia | lia |].
    pose proof (proj1 (Zdigits2_ge_iff a (Zdigits2 a) Ha Hda) ltac:(lia)) as H1.
    pose proof (proj1 (Zdigits2_ge_iff b (Zdigits2 b) Hb Hdb) ltac:(lia)) as H2.
    replace (Zdigits2 a + Zdigits2 b - 1 - 1) with ((Zdigits2 a - 1) + (Zdigits2 b - 1)) by lia.
    rewrite Z.pow_add_r by lia.
    assert (0 < 2 ^ (Zdigits2 a - 1)) by (apply Z.pow_pos_nonneg; lia).
    assert (0 < 2 ^ (Zdigits2 b - 1)) by (apply Z.pow_pos_nonneg; lia).
    nia.
Qed.

(** The product of two integers is exact below [2^53]. *)
Lemma mul_canon (sx sy : bool) (a b : Z) :
  0 < a -> 0 < b -> a * b < 2 ^ 53 ->
  Num.mul (canon sx a) (canon sy b) = canon (xorb sx sy) (a * b).
Proof.
  intros Ha Hb Hab.
  assert (Ha53 : a < 2 ^ 53) by nia.
  assert (Hb53 : b < 2 ^ 53) by nia.
  destruct (canon_fields sx a ltac:(lia)) as [ma [-> [Hma _]]].
  destruct (canon_fields sy b ltac:(lia)) as [mb [-> [Hmb _]]].
  unfold Num.mul, SFmul.
  pose proof (Zdigits2_pos a Ha) as Hda. pose proof (Zdigits2_pos b Hb) as Hdb.
  assert (Hda53 : Zdigits2 a <= 53) by (apply Zdigits2_le_iff; lia).
  assert (Hdb53 : Zdigits2 b <= 53) by (apply Zdigits2_le_iff; lia).
  apply binary_round_aux_exact.
  - nia.
  - pose proof (Zdigits2_mul_lower a b Ha Hb). lia.
  - change (Zpos (ma * mb)) with (Zpos ma * Zpos mb). rewrite Hma, Hmb.
    replace (- (Zdigits2 a - 53 + (Zdigits2 b - 53)))
      with ((53 - Zdigits2 a) + (53 - Zdigits2 b)) by lia.
    rewrite Z.pow_add_r by lia. ring.
Qed.

(** A time value is its own TimeClip. *)
Lemma TimeClip_canon (s : bool) (M : Z) :
  0 < M <= max_time -> TimeClip (canon s M) = Some (if s then - M else M).
Proof.
  intros HM.
  assert (H53 : M < 2 ^ 53) by (unfold max_time in HM; change (2 ^ 53) with 9007199254740992; lia).
  destruct (canon_fields s M ltac:(lia)) as [m [-> [Hm _]]].
  pose proof (Zdigits2_pos M ltac:(lia)) as Hd.
  assert (Hd53 : Zdigits2 M <= 53) by (apply Zdigits2_le_iff; lia).
  cbn [TimeClip]. unfold Num.trunc_mag.
  set (k := 53 - Zdigits2 M) in *.
  assert (Hk : 0 <= k) by (unfold k; lia).
  assert (Hp : 0 < 2 ^ k) by (apply Z.pow_pos_nonneg; lia).
  destruct (Z.leb_spec 0 (Zdigits2 M - 53)) as [He | He].
  - assert (Hk0 : k = 0) by lia.
    replace (Zdigits2 M - 53) with 0 by lia. rewrite Hm, Hk0.
    change (2 ^ 0) with 1. rewrite !Z.mul_1_r.
    destruct (Z.ltb_spec max_time M); [lia | reflexivity].
  - replace (- (Zdigits2 M - 53)) with k by (unfold k; lia).
    rewrite Hm, Z.div_mul by lia.
    destruct (Z.ltb_spec (max_time * 2 ^ k) (M * 2 ^ k)); [nia | reflexivity].
Qed.

(** [Number] on a string of decimal digits. *)
Lemma StringToNumber_digits (ds : string) :
  ds <> "" -> all_chars Str.is_digit ds = true ->
  Str.StringToNumber ds = Num.of_decimal false (dval ds 0) 0.
Proof.
  intros Hne Hd.
  assert (Hplain : all_chars is_plain ds = true).
  { apply (all_chars_weaken Str.is_digit); [apply digit_plain | exact Hd]. }
  rewrite (StringToNumber_plain ds Hne Hplain).
  destruct ds as [| c r]; [congruence |].
  assert (Hc : Str.is_digit c = true).
  { simpl in Hd. apply andb_true_iff in Hd. apply Hd. }
  unfold Str.StrDecimalLiteral.
  rewrite (scan_sign_digit c r Hc), (not_Infinity c r Hc).
  pose proof (scan_digits_app (String c r) "" 0 0 Hd I) as Hscan.
  rewrite append_nil_r in Hscan. rewrite Hscan.
  assert (Hlen : 0 < Str.Zlength (String c r)).
  { unfold Str.Zlength. simpl String.length. lia. }
  replace (0 + Str.Zlength (String c r) + 0 =? 0) with false
    by (symmetry; apply Z.eqb_neq; lia).
  reflexivity.
Qed.

(** ** The uptime of a runner created at a given second *)

(** The creation time of a timestamp whose seconds are written in
    decimal. *)
Lemma created_time_digits (secs : string) :
  secs <> "" -> all_chars Str.is_digit secs = true -> dval secs 0 <= max_seconds ->
  created_time secs = Some (1000 * dval secs 0).
Proof.
  intros Hne Hd Hmax. unfold created_time.
  rewrite (StringToNumber_digits secs Hne Hd).
  destruct (decimal_digits_spec 0 ltac:(lia)) as [_ _].
  assert (Hnn : 0 <= dval secs 0).
  { assert (H : forall s a, 0 <= a -> all_chars Str.is_digit s = true -> 0 <= dval s a).
    { induction s as [| c r IH]; intros a Ha Hs; [exact Ha |].
      simpl in Hs. apply andb_true_iff in Hs. destruct Hs as [Hc Hr].
      apply is_digit_code in Hc. cbn [dval]. apply IH; [lia | exact Hr]. }
    apply H; [lia | exact Hd]. }
  unfold max_seconds in Hmax.
  destruct (Z.eq_dec (dval secs 0) 0) as [Hz | Hnz].
  - rewrite Hz. reflexivity.
  - rewrite of_decimal_integer by (change (10 ^ 0) with 1; change (2 ^ 53) with 9007199254740992; lia).
    change (10 ^ 0) with 1. rewrite Z.mul_1_r.
    rewrite (of_Z_canon 1000) by (change (2 ^ 53) with 9007199254740992; simpl; lia).
    change (1000 <? 0) with false. change (Z.abs 1000) with 1000.
    rewrite mul_canon by (change (2 ^ 53) with 9007199254740992; lia).
    cbn [xorb]. rewrite TimeClip_canon by (unfold max_time; lia).
    f_equal. lia.
Qed.

(** X16: for a creation time given as a non-empty string of decimal
    digits, at most 8,640,000,000,000 seconds, and a clock reading up to
    the year 9999, [calculateUptime] returns exactly the whole hours
    from the creation time to the clock reading, rounded down:
    [floor((now - 1000 * seconds) / 3600000)], computed on integers.
    The binary64 division and [Math.floor] of the source lose nothing;
    a creation time after the clock reading gives a negative uptime. *)
Theorem uptime_from_decimal_seconds (now : Z) (secs : string) :
  secs <> "" -> all_chars Str.is_digit secs = true -> dval secs 0 <= max_seconds ->
  Z.abs now <= max_clock ->
  created_time secs = Some (1000 * dval secs 0)
  /\ calculateUptime now (stamp secs)
     = Num.of_Z ((now - 1000 * dval secs 0) / msPerHour).
Proof.
  intros Hne Hd Hmax Hnow.
  pose proof (created_time_digits secs Hne Hd Hmax) as Hc.
  split; [exact Hc |].
  unfold stamp.
  rewrite (calculateUptime_stamp now
             {| Timestamp.seconds := Some secs; Timestamp.nanos := 0 |} secs eq_refl Hne).
  rewrite Hc. cbn [getTime].
  apply uptime_hours_exact; [exact Hnow |].
  apply (TimeClip_range _ _ Hc).
Qed.

Lemma uptime_from_decimal_seconds_witness :
  created_time "1729990000" = Some 1729990000000
  /\ calculateUptime now_2024 (stamp "1729990000") = Num.of_Z 2.
Proof.
  apply (uptime_from_decimal_seconds now_2024 "1729990000").
  - discriminate.
  - reflexivity.
  - vm_compute. discriminate.
  - vm_compute. discriminate.
Defined.

(** ** Printing integers *)

Lemma dval_bounds (s : string) :
  all_chars Str.is_digit s = true ->
  forall a, a * 10 ^ Str.Zlength s <= dval s a < (a + 1) * 10 ^ Str.Zlength s.
Proof.
  induction s as [| c r IH]; intros Hs a.
  - cbn [dval]. change (Str.Zlength "") with 0. change (10 ^ 0) with 1. lia.
  - simpl in Hs. apply andb_true_iff in Hs. destruct Hs as [Hc Hr].
    apply is_digit_code in Hc. cbn [dval].
    specialize (IH Hr (10 * a + (Str.code c - 48))).
    replace (Str.Zlength (String c r)) with (Str.Zlength r + 1)
      by (unfold Str.Zlength; cbn [String.length]; lia).
    rewrite Z.pow_add_r by (try apply Zlength_nonneg; lia).
    change (10 ^ 1) with 10.
    assert (0 < 10 ^ Str.Zlength r) by (apply Z.pow_pos_nonneg; [lia | apply Zlength_nonneg]).
    nia.
Qed.

(** The digits of a positive integer begin with a digit other than 0. *)
Lemma digits_fuel_leading (fuel : nat) :
  forall n acc, 0 < n < 10 ^ (Z.of_nat fuel + 1) ->
  exists D,
    Str.digits_fuel fuel n acc = D ++ acc
    /\ all_chars Str.is_digit D = true
    /\ dval D 0 = n
    /\ 10 ^ (Str.Zlength D - 1) <= n.
Proof.
  assert (Hone : forall n acc, 0 < n < 10 ->
            exists D,
              String (Str.chr (48 + n mod 10)) acc = D ++ acc
              /\ all_chars Str.is_digit D = true
              /\ dval D 0 = n
              /\ 10 ^ (Str.Zlength D - 1) <= n).
  { intros n acc Hn. exists (String (Str.chr (48 + n mod 10)) "").
    rewrite Z.mod_small by lia.
    split; [reflexivity |]. split.
    - cbn [all_chars]. rewrite andb_true_r. apply is_digit_code.
      rewrite code_chr by lia. lia.
    - split.
      + cbn [dval]. rewrite code_chr by lia. lia.
      + change (Str.Zlength (String (Str.chr (48 + n)) "") - 1) with 0.
        change (10 ^ 0) with 1. lia. }
  induction fuel as [| f IH]; intros n acc Hn.
  - simpl Str.digits_fuel. apply Hone. simpl in Hn. lia.
  - cbn [Str.digits_fuel]. destruct (Z.ltb_spec n 10) as [Hlt | Hge].
    + apply Hone. lia.
    + assert (Hq : 0 < n / 10 < 10 ^ (Z.of_nat f + 1)).
      { split; [apply Z.div_str_pos; lia |].
        apply Z.div_lt_upper_bound; [lia |].
        rewrite Nat2Z.inj_succ in Hn.
        replace (Z.succ (Z.of_nat f) + 1) with (Z.succ (Z.of_nat f + 1)) in Hn by lia.
        rewrite Z.pow_succ_r in Hn by lia. lia. }
      destruct (IH (n / 10) (String (Str.chr (48 + n mod 10)) acc) Hq)
        as [D [HD [Hall [Hval Hlow]]]].
      pose proof (Z.mod_pos_bound n 10 ltac:(lia)) as Hmod.
      exists (D ++ String (Str.chr (48 + n mod 10)) "").
      split; [rewrite HD, append_assoc; reflexivity |].
      split.
      { rewrite all_chars_app, Hall. cbn [all_chars andb]. rewrite andb_true_r.
        apply is_digit_code. rewrite code_chr by lia. lia. }
      pose proof (Z.div_mod n 10 ltac:(lia)) as Hdm.
      split.
      { rewrite dval_app, Hval. cbn [dval]. rewrite code_chr by lia. lia. }
      rewrite Zlength_app.
      replace (Str.Zlength (String (Str.chr (48 + n mod 10)) "")) with 1 by reflexivity.
      replace (Str.Zlength D + 1 - 1) with ((Str.Zlength D - 1) + 1) by lia.
      assert (HlenD : 0 < Str.Zlength D).
      { destruct D as [| c r]; [cbn [dval] in Hval; lia |].
        unfold Str.Zlength. cbn [String.length]. lia. }
      rewrite Z.pow_add_r by lia. change (10 ^ 1) with 10. lia.
Qed.

Lemma decimal_digits_leading (n : Z) :
  0 < n ->
  all_chars Str.is_digit (Str.decimal_digits n) = true
  /\ dval (Str.decimal_digits n) 0 = n
  /\ 10 ^ (Str.Zlength (Str.decimal_digits n) - 1) <= n
  /\ n < 10 ^ Str.Zlength (Str.decimal_digits n).
Proof.
  intros Hn. unfold Str.decimal_digits.
  assert (Hf : 0 < n < 10 ^ (Z.of_nat (Z.to_nat (Z.log2 n)) + 1)).
  { split; [exact Hn |].
    rewrite Z2Nat.id by apply Z.log2_nonneg.
    pose proof (Z.log2_spec n Hn) as [_ Hhi].
    apply (Z.lt_le_trans _ _ _ Hhi).
    replace (Z.succ (Z.log2 n)) with (Z.log2 n + 1) by lia.
    apply Z.pow_le_mono_l. lia. }
  destruct (digits_fuel_leading _ n "" Hf) as [D [HD [Hall [Hval Hlow]]]].
  rewrite append_nil_r in HD. rewrite HD.
  split; [exact Hall |]. split; [exact Hval |]. split; [exact Hlow |].
  pose proof (dval_bounds D Hall 0) as Hb. lia.
Qed.

Lemma dval_zeros (k : nat) (a : Z) : dval (Str.repeat0 k) a = a * 10 ^ Z.of_nat k.
Proof.
  revert a. induction k as [| k IH]; intros a.
  - cbn [Str.repeat0 dval]. change (10 ^ Z.of_nat 0) with 1. lia.
  - cbn [Str.repeat0 dval]. rewrite IH.
    change (Str.code "0" - 48) with 0.
    rewrite Nat2Z.inj_succ, Z.pow_succ_r by lia. lia.
Qed.

(** Powers of ten compare as their exponents. *)
Lemma pow10_lt (a b : Z) : 0 <= a -> 10 ^ a < 10 ^ (b + 1) -> a <= b.
Proof.
  intros Ha H. destruct (Z.le_gt_cases a b) as [Hle | Hgt]; [exact Hle |].
  exfalso. assert (10 ^ (b + 1) <= 10 ^ a) by (apply Z.pow_le_mono_r; lia). lia.
Qed.

Lemma canon_inj (s : bool) (a b : Z) :
  0 < a < 2 ^ 53 -> 0 < b < 2 ^ 53 -> canon s a = canon s b -> a = b.
Proof.
  intros Ha Hb H.
  destruct (canon_fields s a Ha) as [ma [Ea [Hma _]]].
  destruct (canon_fields s b Hb) as [mb [Eb [Hmb _]]].
  rewrite Ea, Eb in H. injection H as Hm He.
  assert (Hd : Zdigits2 a = Zdigits2 b) by lia.
  subst ma. rewrite Hmb, Hd in Hma.
  pose proof (Pos2Z.is_pos mb) as Hpos.
  destruct (Z.le_gt_cases 0 (53 - Zdigits2 b)) as [Hk | Hk].
  - assert (Hp : 0 < 2 ^ (53 - Zdigits2 b)) by (apply Z.pow_pos_nonneg; lia).
    apply Z.mul_reg_r in Hma; lia.
  - rewrite Z.pow_neg_r in Hmb by lia. lia.
Qed.

Lemma same_number_refl (s : bool) (m : positive) (e : Z) :
  Str.same_number (S754_finite s m e) (S754_finite s m e) = true.
Proof.
  cbn [Str.same_number]. rewrite Bool.eqb_reflx, Pos.eqb_refl, Z.eqb_refl. reflexivity.
Qed.

Lemma same_number_eq (x y : Num.number) : Str.same_number x y = true -> x = y.
Proof.
  destruct x as [| | | s1 m1 e1], y as [| | | s2 m2 e2]; cbn [Str.same_number];
    try discriminate.
  intros H. apply andb_true_iff in H. destruct H as [H He].
  apply andb_true_iff in H. destruct H as [Hs Hm].
  apply Bool.eqb_prop in Hs. apply Pos.eqb_eq in Hm. apply Z.eqb_eq in He. congruence.
Qed.

Lemma shortest_from_eq (fuel : nat) (x : Num.number) (num den n0 k : Z) :
  Str.shortest_from fuel x num den n0 k
  = let '(c1, c2) := Str.scaled_neighbours num den (k - n0) in
    match fuel with
    | O => (c1, n0 - k)
    | S f =>
        if Str.same_number (Num.of_decimal false c1 (n0 - k)) x then (c1, n0 - k)
        else if Str.same_number (Num.of_decimal false c2 (n0 - k)) x then (c2, n0 - k)
        else Str.shortest_from f x num den n0 (k + 1)
    end.
Proof. destruct fuel; reflexivity. Qed.

(** A candidate [c * 10^j] that is taken for the integer [n] is [n]. *)
Lemma candidate_is_integer (n c j : Z) :
  0 < n < 2 ^ 52 -> 0 <= j -> 10 ^ j <= n -> 0 <= c <= n / 10 ^ j + 1 ->
  Str.same_number (Num.of_decimal false c j) (canon false n) = true ->
  0 < c /\ c * 10 ^ j = n.
Proof.
  intros Hn Hj Hpow Hc Hsame.
  assert (Hp : 0 < 10 ^ j) by (apply Z.pow_pos_nonneg; lia).
  destruct (Z.eq_dec c 0) as [-> | Hnz].
  - unfold Num.of_decimal in Hsame. cbn [Z.eqb] in Hsame.
    destruct (canon_fields false n ltac:(change (2 ^ 53) with (2 * 2 ^ 52); lia))
      as [m [E _]].
    rewrite E in Hsame. discriminate.
  - assert (Hle : c * 10 ^ j <= n + 10 ^ j).
    { pose proof (Z.mul_div_le n (10 ^ j) Hp). nia. }
    assert (H53 : c * 10 ^ j < 2 ^ 53) by (change (2 ^ 53) with (2 * 2 ^ 52); lia).
    rewrite of_decimal_integer in Hsame by lia.
    apply same_number_eq in Hsame.
    apply canon_inj in Hsame; [lia | nia | change (2 ^ 53) with (2 * 2 ^ 52); lia].
Qed.

(** The neighbours of [n / 10^j]. *)
Lemma neighbours_integer (n P L k : Z) :
  0 < n -> 0 < P -> k <= L ->
  let '(c1, c2) := Str.scaled_neighbours (n * P) P (k - L) in
  (c1 = n / 10 ^ (L - k) \/ c1 = n / 10 ^ (L - k) + 1)
  /\ (c2 = n / 10 ^ (L - k) \/ c2 = n / 10 ^ (L - k) + 1)
  /\ (k = L -> c1 = n).
Proof.
  intros Hn HP Hk. unfold Str.scaled_neighbours.
  set (j := L - k).
  assert (Hj : 0 <= j) by (unfold j; lia).
  assert (Hp : 0 < 10 ^ j) by (apply Z.pow_pos_nonneg; lia).
  assert (Ha : (if 0 <=? k - L then n * P * 10 ^ (k - L) else n * P) = n * P).
  { destruct (Z.leb_spec 0 (k - L)); [| reflexivity].
    replace (k - L) with 0 by lia. change (10 ^ 0) with 1. lia. }
  assert (Hb : (if 0 <=? k - L then P else P * 10 ^ (- (k - L))) = 10 ^ j * P).
  { destruct (Z.leb_spec 0 (k - L)).
    - replace j with 0 by (unfold j; lia). change (10 ^ 0) with 1. lia.
    - replace (- (k - L)) with j by (unfold j; lia). lia. }
  rewrite Ha, Hb.
  assert (Hq : n * P / (10 ^ j * P) = n / 10 ^ j).
  { rewrite Z.div_mul_cancel_r by lia. reflexivity. }
  assert (Hr : (n * P) mod (10 ^ j * P) = (n mod 10 ^ j) * P).
  { rewrite Z.mul_mod_distr_r by lia. reflexivity. }
  rewrite Hq, Hr.
  destruct ((2 * (n mod 10 ^ j * P) <? 10 ^ j * P)
            || (2 * (n mod 10 ^ j * P) =? 10 ^ j * P) && Z.even (n / 10 ^ j)) eqn:Ht.
  - split; [left; reflexivity |]. split; [right; reflexivity |].
    intros HkL. replace j with 0 by (unfold j; lia). change (10 ^ 0) with 1.
    apply Z.div_1_r.
  - split; [right; reflexivity |]. split; [left; reflexivity |].
    intros HkL. exfalso.
    replace j with 0 in Ht by (unfold j; lia). change (10 ^ 0) with 1 in Ht.
    rewrite Z.mod_1_r in Ht.
    apply orb_false_iff in Ht. destruct Ht as [Ht _].
    apply Z.ltb_ge in Ht. lia.
Qed.

(** For an integer of [L] decimal digits the search ends by length [L],
    with digits whose value is the integer. *)
Lemma shortest_integer (n P L : Z) :
  0 < n < 2 ^ 52 -> 0 < P -> 10 ^ (L - 1) <= n ->
  forall (fuel : nat) (k : Z),
  1 <= k <= L -> L - k < Z.of_nat fuel ->
  let '(c, ex) := Str.shortest_from fuel (canon false n) (n * P) P L k in
  0 < c /\ 0 <= ex /\ c * 10 ^ ex = n.
Proof.
  intros Hn HP HL.
  induction fuel as [| f IH]; intros k Hk Hfuel; [simpl in Hfuel; lia |].
  rewrite shortest_from_eq.
  pose proof (neighbours_integer n P L k ltac:(lia) HP ltac:(lia)) as Hnb.
  destruct (Str.scaled_neighbours (n * P) P (k - L)) as [c1 c2].
  destruct Hnb as [H1 [H2 HkL]].
  assert (Hj : 0 <= L - k) by lia.
  assert (Hpow : 10 ^ (L - k) <= n).
  { apply (Z.le_trans _ (10 ^ (L - 1))); [apply Z.pow_le_mono_r; lia | exact HL]. }
  assert (Hq : 0 <= n / 10 ^ (L - k)).
  { apply Z.div_pos; [lia | apply Z.pow_pos_nonneg; lia]. }
  destruct (Str.same_number (Num.of_decimal false c1 (L - k)) (canon false n)) eqn:E1.
  { destruct (candidate_is_integer n c1 (L - k) Hn Hj Hpow ltac:(lia) E1) as [Hc Hv].
    split; [exact Hc |]. split; [exact Hj | exact Hv]. }
  destruct (Str.same_number (Num.of_decimal false c2 (L - k)) (canon false n)) eqn:E2.
  { destruct (candidate_is_integer n c2 (L - k) Hn Hj Hpow ltac:(lia) E2) as [Hc Hv].
    split; [exact Hc |]. split; [exact Hj | exact Hv]. }
  destruct (Z.eq_dec k L) as [Heq | Hneq].
  - exfalso. rewrite (HkL Heq) in E1. replace (L - k) with 0 in E1 by lia.
    rewrite of_decimal_integer in E1
      by (change (10 ^ 0) with 1; change (2 ^ 53) with (2 * 2 ^ 52); lia).
    change (10 ^ 0) with 1 in E1. rewrite Z.mul_1_r in E1.
    destruct (canon_fields false n ltac:(change (2 ^ 53) with (2 * 2 ^ 52); lia))
      as [m [E _]].
    rewrite E, same_number_refl in E1. discriminate.
  - apply IH; [lia |]. rewrite Nat2Z.inj_succ in Hfuel. lia.
Qed.

Lemma strip_zeros_value (fuel : nat) :
  forall c ex, 0 < c -> 0 <= ex ->
  let '(c', ex') := Str.strip_zeros fuel c ex in
  0 < c' /\ 0 <= ex' /\ c' * 10 ^ ex' = c * 10 ^ ex.
Proof.
  induction fuel as [| f IH]; intros c ex Hc Hex; cbn [Str.strip_zeros].
  - repeat split; lia.
  - destruct ((c mod 10 =? 0) && (0 <? c)) eqn:Ht; [| repeat split; lia].
    apply andb_true_iff in Ht. destruct Ht as [Hmod _]. apply Z.eqb_eq in Hmod.
    pose proof (Z.div_mod c 10 ltac:(lia)) as Hdm.
    assert (Hq : 0 < c / 10) by lia.
    specialize (IH (c / 10) (ex + 1) Hq ltac:(lia)).
    destruct (Str.strip_zeros f (c / 10) (ex + 1)) as [c' ex'].
    destruct IH as [H1 [H2 H3]]. split; [exact H1 |]. split; [exact H2 |].
    rewrite H3, Z.pow_add_r by lia. change (10 ^ 1) with 10. lia.
Qed.

Lemma leading_nonzero (D : string) :
  all_chars Str.is_digit D = true -> 10 ^ (Str.Zlength D - 1) <= dval D 0 ->
  Json.starts_with 48 D = false.
Proof.
  intros Hd Hlow. destruct D as [| c r]; [reflexivity |].
  cbn [Json.starts_with]. apply Z.eqb_neq. intros Hc.
  simpl in Hd. apply andb_true_iff in Hd. destruct Hd as [_ Hr].
  cbn [dval] in Hlow. rewrite Hc in Hlow. change (10 * 0 + (48 - 48)) with 0 in Hlow.
  pose proof (dval_bounds r Hr 0) as Hb.
  replace (Str.Zlength (String c r) - 1) with (Str.Zlength r) in Hlow
    by (unfold Str.Zlength; cbn [String.length]; lia).
  lia.
Qed.

Lemma starts_with_app_l (n : Z) (a b : string) :
  a <> "" -> Json.starts_with n (a ++ b) = Json.starts_with n a.
Proof. destruct a; [congruence | reflexivity]. Qed.

(** A positive integer below [2^52] is printed as its decimal digits. *)
Lemma Number_toString_integer (s : bool) (n : Z) :
  0 < n < 2 ^ 52 ->
  exists D,
    Str.Number_toString (canon s n) = (if s then "-" else "") ++ D
    /\ all_chars Str.is_digit D = true
    /\ dval D 0 = n
    /\ Json.starts_with 48 D = false
    /\ D <> "".
Proof.
  intros Hn.
  assert (Hn53 : 0 < n < 2 ^ 53) by (change (2 ^ 53) with (2 * 2 ^ 52); lia).
  destruct (canon_fields s n Hn53) as [m [E [Hm _]]].
  destruct (canon_fields false n Hn53) as [m' [E' [Hm' _]]].
  assert (Hmm : m' = m) by (apply Pos2Z.inj; congruence). subst m'.
  pose proof (Zdigits2_pos n ltac:(lia)) as Hd.
  assert (Hd52 : Zdigits2 n <= 52) by (apply Zdigits2_le_iff; lia).
  set (e := Zdigits2 n - 53) in *.
  set (P := 2 ^ (53 - Zdigits2 n)) in *.
  assert (HP : 0 < P) by (apply Z.pow_pos_nonneg; lia).
  rewrite E. cbn [Str.Number_toString].
  assert (Hnum : Str.numerator m e = n * P).
  { unfold Str.numerator. destruct (Z.leb_spec 0 e); [unfold e in *; lia | exact Hm]. }
  assert (Hden : Str.denominator e = P).
  { unfold Str.denominator. destruct (Z.leb_spec 0 e); [unfold e in *; lia |].
    unfold P. f_equal. unfold e. lia. }
  rewrite Hnum, Hden.
  destruct (decimal_digits_leading n ltac:(lia)) as [Hall [Hval [Hlow Hhigh]]].
  set (L := Str.Zlength (Str.decimal_digits n)) in *.
  assert (HL : Str.decimal_exponent (n * P) P = L).
  { unfold Str.decimal_exponent.
    destruct (Z.leb_spec P (n * P)) as [_ | Hlt]; [| nia].
    rewrite Z.div_mul by lia. reflexivity. }
  rewrite HL.
  assert (HL1 : 1 <= L).
  { unfold L, Str.Zlength. destruct (Str.decimal_digits n); [cbn [dval] in Hval; lia |].
    cbn [String.length]. lia. }
  assert (HL16 : L <= 16).
  { assert (H : L - 1 <= 15); [| lia].
    apply pow10_lt; [lia |].
    apply (Z.le_lt_trans _ n); [exact Hlow |].
    apply (Z.lt_trans _ (2 ^ 52)); [lia | reflexivity]. }
  pose proof (shortest_integer n P L Hn HP Hlow 16 1 ltac:(lia)
                ltac:(change (Z.of_nat 16) with 16; lia)) as Hshort.
  rewrite <- E' in *.
  destruct (Str.shortest_from 16 (canon false n) (n * P) P L 1) as [c ex].
  destruct Hshort as [Hc [Hex Hcv]].
  pose proof (strip_zeros_value 17 c ex Hc Hex) as Hstrip.
  destruct (Str.strip_zeros 17 c ex) as [c' ex'].
  destruct Hstrip as [Hc' [Hex' Hcv']]. rewrite Hcv in Hcv'.
  destruct (decimal_digits_leading c' Hc') as [Hall' [Hval' [Hlow' Hhigh']]].
  unfold Str.format_decimal.
  set (ds := Str.decimal_digits c') in *.
  set (k := Str.Zlength ds) in *.
  assert (Hk1 : 1 <= k).
  { unfold k, Str.Zlength. destruct ds; [cbn [dval] in Hval'; lia |].
    cbn [String.length]. lia. }
  assert (Hk21 : ex' + k <= 21).
  { assert (H : ex' + k - 1 <= 15); [| lia].
    apply pow10_lt; [lia |].
    replace (ex' + k - 1) with ((k - 1) + ex') by lia.
    rewrite Z.pow_add_r by lia.
    assert (0 < 10 ^ ex') by (apply Z.pow_pos_nonneg; lia).
    apply (Z.le_lt_trans _ n); [nia |].
    apply (Z.lt_trans _ (2 ^ 52)); [lia | reflexivity]. }
  replace ((k <=? ex' + k) && (ex' + k <=? 21)) with true
    by (symmetry; apply andb_true_iff; rewrite !Z.leb_le; lia).
  replace (ex' + k - k) with ex' by lia.
  exists (ds ++ Str.repeat0 (Z.to_nat ex')).
  split; [reflexivity |].
  split; [rewrite all_chars_app, Hall', repeat0_digits; reflexivity |].
  split.
  { rewrite dval_app, Hval', dval_zeros, Z2Nat.id by lia. exact Hcv'. }
  assert (Hne : ds <> "") by (intros Hz; rewrite Hz in Hval'; cbn [dval] in Hval'; lia).
  split.
  - rewrite starts_with_app_l by exact Hne.
    apply leading_nonzero; [exact Hall' | rewrite Hval'; exact Hlow'].
  - destruct ds; [congruence | discriminate].
Qed.

(** Digit strings of one length with one value are one string. *)
Lemma dval_inj (a : string) :
  forall b x y,
  String.length a = String.length b ->
  all_chars Str.is_digit a = true -> all_chars Str.is_digit b = true ->
  dval a x = dval b y -> x = y /\ a = b.
Proof.
  induction a as [| c r IH]; intros b x y Hlen Ha Hb Hv.
  - destruct b; [| discriminate]. cbn [dval] in Hv. split; [exact Hv | reflexivity].
  - destruct b as [| c' r']; [discriminate |].
    simpl in Ha, Hb. apply andb_true_iff in Ha. apply andb_true_iff in Hb.
    destruct Ha as [Hc Hr]. destruct Hb as [Hc' Hr'].
    apply is_digit_code in Hc. apply is_digit_code in Hc'.
    cbn [dval] in Hv. cbn [String.length] in Hlen.
    destruct (IH r' _ _ ltac:(lia) Hr Hr' Hv) as [Hacc Hrr].
    assert (Hcode : Str.code c = Str.code c') by lia.
    split; [lia |]. subst r'. f_equal.
    rewrite <- (chr_code c), <- (chr_code c'), Hcode. reflexivity.
Qed.

Lemma leading_lower (D : string) :
  all_chars Str.is_digit D = true -> D <> "" -> Json.starts_with 48 D = false ->
  10 ^ (Str.Zlength D - 1) <= dval D 0.
Proof.
  intros Hd Hne Hz. destruct D as [| c r]; [congruence |].
  simpl in Hd. apply andb_true_iff in Hd. destruct Hd as [Hc Hr].
  apply is_digit_code in Hc. cbn [Json.starts_with] in Hz. apply Z.eqb_neq in Hz.
  cbn [dval]. pose proof (dval_bounds r Hr (10 * 0 + (Str.code c - 48))) as Hb.
  replace (Str.Zlength (String c r) - 1) with (Str.Zlength r)
    by (unfold Str.Zlength; cbn [String.length]; lia).
  assert (0 < 10 ^ Str.Zlength r) by (apply Z.pow_pos_nonneg; [lia | apply Zlength_nonneg]).
  nia.
Qed.

(** A number has one decimal form without a leading zero. *)
Lemma digits_unique (a b : string) :
  all_chars Str.is_digit a = true -> all_chars Str.is_digit b = true ->
  a <> "" -> b <> "" ->
  Json.starts_with 48 a = false -> Json.starts_with 48 b = false ->
  dval a 0 = dval b 0 -> a = b.
Proof.
  intros Ha Hb Hane Hbne Hza Hzb Hv.
  pose proof (leading_lower a Ha Hane Hza) as Hla.
  pose proof (leading_lower b Hb Hbne Hzb) as Hlb.
  pose proof (dval_bounds a Ha 0) as Hba. pose proof (dval_bounds b Hb 0) as Hbb.
  pose proof (Zlength_nonneg a) as Hna. pose proof (Zlength_nonneg b) as Hnb.
  assert (Hlen : Str.Zlength a = Str.Zlength b).
  { assert (H1 : Str.Zlength a - 1 <= Str.Zlength b - 1).
    { destruct (Z.eq_dec (Str.Zlength a) 0);
        [destruct a; [congruence | unfold Str.Zlength in *; cbn [String.length] in *; lia] |].
      apply pow10_lt; [lia |].
      replace (Str.Zlength b - 1 + 1) with (Str.Zlength b) by lia. lia. }
    assert (H2 : Str.Zlength b - 1 <= Str.Zlength a - 1).
    { destruct (Z.eq_dec (Str.Zlength b) 0);
        [destruct b; [congruence | unfold Str.Zlength in *; cbn [String.length] in *; lia] |].
      apply pow10_lt; [lia |].
      replace (Str.Zlength a - 1 + 1) with (Str.Zlength a) by lia. lia. }
    lia. }
  apply (dval_inj a b 0 0); [unfold Str.Zlength in Hlen; lia | exact Ha | exact Hb | exact Hv].
Qed.

(** An integer below [2^52] in magnitude is printed in plain decimal. *)
Lemma integer_printed_in_decimal (u : Z) :
  Z.abs u < 2 ^ 52 ->
  Str.Number_toString (Num.of_Z u)
  = (if u <? 0 then "-" else "") ++ Str.decimal_digits (Z.abs u).
Proof.
  intros Hu. destruct (Z.eq_dec u 0) as [-> | Hnz]; [reflexivity |].
  rewrite of_Z_canon by (change (2 ^ 53) with (2 * 2 ^ 52); lia).
  destruct (Number_toString_integer (u <? 0) (Z.abs u) ltac:(lia))
    as [D [HD [Hall [Hval [Hz Hne]]]]].
  rewrite HD. f_equal.
  destruct (decimal_digits_leading (Z.abs u) ltac:(lia)) as [Hall' [Hval' [Hlow' _]]].
  destruct (decimal_digits_spec (Z.abs u) ltac:(lia)) as [_ [Hne' _]].
  apply digits_unique; try assumption.
  - apply leading_nonzero; [exact Hall' | rewrite Hval'; exact Hlow'].
  - congruence.
Qed.

(** A printed integer is read back as a JSON number. *)
Lemma number_literal_integer (s : bool) (D : string) :
  all_chars Str.is_digit D = true -> D <> "" -> Json.starts_with 48 D = false ->
  Json.number_literal ((if s then "-" else "") ++ D)
  = Some (Num.of_decimal s (dval D 0) 0, "").
Proof.
  intros Hd Hne Hz. unfold Json.number_literal.
  destruct D as [| c r] eqn:ED; [congruence |]. rewrite <- ED in *.
  assert (Hc : 48 <= Str.code c <= 57).
  { rewrite ED in Hd. simpl in Hd. apply andb_true_iff in Hd. apply is_digit_code. apply Hd. }
  assert (Hneg : Json.starts_with 45 ((if s then "-" else "") ++ D) = s).
  { destruct s; [reflexivity |]. rewrite ED. cbn [append Json.starts_with].
    apply Z.eqb_neq. lia. }
  rewrite Hneg.
  assert (Hs1 : (if s then Json.tail ((if s then "-" else "") ++ D)
                 else (if s then "-" else "") ++ D) = D).
  { destruct s; reflexivity. }
  rewrite Hs1.
  pose proof (scan_digits_app D "" 0 0 Hd I) as Hscan.
  rewrite append_nil_r in Hscan. rewrite Hscan, Hz.
  assert (Hlen : 0 < Str.Zlength D).
  { rewrite ED. unfold Str.Zlength. cbn [String.length]. lia. }
  replace (0 + Str.Zlength D =? 0) with false by (symmetry; apply Z.eqb_neq; lia).
  reflexivity.
Qed.

(** The printed form of an integer below [2^52] in magnitude is read
    back as that integer. *)
Lemma integer_reads_back (n : Z) :
  Z.abs n < 2 ^ 52 -> reads_back (Num.of_Z n) = true.
Proof.
  intros Hn. destruct (Z.eq_dec n 0) as [-> | Hnz]; [reflexivity |].
  assert (H53 : 0 < Z.abs n < 2 ^ 53) by (change (2 ^ 53) with (2 * 2 ^ 52); lia).
  rewrite of_Z_canon by exact H53.
  destruct (Number_toString_integer (n <? 0) (Z.abs n) ltac:(lia))
    as [D [HD [Hall [Hval [Hz Hne]]]]].
  unfold reads_back. rewrite HD.
  rewrite (number_literal_integer _ D Hall Hne Hz), Hval.
  rewrite of_decimal_integer
    by (change (10 ^ 0) with 1; change (2 ^ 53) with (2 * 2 ^ 52); lia).
  change (10 ^ 0) with 1. rewrite Z.mul_1_r.
  destruct (canon_fields (n <? 0) (Z.abs n) H53) as [m [E _]].
  rewrite E. cbn [Num.isFinite identical andb]. apply same_number_refl.
Qed.

(** X17: the Uptime cell of a row of Runner Details is the uptime in
    plain decimal, with a minus sign when it is negative: for a record
    whose uptime is a whole number below 2^52 in magnitude the row is
    the seven cells below, and no exponent or fraction is printed. *)
Theorem uptime_cell_plain_decimal (m : RunnerMetrics) (hours : Z) :
  uptime m = Num.of_Z hours -> Z.abs hours < 2 ^ 52 ->
  runnerRow m
  = "| " ++ name m ++ " | " ++ kind m ++ " | " ++ region m ++ " | " ++ phase m
      ++ " | " ++ show_nat (List.length (environments m))
      ++ " | " ++ signed_decimal hours
      ++ " | " ++ costCell m ++ " |".
Proof.
  intros Hu Hh. unfold runnerRow, signed_decimal.
  rewrite Hu, (integer_printed_in_decimal hours Hh). reflexivity.
Qed.

Lemma uptime_cell_plain_decimal_witness :
  runnerRow (metrics_of "RUNNER_KIND_REMOTE" (-720) Json.JNull [])
  = "| runner | RUNNER_KIND_REMOTE | unknown | RUNNER_PHASE_ACTIVE | 0 | -720 | 0.00 |".
Proof.
  refine (eq_trans
            (uptime_cell_plain_decimal
               (metrics_of "RUNNER_KIND_REMOTE" (-720) Json.JNull []) (-720) _ _) _).
  - reflexivity.
  - vm_compute. reflexivity.
  - vm_compute. reflexivity.
Defined.

(** X18: a whole number below 2^52 in magnitude in the system details is
    printed and read back without loss: [JSON.stringify(n, null, 2)]
    parses back to [n], and [n] is a Number of the kind that the round
    trip of printed system details asks for. *)
Theorem integer_details_read_back (n : Z) :
  Z.abs n < 2 ^ 52 ->
  printable (Json.JNum (Num.of_Z n)) = true
  /\ Json.parse (Stringify.JSON_stringify (Json.JNum (Num.of_Z n)))
     = Normal (Json.JNum (Num.of_Z n)).
Proof.
  intros Hn.
  assert (Hp : printable (Json.JNum (Num.of_Z n)) = true)
    by (cbn [printable]; apply integer_reads_back; exact Hn).
  split; [exact Hp |].
  destruct (printed_reads _ Hp "" "" eq_refl I) as [F HF].
  apply (parse_of_value F). unfold Stringify.JSON_stringify.
  rewrite <- (append_nil_r (Stringify.SerializeJSONProperty "" _)).
  apply HF. lia.
Qed.

Lemma integer_details_read_back_witness :
  printable (Json.JNum (Num.of_Z (-16384))) = true
  /\ Json.parse (Stringify.JSON_stringify (Json.JNum (Num.of_Z (-16384))))
     = Normal (Json.JNum (Num.of_Z (-16384))).
Proof.
  apply (integer_details_read_back (-16384)). vm_compute. reflexivity.
Defined.

(** ** Two decimals, printed and read and printed again *)

(** The Number nearest to [n / 100], scaled by 100, rounds back to [n]. *)
Lemma hundredths_round_back (s : bool) (n : Z) :
  0 < n < 2 ^ 52 ->
  exists M E,
    Num.of_decimal s n (-2) = S754_finite s M E
    /\ Num.round_scaled M E 100 = n
    /\ Zpos (digits2_pos M) + E <= 54.
Proof.
  intros Hn.
  pose proof (Zdigits2_pos n ltac:(lia)) as Hd.
  assert (Hd52 : Zdigits2 n <= 52) by (apply Zdigits2_le_iff; lia).
  pose proof (of_ratio_within s n 100 (Zdigits2 n) ltac:(lia) ltac:(lia) ltac:(lia)
                ltac:(lia)) as Hwithin.
  unfold Num.of_decimal.
  replace (n =? 0) with false by (symmetry; apply Z.eqb_neq; lia).
  change (0 <=? -2) with false. change (10 ^ (- -2)) with 100. cbv iota.
  fold (Num.of_ratio s n 100) in Hwithin.
  unfold Num.of_ratio in *.
  replace (n =? 0) with false in * by (symmetry; apply Z.eqb_neq; lia).
  unfold SFdiv_core_binary in *. change (Zdigits2 100) with 7 in *.
  rewrite fexp_eq in *.
  replace (Z.min (Z.max (Zdigits2 n + 0 - (7 + 0) - 53) (-1074)) (0 - 0))
    with (Zdigits2 n - 60) in * by lia.
  replace (0 - 0 - (Zdigits2 n - 60)) with (60 - Zdigits2 n) in * by lia.
  cbv zeta in *.
  set (k := 60 - Zdigits2 n) in *.
  assert (Hk : 8 <= k <= 59) by (unfold k; lia).
  destruct k as [| p | p] eqn:Ek; [lia | | lia].
  rewrite <- Ek in *. rewrite Z.shiftl_mul_pow2 in * by lia.
  rewrite div_eucl_div_mod in *.
  set (A := n * 2 ^ k) in *.
  assert (Hpk : 0 < 2 ^ k) by (apply Z.pow_pos_nonneg; lia).
  assert (HA : 0 <= A) by (unfold A; nia).
  assert (HAlow : 2 ^ 59 <= A).
  { unfold A. pose proof (proj1 (Zdigits2_ge_iff n (Zdigits2 n) ltac:(lia) Hd) ltac:(lia)) as H.
    replace (2 ^ 59) with (2 ^ (Zdigits2 n - 1) * 2 ^ k).
    2:{ rewrite <- Z.pow_add_r by lia. f_equal. unfold k in Ek. lia. }
    nia. }
  assert (HAhigh : A < 2 ^ 60).
  { unfold A. pose proof (Zdigits2_lt_pow n ltac:(lia)) as H.
    replace (2 ^ 60) with (2 ^ Zdigits2 n * 2 ^ k).
    2:{ rewrite <- Z.pow_add_r by lia. f_equal. lia. }
    nia. }
  pose proof (new_location_locates A 100 HA ltac:(lia)) as Hloc.
  assert (Hq : 2 ^ 52 <= A / 100 < 2 ^ 54).
  { split.
    - apply Z.div_le_lower_bound; [lia |].
      apply (Z.le_trans _ (2 ^ 59)); [vm_compute; discriminate | exact HAlow].
    - apply Z.div_lt_upper_bound; [lia |].
      apply (Z.lt_le_trans _ (2 ^ 60)); [exact HAhigh | vm_compute; discriminate]. }
  destruct (round_aux_located s (A / 100) (Zdigits2 n - 60) _ A 100 HA ltac:(lia) Hloc Hq
              ltac:(lia)) as [m1 [n1 [M [E [Hn1 [Hround [Hnear Hform]]]]]]].
  rewrite Hround in *. exists M, E. split; [reflexivity |].
  cbn [within] in Hwithin. destruct Hwithin as [_ Hmag].
  split; [| lia].
  (* the scaled value *)
  set (T := 2 ^ (k - n1)).
  assert (HT : 128 <= T).
  { unfold T. change 128 with (2 ^ 7). apply Z.pow_le_mono_r; lia. }
  assert (HkT : 2 ^ k = T * 2 ^ n1).
  { unfold T. rewrite <- Z.pow_add_r by lia. f_equal. lia. }
  assert (Hp1 : 0 < 2 ^ n1) by (apply Z.pow_pos_nonneg; lia).
  assert (Hclose : -50 <= 100 * m1 - n * T <= 50).
  { unfold A in Hnear. rewrite HkT in Hnear.
    destruct Hn1 as [-> | ->].
    - change (2 ^ 0) with 1 in *. lia.
    - change (2 ^ 1) with 2 in *. lia. }
  unfold Num.round_scaled.
  destruct Hform as [[HM HE] | [HM HE]].
  - assert (HEneg : E < 0) by lia.
    destruct (Z.leb_spec 0 E) as [Hle | _]; [lia |].
    replace (- E) with (k - n1) by lia. fold T.
    rewrite HM. symmetry.
    apply (Z.div_unique _ _ n (2 * m1 * 100 + T - n * (2 * T))); lia.
  - assert (HEneg : E < 0) by lia.
    destruct (Z.leb_spec 0 E) as [Hle | _]; [lia |].
    assert (HT2 : T = 2 * 2 ^ (- E)).
    { unfold T. replace (k - n1) with (1 + - E) by lia.
      rewrite Z.pow_add_r by lia. reflexivity. }
    set (T' := 2 ^ (- E)) in *.
    symmetry.
    apply (Z.div_unique _ _ n (2 * Zpos M * 100 + T' - n * (2 * T'))); lia.
Qed.

(** Below 10^21, the text of [toFixed(2)] is fixed by the sign and the
    number of hundredths it rounds to. *)
Lemma toFixed_same (s : bool) (m m' : positive) (e e' : Z) :
  Num.trunc_mag m e < 10 ^ 21 -> Num.trunc_mag m' e' < 10 ^ 21 ->
  Num.round_scaled m e 100 = Num.round_scaled m' e' 100 ->
  Str.toFixed (S754_finite s m e) 2 = Str.toFixed (S754_finite s m' e') 2.
Proof.
  intros H H' Hn. unfold Str.toFixed.
  destruct (Z.leb_spec (10 ^ 21) (Num.trunc_mag m e)); [lia |].
  destruct (Z.leb_spec (10 ^ 21) (Num.trunc_mag m' e')); [lia |].
  change (10 ^ Z.of_nat 2) with 100. rewrite Hn. reflexivity.
Qed.

Lemma toFixed_not_empty (s : bool) (m : positive) (e : Z) :
  Num.trunc_mag m e < 10 ^ 21 -> Str.toFixed (S754_finite s m e) 2 <> "".
Proof.
  intros H. unfold Str.toFixed.
  destruct (Z.leb_spec (10 ^ 21) (Num.trunc_mag m e)); [lia |].
  cbv zeta. destruct s; [discriminate |]. cbn [append].
  match goal with
  | |- substring 0 ?a ?p ++ _ <> "" => destruct (substring 0 a p); discriminate
  end.
Qed.

(** What [Number(x.toFixed(2)) || 0] prints with two decimals: the text
    it was read from, or "0.00" when it is 0. *)
Lemma toFixed_twice (s : bool) (K : Z) (x : Num.number) :
  within s K x -> 0 <= K <= 44 ->
  let y := or_zero (Str.StringToNumber (Str.toFixed x 2)) in
  Str.StringToNumber (Str.toFixed y 2) = y
  /\ Str.toFixed y 2 = if Num.truthy y then Str.toFixed x 2 else "0.00".
Proof.
  intros Hx HK. cbv zeta.
  destruct x as [sx | sx | | sx m e]; try contradiction.
  - split; reflexivity.
  - destruct Hx as [-> Hmag].
    assert (Hsmall : Num.trunc_mag m e < 10 ^ 21) by (apply trunc_mag_small; lia).
    rewrite (toFixed_read_back s m e Hsmall).
    pose proof (round_scaled_nonneg m e 100 ltac:(lia)) as Hnn.
    pose proof (round_scaled_digits m e K Hmag ltac:(lia)) as Hdig.
    set (n := Num.round_scaled m e 100) in *.
    destruct (Z.eq_dec n 0) as [Hz | Hnz].
    + rewrite Hz. split; reflexivity.
    + assert (Hn : 0 < n < 2 ^ 52).
      { split; [lia |]. apply (Zdigits2_le_iff n 52); lia. }
      destruct (hundredths_round_back s n Hn) as [M [E [Hy [Hround Hmag']]]].
      rewrite Hy. cbn [or_zero Num.truthy].
      assert (Hsmall' : Num.trunc_mag M E < 10 ^ 21) by (apply trunc_mag_small; lia).
      assert (Hsame : Str.toFixed (S754_finite s M E) 2 = Str.toFixed (S754_finite s m e) 2).
      { apply toFixed_same; assumption. }
      split; [| exact Hsame].
      rewrite Hsame, (toFixed_read_back s m e Hsmall). exact Hy.
Qed.

(** The sum [estimateCost] rounds, for an uptime that derivation can
    produce and fewer than 256 environments. *)
Lemma cost_sum_within (hours : Z) (count : nat) (r : Num.number) :
  Z.abs hours <= max_uptime -> Z.of_nat count < 2 ^ 8 -> within false (-2) r ->
  within (sign_of hours) 44
    (Num.add (Num.mul (Num.of_Z hours) r)
       (Num.mul (Num.mul (Num.of_Z (Z.of_nat count)) perEnvironmentRate) (Num.of_Z hours))).
Proof.
  intros Hh Hc Hr.
  assert (Hu : within (sign_of hours) 34 (Num.of_Z hours)).
  { apply (of_Z_within hours 33); [| lia].
    unfold max_uptime in Hh. change (2 ^ 33) with 8589934592. lia. }
  assert (Hn : within false 9 (Num.of_Z (Z.of_nat count))).
  { rewrite <- (sign_of_nat count). apply (of_Z_within _ 8); lia. }
  assert (Hp : within false (-3) perEnvironmentRate).
  { vm_compute. split; [reflexivity | discriminate]. }
  pose proof (mul_within _ _ _ _ _ _ Hu Hr ltac:(lia)) as Hcost.
  pose proof (mul_within _ _ _ _ _ _ Hn Hp ltac:(lia)) as Hper.
  pose proof (mul_within _ _ _ _ _ _ Hper Hu ltac:(lia)) as Henv.
  rewrite xorb_false_r in Hcost. cbn [xorb] in Hper. rewrite xorb_false_l in Henv.
  pose proof (add_within _ _ _ _ _ Hcost Henv ltac:(lia)) as Hsum.
  eapply within_weaken; [| exact Hsum]. lia.
Qed.

(** X19: the Est. Cost cell of a row shows the stored estimate without
    loss.  For a record whose uptime is one that derivation can produce,
    with fewer than 256 environments and an instance type that converts
    to a property key, [estimateCost] returns a cost [c], the cell is
    [c.toFixed(2)] (never the fallback text for an empty string), and
    [Number] of the cell is [c] again: rounding to two decimals, reading
    and rounding again changes nothing. *)
Theorem cost_cell_is_stored_cost (m : RunnerMetrics) (hours : Z) (key : string) :
  uptime m = Num.of_Z hours ->
  Z.abs hours <= max_uptime ->
  (List.length (environments m) < 256)%nat ->
  Json.ToPropertyKey (instanceType m) = Normal key ->
  exists c,
    estimateCost m = Normal c
    /\ costCell (set_estimatedCost m c) = Str.toFixed c 2
    /\ Str.StringToNumber (costCell (set_estimatedCost m c)) = c.
Proof.
  intros Hu Hh Hc Hk.
  assert (Hcell : forall c, Str.toFixed c 2 <> "" ->
            costCell (set_estimatedCost m c) = Str.toFixed c 2).
  { intros c Hne. unfold costCell, set_estimatedCost. cbn [estimatedCost].
    cbv zeta. destruct (Str.toFixed c 2); [congruence | reflexivity]. }
  assert (Hzero : costCell (set_estimatedCost m Num.zero) = Str.toFixed Num.zero 2
                  /\ Str.StringToNumber (costCell (set_estimatedCost m Num.zero)) = Num.zero).
  { split; reflexivity. }
  unfold estimateCost.
  destruct (String.eqb (kind m) "RUNNER_KIND_LOCAL").
  - exists Num.zero. split; [reflexivity | exact Hzero].
  - rewrite Hk, Hu. cbn [bind].
    destruct (rate_within key) as [Hi | [r [Hrate Hr]]].
    + rewrite Hi, meteredCost_inherited. exists Num.zero. split; [reflexivity | exact Hzero].
    + rewrite Hrate. eexists. split; [reflexivity |].
      unfold meteredCost. cbn [Member_ToNumber].
      pose proof (cost_sum_within hours (List.length (environments m)) r Hh
                    ltac:(change (2 ^ 8) with 256; lia) Hr) as Hsum.
      destruct (toFixed_twice _ 44 _ Hsum ltac:(lia)) as [Hread Htext].
      set (x := Num.add (Num.mul (Num.of_Z hours) r)
                  (Num.mul (Num.mul (Num.of_Z (Z.of_nat (List.length (environments m))))
                              perEnvironmentRate) (Num.of_Z hours))) in *.
      set (y := or_zero (Str.StringToNumber (Str.toFixed x 2))) in *.
      assert (Hne : Str.toFixed y 2 <> "").
      { rewrite Htext. destruct (Num.truthy y); [| discriminate].
        destruct x as [sx | sx | | sx mx ex]; try contradiction; [discriminate |].
        destruct Hsum as [_ Hmag].
        apply toFixed_not_empty, trunc_mag_small. lia. }
      rewrite (Hcell y Hne). split; [reflexivity | exact Hread].
Qed.

Lemma cost_cell_is_stored_cost_witness :
  exists c,
    estimateCost
      (metrics_of "RUNNER_KIND_REMOTE" 10 (parseSystemDetails (Some "{not json"))
         [environment_on "e-1" "r"; environment_on "e-2" "r"])
    = Normal c
    /\ costCell
         (set_estimatedCost
            (metrics_of "RUNNER_KIND_REMOTE" 10 (parseSystemDetails (Some "{not json"))
               [environment_on "e-1" "r"; environment_on "e-2" "r"]) c)
       = Str.toFixed c 2
    /\ Str.StringToNumber
         (costCell
            (set_estimatedCost
               (metrics_of "RUNNER_KIND_REMOTE" 10 (parseSystemDetails (Some "{not json"))
                  [environment_on "e-1" "r"; environment_on "e-2" "r"]) c))
       = c.
Proof.
  apply (cost_cell_is_stored_cost
           (metrics_of "RUNNER_KIND_REMOTE" 10 (parseSystemDetails (Some "{not json"))
              [environment_on "e-1" "r"; environment_on "e-2" "r"])
           10 "default").
  - reflexivity.
  - vm_compute. discriminate.
  - vm_compute. lia.
  - vm_compute. reflexivity.
Defined.

(** ** Ten cents per environment *)

(** Rounding a located quotient of 53 digits or more: the rounded
    mantissa [m1] is within one half of the quotient scaled by the
    [Zdigits2 q - 53] digits that are dropped. *)
Lemma round_aux_wide (s : bool) (q e : Z) (l : location) (A B : Z) :
  0 <= A -> 0 < B -> locates q l A B ->
  2 ^ 52 <= q -> -1000 <= e -> e + (Zdigits2 q - 53) <= 900 ->
  exists m1 M E,
    binary_round_aux Num.prec Num.emax s q e l = S754_finite s M E
    /\ - (B * 2 ^ (Zdigits2 q - 53))
       <= 2 * (m1 * (B * 2 ^ (Zdigits2 q - 53)) - A)
       <= B * 2 ^ (Zdigits2 q - 53)
    /\ ((Zpos M = m1 /\ E = e + (Zdigits2 q - 53))
        \/ (m1 = 2 * Zpos M /\ E = e + (Zdigits2 q - 53) + 1)).
Proof.
  intros HA HB Hl Hq He Hhi.
  assert (Hq0 : 0 < q) by (assert (0 < 2 ^ 52) by reflexivity; lia).
  assert (Hd : 53 <= Zdigits2 q)
    by (apply (proj2 (Zdigits2_ge_iff q 53 ltac:(lia) ltac:(lia))); exact Hq).
  set (n1 := Zdigits2 q - 53) in *.
  assert (Hn1 : 0 <= n1) by (unfold n1; lia).
  unfold binary_round_aux.
  destruct (shr_fexp Num.prec Num.emax q e l) as [mrs1 e1] eqn:E1.
  unfold shr_fexp in E1.
  pose proof E1 as E1'.
  apply (shr_locates q e _ l A B mrs1 e1 HA HB Hl) in E1.
  apply shr_spec in E1'; [| rewrite shr_m_of_loc; lia].
  rewrite shr_m_of_loc in E1'.
  rewrite fexp_eq in E1, E1'.
  replace (Z.max 0 (Z.max (Zdigits2 q + e - 53) (-1074) - e)) with n1 in E1, E1'
    by (unfold n1; lia).
  destruct E1 as [Hloc He1]. destruct E1' as [Hms _].
  assert (HW : 0 < 2 ^ n1) by (apply Z.pow_pos_nonneg; lia).
  assert (HB1 : 0 < B * 2 ^ n1) by (apply Z.mul_pos_pos; assumption).
  assert (Hms_range : 2 ^ 52 <= shr_m mrs1 < 2 ^ 53).
  { rewrite Hms.
    assert (Hlow : 2 ^ (n1 + 53 - 1) <= q)
      by (apply (proj1 (Zdigits2_ge_iff q (n1 + 53) ltac:(lia) ltac:(lia))); unfold n1; lia).
    assert (Hup : q < 2 ^ (n1 + 53))
      by (apply (proj1 (Zdigits2_le_iff q (n1 + 53) ltac:(lia) ltac:(lia))); unfold n1; lia).
    replace (n1 + 53 - 1) with (n1 + 52) in Hlow by lia.
    rewrite Z.pow_add_r in Hlow, Hup by lia.
    split; [apply Z.div_le_lower_bound; lia | apply Z.div_lt_upper_bound; lia]. }
  pose proof (round_nearest_even_locates _ _ _ _ HB1 Hloc) as Hrb.
  pose proof (round_nearest_even_bounds (shr_m mrs1) (loc_of_shr_record mrs1)) as Hr.
  set (m1 := round_nearest_even (shr_m mrs1) (loc_of_shr_record mrs1)) in *.
  assert (Hm1 : 2 ^ 52 <= m1 <= 2 ^ 53) by lia.
  assert (Hle971 : forall x, x <= e1 + 1 -> (x <=? Num.emax - Num.prec) = true).
  { intros x Hx. apply Z.leb_le. change (Num.emax - Num.prec) with 971. lia. }
  destruct (Z.eq_dec m1 (2 ^ 53)) as [Hcarry | Hnocarry].
  - exists m1, (Z.to_pos (2 ^ 52)), (e1 + 1).
    split; [| split; [exact Hrb |]].
    + unfold shr_fexp. rewrite Hcarry.
      change (Zdigits2 (2 ^ 53)) with 54. rewrite fexp_eq.
      replace (Z.max (54 + e1 - 53) (-1074) - e1) with 1 by lia.
      cbn [shr_record_of_loc].
      change (2 ^ 53) with (2 ^ 52 * 2 ^ 1).
      rewrite shr_exact_record by lia.
      cbn [shr_m]. change (2 ^ 52) with 4503599627370496.
      rewrite (Hle971 (e1 + 1)) by lia. reflexivity.
    + right. rewrite Hcarry. split; [reflexivity | lia].
  - exists m1, (Z.to_pos m1), e1.
    split; [| split; [exact Hrb |]].
    + unfold shr_fexp.
      assert (Hdm1 : Zdigits2 m1 = 53).
      { apply Z.le_antisymm.
        - apply (proj2 (Zdigits2_le_iff m1 53 ltac:(lia) ltac:(lia))). lia.
        - apply (proj2 (Zdigits2_ge_iff m1 53 ltac:(lia) ltac:(lia))). apply Hm1. }
      rewrite Hdm1, fexp_eq.
      replace (Z.max (53 + e1 - 53) (-1074) - e1) with 0 by lia.
      cbn [shr_record_of_loc shr shr_m].
      destruct m1 as [| p | p] eqn:Ep; [lia | | lia].
      rewrite (Hle971 e1) by lia. reflexivity.
    + left. split; [apply Z2Pos.id; lia | lia].
Qed.

(** [n * 0.1] in binary64 is not [n / 10], but it rounds to [10 * n]
    hundredths. *)
Lemma tenth_hundredths (n : Z) :
  0 < n < 2 ^ 47 ->
  exists M E,
    Num.mul (Num.of_Z n) perEnvironmentRate = S754_finite false M E
    /\ Num.round_scaled M E 100 = 10 * n
    /\ Zpos (digits2_pos M) + E <= 54.
Proof.
  intros Hn.
  assert (H4753 : 2 ^ 53 = 2 ^ 47 * 64) by reflexivity.
  rewrite of_Z_canon by lia.
  replace (n <? 0) with false by (symmetry; apply Z.ltb_ge; lia).
  replace (Z.abs n) with n by lia.
  destruct (canon_fields false n ltac:(lia)) as [mD [Hc [HmD HdD]]].
  rewrite Hc.
  change perEnvironmentRate with (S754_finite false 7205759403792794 (-56)).
  unfold Num.mul, SFmul. cbn [xorb].
  pose proof (Zdigits2_pos n ltac:(lia)) as Hd0.
  assert (Hd47 : Zdigits2 n <= 47) by (apply Zdigits2_le_iff; lia).
  set (k := 53 - Zdigits2 n) in *.
  replace (Zdigits2 n - 53) with (- k) by (unfold k; lia).
  assert (Hk : 6 <= k <= 52) by (unfold k; lia).
  set (C := 7205759403792794).
  assert (HmDr : 2 ^ 52 <= Zpos mD < 2 ^ 53).
  { split.
    - apply (proj1 (Zdigits2_ge_iff (Zpos mD) 53 ltac:(lia) ltac:(lia))).
      cbn [Zdigits2]. lia.
    - apply (proj1 (Zdigits2_le_iff (Zpos mD) 53 ltac:(lia) ltac:(lia))).
      cbn [Zdigits2]. lia. }
  change (Zpos (mD * 7205759403792794)) with (Zpos mD * C).
  set (q := Zpos mD * C).
  assert (Hqr : 2 ^ 104 <= q < 2 ^ 106).
  { unfold q, C. change (2 ^ 104) with (2 ^ 52 * 2 ^ 52).
    change (2 ^ 106) with (2 ^ 53 * 2 ^ 53).
    change (2 ^ 52) with 4503599627370496 in *.
    change (2 ^ 53) with 9007199254740992 in *. nia. }
  assert (Hq0 : 0 < q) by (assert (0 < 2 ^ 104) by reflexivity; lia).
  assert (Hdq : 105 <= Zdigits2 q <= 106).
  { split.
    - apply (proj2 (Zdigits2_ge_iff q 105 ltac:(lia) ltac:(lia))). apply Hqr.
    - apply (proj2 (Zdigits2_le_iff q 106 ltac:(lia) ltac:(lia))). apply Hqr. }
  assert (Hloc : locates q loc_Exact q 1).
  { split; [rewrite Z.div_1_r; reflexivity | apply Z.mod_1_r]. }
  destruct (round_aux_wide false q (- k + -56) loc_Exact q 1 ltac:(lia) ltac:(lia) Hloc
              ltac:(assert (2 ^ 52 < 2 ^ 104) by reflexivity; lia) ltac:(lia) ltac:(lia))
    as [m1 [M [E [Hr [Hb Hshape]]]]].
  set (n1 := Zdigits2 q - 53) in *.
  assert (Hn1 : 52 <= n1 <= 53) by (unfold n1; lia).
  rewrite Hr. exists M, E. split; [reflexivity |].
  rewrite Z.mul_1_l in Hb.
  set (W := 2 ^ n1) in *.
  set (e1 := - k + -56 + n1) in *.
  assert (He1 : e1 <= -9) by (unfold e1; lia).
  set (P1 := 2 ^ (- e1)).
  assert (HW : 0 < W) by (apply Z.pow_pos_nonneg; lia).
  assert (HP1 : 0 < P1) by (apply Z.pow_pos_nonneg; lia).
  assert (HT : W * P1 = 2 ^ k * 2 ^ 56).
  { unfold W, P1. rewrite <- !Z.pow_add_r by lia. f_equal. unfold e1. lia. }
  assert (HWle : W <= 2 ^ 53) by (apply Z.pow_le_mono_r; lia).
  assert (Hk6 : 2 ^ 6 <= 2 ^ k) by (apply Z.pow_le_mono_r; lia).
  (* the rounded mantissa, in hundredths *)
  assert (Hmid : (200 * m1 + P1) / (2 * P1) = 10 * n).
  { symmetry. apply (Z.div_unique _ _ _ (200 * m1 + P1 - 2 * P1 * (10 * n))); [| ring].
    left.
    assert (Hq' : 200 * q - 20 * n * (2 ^ k * 2 ^ 56) = 80 * Zpos mD).
    { unfold q, C. rewrite HmD. change (2 ^ 56) with 72057594037927936. ring. }
    assert (Hlo : 0 <= (200 * m1 + P1 - 2 * P1 * (10 * n)) * W).
    { replace ((200 * m1 + P1 - 2 * P1 * (10 * n)) * W)
        with (200 * (m1 * W) + W * P1 - 20 * n * (W * P1)) by ring.
      rewrite HT. change (2 ^ 56) with 72057594037927936 in *.
      change (2 ^ 53) with 9007199254740992 in *. change (2 ^ 52) with 4503599627370496 in *.
      change (2 ^ 6) with 64 in *. lia. }
    assert (Hhi : (200 * m1 + P1 - 2 * P1 * (10 * n)) * W < 2 * P1 * W).
    { replace ((200 * m1 + P1 - 2 * P1 * (10 * n)) * W)
        with (200 * (m1 * W) + W * P1 - 20 * n * (W * P1)) by ring.
      replace (2 * P1 * W) with (2 * (W * P1)) by ring.
      rewrite HT. change (2 ^ 56) with 72057594037927936 in *.
      change (2 ^ 53) with 9007199254740992 in *. change (2 ^ 52) with 4503599627370496 in *.
      change (2 ^ 6) with 64 in *. lia. }
    split.
    - apply (Z.mul_le_mono_pos_r _ _ W HW). rewrite Z.mul_0_l. exact Hlo.
    - apply (Z.mul_lt_mono_pos_r W _ _ HW). exact Hhi. }
  assert (Hm1r : 2 ^ 52 <= m1 <= 2 ^ 53).
  { assert (Hlow : 2 ^ (n1 + 52) <= q).
    { replace (n1 + 52) with (n1 + 53 - 1) by lia.
      apply (proj1 (Zdigits2_ge_iff q (n1 + 53) ltac:(lia) ltac:(lia))). unfold n1. lia. }
    assert (Hup : q < 2 ^ (n1 + 53))
      by (apply (proj1 (Zdigits2_le_iff q (n1 + 53) ltac:(lia) ltac:(lia))); unfold n1; lia).
    rewrite Z.pow_add_r in Hlow, Hup by lia. fold W in Hlow, Hup.
    change (2 ^ 53) with 9007199254740992 in *. change (2 ^ 52) with 4503599627370496 in *.
    split; nia. }
  destruct Hshape as [[HM HE] | [HM HE]].
  - fold e1 in HE. subst E. split.
    + unfold Num.round_scaled.
      destruct (Z.leb_spec 0 e1) as [H0 | _]; [lia |].
      fold P1. rewrite HM.
      replace (2 * m1 * 100) with (200 * m1) by ring. exact Hmid.
    + assert (HdM : Zdigits2 (Zpos M) <= 54)
        by (apply Zdigits2_le_iff; [lia | lia |];
            change (2 ^ 54) with (2 * 2 ^ 53); lia).
      cbn [Zdigits2] in HdM. lia.
  - fold e1 in HE. subst E. split.
    + unfold Num.round_scaled.
      destruct (Z.leb_spec 0 (e1 + 1)) as [H0 | _]; [lia |].
      assert (HP' : P1 = 2 * 2 ^ (- (e1 + 1))).
      { unfold P1. rewrite <- Z.pow_succ_r by lia. f_equal. lia. }
      set (P := 2 ^ (- (e1 + 1))) in *.
      rewrite <- Hmid, HM, HP'.
      replace (200 * (2 * Zpos M) + 2 * P) with (2 * (2 * Zpos M * 100 + P)) by ring.
      replace (2 * (2 * P)) with (2 * (2 * P)) by ring.
      rewrite Z.div_mul_cancel_l; [reflexivity | | lia].
      assert (0 < P) by (apply Z.pow_pos_nonneg; lia). lia.
    + assert (HdM : Zdigits2 (Zpos M) <= 53)
        by (apply Zdigits2_le_iff; [lia | lia |];
            change (2 ^ 53) with (2 * 2 ^ 52) in *; lia).
      cbn [Zdigits2] in HdM. lia.
Qed.

Lemma decimal_digits_small (b : Z) :
  0 <= b < 10 -> Str.decimal_digits b = String (Str.chr (48 + b)) "".
Proof.
  intros Hb. unfold Str.decimal_digits.
  destruct (Z.to_nat (Z.log2 b)); cbn [Str.digits_fuel]; rewrite Z.mod_small by lia;
    [reflexivity |].
  destruct (Z.ltb_spec b 10); [reflexivity | lia].
Qed.

(** The digits of [10 * a + b] are those of [a] followed by the digit
    [b]. *)
Lemma decimal_digits_snoc (a b : Z) :
  0 < a -> 0 <= b < 10 ->
  Str.decimal_digits (10 * a + b) = Str.decimal_digits a ++ Str.decimal_digits b.
Proof.
  intros Ha Hb.
  destruct (decimal_digits_leading (10 * a + b) ltac:(lia)) as [Hd [Hv [Hlow _]]].
  destruct (decimal_digits_spec (10 * a + b) ltac:(lia)) as [_ [Hne _]].
  destruct (decimal_digits_leading a Ha) as [Hda [Hva [Hlowa _]]].
  destruct (decimal_digits_spec a ltac:(lia)) as [_ [Hnea _]].
  rewrite (decimal_digits_small b Hb).
  assert (Hdb : Str.is_digit (Str.chr (48 + b)) = true).
  { apply is_digit_code. rewrite code_chr by lia. lia. }
  apply digits_unique.
  - exact Hd.
  - rewrite all_chars_app, Hda. cbn [all_chars andb]. rewrite Hdb. reflexivity.
  - exact Hne.
  - destruct (Str.decimal_digits a); [congruence | discriminate].
  - apply leading_nonzero; [exact Hd | rewrite Hv; exact Hlow].
  - rewrite starts_with_app_l by exact Hnea.
    apply leading_nonzero; [exact Hda | rewrite Hva; exact Hlowa].
  - rewrite Hv, dval_app, Hva. cbn [dval]. rewrite code_chr by lia. lia.
Qed.

Lemma substring_app_l (a b : string) : substring 0 (String.length a) (a ++ b) = a.
Proof.
  induction a as [| c a IH]; cbn [String.length append substring].
  - destruct b; reflexivity.
  - rewrite IH. reflexivity.
Qed.

Lemma substring_whole (b : string) : substring 0 (String.length b) b = b.
Proof. rewrite <- (append_nil_r b) at 2. rewrite substring_app_l. reflexivity. Qed.

Lemma substring_app_r (a b : string) :
  substring (String.length a) (String.length b) (a ++ b) = b.
Proof.
  induction a as [| c a IH]; cbn [String.length append substring].
  - apply substring_whole.
  - exact IH.
Qed.

(** The text of [toFixed(2)] for a Number that rounds to [10 * n]
    hundredths. *)
Lemma toFixed_tenths (M : positive) (E n : Z) :
  0 < n -> Num.trunc_mag M E < 10 ^ 21 -> Num.round_scaled M E 100 = 10 * n ->
  Str.toFixed (S754_finite false M E) 2 = tenths n.
Proof.
  intros Hn Hsmall Hround. unfold Str.toFixed.
  destruct (Z.leb_spec (10 ^ 21) (Num.trunc_mag M E)) as [Hbig | _]; [lia |].
  change (Z.of_nat 2) with 2. change (10 ^ 2) with 100. change (2 + 1) with 3.
  rewrite Hround. cbv zeta. cbn [append].
  replace (10 * n) with (10 * n + 0) by lia.
  rewrite (decimal_digits_snoc n 0 Hn ltac:(lia)).
  change (Str.decimal_digits 0) with "0".
  unfold tenths.
  destruct (Z.ltb_spec n 10) as [Hlt | Hge].
  - rewrite (Z.div_small n 10), (Z.mod_small n 10) by lia.
    rewrite (decimal_digits_small n) by lia.
    reflexivity.
  - pose proof (Z.div_mod n 10 ltac:(lia)) as Hdm.
    pose proof (Z.mod_pos_bound n 10 ltac:(lia)) as Hmod.
    assert (Hq : 0 < n / 10) by (apply Z.div_str_pos; lia).
    assert (Hds : Str.decimal_digits n
                  = Str.decimal_digits (n / 10) ++ String (Str.chr (48 + n mod 10)) "").
    { rewrite <- (decimal_digits_small (n mod 10) Hmod).
      rewrite <- (decimal_digits_snoc (n / 10) (n mod 10) Hq Hmod), <- Hdm. reflexivity. }
    rewrite Hds, (decimal_digits_small (n mod 10) Hmod).
    set (A := Str.decimal_digits (n / 10)).
    set (c := Str.chr (48 + n mod 10)).
    assert (HA : A <> "") by (apply (decimal_digits_spec (n / 10)); lia).
    assert (HlA : (1 <= String.length A)%nat)
      by (destruct A; [congruence | cbn [String.length]; lia]).
    rewrite !append_assoc. cbn [append].
    assert (Hlen : Str.Zlength (A ++ String c "0") = Z.of_nat (String.length A) + 2).
    { rewrite Zlength_app. unfold Str.Zlength. cbn [String.length]. lia. }
    rewrite Hlen.
    replace (Z.to_nat (3 - (Z.of_nat (String.length A) + 2))) with 0%nat by lia.
    cbn [Str.repeat0 append]. rewrite Hlen.
    replace (Z.to_nat (Z.of_nat (String.length A) + 2 - 2)) with (String.length A) by lia.
    rewrite substring_app_l.
    change 2%nat with (String.length (String c "0")).
    rewrite substring_app_r. reflexivity.
Qed.

(** X20: the Environment Costs line shows ten cents per environment,
    exactly: for [n] environments in all (fewer than 2^47) the Cost
    Analysis prints [n / 10] with two decimals, the integer part, a
    point, the last digit of [n] and a 0.  The binary64 product
    [n * 0.1] is not [n / 10] ([3 * 0.1] is 0.30000000000000004), but
    [toFixed(2)] always rounds it to [10 * n] hundredths. *)
Theorem environment_costs_line (metrics : list RunnerMetrics) :
  Z.of_nat (totalEnvironments metrics) < 2 ^ 47 ->
  costAnalysisSection metrics
  = "## Cost Analysis" ++ nl
    ++ "- Remote Runner Costs: $"
    ++ Str.toFixed (sum_costs (filter (is_kind "RUNNER_KIND_REMOTE") metrics)) 2 ++ nl
    ++ "- Environment Costs: $" ++ tenths (Z.of_nat (totalEnvironments metrics))
    ++ "/hour" ++ nl.
Proof.
  intros Hn. unfold costAnalysisSection.
  do 4 f_equal.
  assert (Htext : Str.toFixed
                    (Num.mul (Num.of_Z (Z.of_nat (totalEnvironments metrics)))
                       perEnvironmentRate) 2
                  = tenths (Z.of_nat (totalEnvironments metrics))).
  { destruct (Z.eq_dec (Z.of_nat (totalEnvironments metrics)) 0) as [Hz | Hnz].
    - rewrite Hz. reflexivity.
    - destruct (tenth_hundredths (Z.of_nat (totalEnvironments metrics)) ltac:(lia))
        as [M [E [Hm [Hr Hmag]]]].
      rewrite Hm. apply toFixed_tenths; [lia | apply trunc_mag_small; lia | exact Hr]. }
  rewrite Htext. reflexivity.
Qed.

Lemma environment_costs_line_witness :
  costAnalysisSection [metrics_of "RUNNER_KIND_REMOTE" 10 Json.JNull example_environments]
  = "## Cost Analysis" ++ nl
    ++ "- Remote Runner Costs: $0.00" ++ nl
    ++ "- Environment Costs: $0.30/hour" ++ nl.
Proof.
  refine (eq_trans
            (environment_costs_line
               [metrics_of "RUNNER_KIND_REMOTE" 10 Json.JNull example_environments] _) _).
  - vm_compute. reflexivity.
  - vm_compute. reflexivity.
Defined.
